(** * Functional QA tool (src/tools/functional-qa.ts): a shallow embedding

    The tool drives one headless browser page through a connectivity check,
    a suite of DOM probes, the caller's scripted flows and two assessments,
    pushing test results and issues onto two arrays as it goes.

    The browser is an external collaborator.  It is modelled as a [Driver]:
    a record of operations over an abstract world [W], each of which either
    returns or throws.  The program itself is written in a state-and-exception
    monad whose state holds the world, the log of driver calls and the local
    variables of [functionalQATool] that the probes mutate ([browser],
    [qaResults], [issues]).  Wall-clock readings ([Date.now], [toISOString])
    are left out of the records; numbers in the arguments and timings and
    pixel lengths read from the page are taken as integers; text is held as
    the bytes of its UTF-8 encoding; every navigation waits for
    [networkidle2], so only its URL and timeout are recorded.

    The exported function first validates its argument against the schema
    and then runs; [functionalQATool] below is the function on validated
    arguments, [functionalQATool_any] the function on any argument. *)

From Stdlib Require Import String Ascii List ZArith Bool Arith Lia DecimalString.
From Stdlib Require Import Permutation.
Import ListNotations.
Open Scope string_scope.

(** ** JavaScript primitives used by the source *)

Module Js.

(** [s.includes(sub)] *)
Fixpoint includes (s sub : string) : bool :=
  if String.prefix sub s then true
  else match s with
       | EmptyString => false
       | String _ s' => includes s' sub
       end.

(** Strings are sequences of bytes holding well-formed UTF-8.  The code
    points that [String.prototype.trim] removes (WhiteSpace and
    LineTerminator of ECMA-262: TAB, LF, VT, FF, CR, SP, U+00A0, U+1680,
    U+2000 to U+200A, U+2028, U+2029, U+202F, U+205F, U+3000, U+FEFF), each
    as its UTF-8 bytes. *)
Definition white_space : list (list nat) :=
  [[9]; [10]; [11]; [12]; [13]; [32];
   [194; 160];
   [225; 154; 128];
   [226; 128; 128]; [226; 128; 129]; [226; 128; 130]; [226; 128; 131];
   [226; 128; 132]; [226; 128; 133]; [226; 128; 134]; [226; 128; 135];
   [226; 128; 136]; [226; 128; 137]; [226; 128; 138];
   [226; 128; 168]; [226; 128; 169]; [226; 128; 175];
   [226; 129; 159];
   [227; 128; 128];
   [239; 187; 191]].

(** [s] without the leading bytes [code], if it starts with them. *)
Fixpoint skip (code : list nat) (s : string) : option string :=
  match code, s with
  | [], _ => Some s
  | n :: code', String c s' =>
      if Nat.eqb n (nat_of_ascii c) then skip code' s' else None
  | _ :: _, EmptyString => None
  end.

(** [s] without its first code point, if that is one of [codes]. *)
Fixpoint skip_any (codes : list (list nat)) (s : string) : option string :=
  match codes with
  | [] => None
  | code :: rest =>
      match skip code s with
      | Some s' => Some s'
      | None => skip_any rest s
      end
  end.

Fixpoint skip_all (codes : list (list nat)) (fuel : nat) (s : string) : string :=
  match fuel with
  | 0 => s
  | S fuel' =>
      match skip_any codes s with
      | Some s' => skip_all codes fuel' s'
      | None => s
      end
  end.

Definition trim_start (s : string) : string :=
  skip_all white_space (String.length s) s.

Fixpoint rev_string (s acc : string) : string :=
  match s with
  | EmptyString => acc
  | String c s' => rev_string s' (String c acc)
  end.

(** The trailing white space is removed on the reversed bytes. *)
Definition trim_end (s : string) : string :=
  rev_string
    (skip_all (map (@rev nat) white_space) (String.length s) (rev_string s "")) "".

Definition trim (s : string) : string := trim_end (trim_start s).

Definition of_nat (n : nat) : string := NilEmpty.string_of_uint (Nat.to_uint n).
Definition of_Z (z : Z) : string := NilZero.string_of_int (Z.to_int z).

(** Template-literal rendering of a possibly [undefined] number. *)
Definition of_optZ (o : option Z) : string :=
  match o with Some z => of_Z z | None => "undefined" end.

(** [x || ''] on an optional string: [null], [undefined] and [''] give ['']. *)
Definition or_empty (o : option string) : string :=
  match o with Some s => s | None => "" end.

(** Truthiness of an optional string ([null]/[undefined]/[''] are falsy). *)
Definition truthy_str (o : option string) : bool :=
  match o with
  | Some s => negb (String.eqb s "")
  | None => false
  end.

(** The values a [passed] field takes in this file: a boolean, or the
    empty string that [title && ...] yields for an empty title. *)
Inductive value := VBool (b : bool) | VStr (s : string).

Definition truthy (v : value) : bool :=
  match v with
  | VBool b => b
  | VStr s => negb (String.eqb s "")
  end.

End Js.

(** ** Arguments (FunctionalQAArgsSchema) *)

Inductive TestSuite := basic | auth | forms | navigation | responsive | comprehensive.

Inductive Action := goto | click | type | wait | screenshot | verify.

Record Step := {
  action : Action;
  selector : option string;
  value : option string;
  expected : option string;
  timeout : Z
}.

Record Flow := { name : string; steps : list Step }.

Record Args := {
  url : string;
  testSuite : TestSuite;
  userFlows : list Flow;
  viewport : Z * Z
}.

(** ** Argument validation (FunctionalQAArgsSchema.parse, lines 4-27)

    The server hands the tool the [arguments] member of the request as it
    came: any JSON value, or [undefined].  Numbers are taken as integers,
    as elsewhere in this file; [fields] lists the own properties of an
    object, each key once. *)

#[warnings="-register-all"]
Inductive Json :=
  | JNull
  | JBool (b : bool)
  | JNumber (n : Z)
  | JString (s : string)
  | JArray (items : list Json)
  | JObject (fields : list (string * Json)).

(** [object[key]]; [None] is [undefined]. *)
Fixpoint property (key : string) (fields : list (string * Json)) : option Json :=
  match fields with
  | [] => None
  | (k, v) :: rest => if String.eqb key k then Some v else property key rest
  end.

(** The zod schemas used, each as the value it yields, or [None] when it
    records an issue, which makes [parse] throw a [ZodError]. *)
Definition zod_string (v : option Json) : option string :=
  match v with Some (JString s) => Some s | _ => None end.

Definition zod_number (v : option Json) : option Z :=
  match v with Some (JNumber n) => Some n | _ => None end.

(** [schema.optional()]: [undefined] is let through. *)
Definition zod_optional {A} (schema : option Json -> option A) (v : option Json)
  : option (option A) :=
  match v with
  | None => Some None
  | Some _ => option_map Some (schema v)
  end.

(** [schema.default(d)]: [undefined] becomes [d]. *)
Definition zod_default {A} (schema : option Json -> option A) (d : A)
           (v : option Json) : option A :=
  match v with
  | None => Some d
  | Some _ => schema v
  end.

Fixpoint zod_items {A} (schema : option Json -> option A) (items : list Json)
  : option (list A) :=
  match items with
  | [] => Some []
  | item :: rest =>
      match schema (Some item), zod_items schema rest with
      | Some a, Some l => Some (a :: l)
      | _, _ => None
      end
  end.

(** [z.array(schema)] *)
Definition zod_array {A} (schema : option Json -> option A) (v : option Json)
  : option (list A) :=
  match v with
  | Some (JArray items) => zod_items schema items
  | _ => None
  end.

(** [z.enum(['goto', 'click', 'type', 'wait', 'screenshot', 'verify'])] *)
Definition zod_action (v : option Json) : option Action :=
  match v with
  | Some (JString s) =>
      if String.eqb s "goto" then Some goto
      else if String.eqb s "click" then Some click
      else if String.eqb s "type" then Some type
      else if String.eqb s "wait" then Some wait
      else if String.eqb s "screenshot" then Some screenshot
      else if String.eqb s "verify" then Some verify
      else None
  | _ => None
  end.

(** [z.enum(['basic', 'auth', 'forms', 'navigation', 'responsive',
    'comprehensive'])] *)
Definition zod_testSuite (v : option Json) : option TestSuite :=
  match v with
  | Some (JString s) =>
      if String.eqb s "basic" then Some basic
      else if String.eqb s "auth" then Some auth
      else if String.eqb s "forms" then Some forms
      else if String.eqb s "navigation" then Some navigation
      else if String.eqb s "responsive" then Some responsive
      else if String.eqb s "comprehensive" then Some comprehensive
      else None
  | _ => None
  end.

(** The schema of one step (lines 9-15); unknown keys are dropped. *)
Definition zod_step (v : option Json) : option Step :=
  match v with
  | Some (JObject fields) =>
      match zod_action (property "action" fields),
            zod_optional zod_string (property "selector" fields),
            zod_optional zod_string (property "value" fields),
            zod_optional zod_string (property "expected" fields),
            zod_default zod_number 5000%Z (property "timeout" fields) with
      | Some a, Some sel, Some val, Some expect, Some t =>
          Some {| action := a; selector := sel; value := val; expected := expect;
                  timeout := t |}
      | _, _, _, _, _ => None
      end
  | _ => None
  end.

(** The schema of one flow (lines 7-16). *)
Definition zod_flow (v : option Json) : option Flow :=
  match v with
  | Some (JObject fields) =>
      match zod_string (property "name" fields),
            zod_array zod_step (property "steps" fields) with
      | Some n, Some l => Some {| name := n; steps := l |}
      | _, _ => None
      end
  | _ => None
  end.

(** The schema of the viewport (lines 17-20). *)
Definition zod_viewport (v : option Json) : option (Z * Z) :=
  match v with
  | Some (JObject fields) =>
      match zod_default zod_number 1280%Z (property "width" fields),
            zod_default zod_number 720%Z (property "height" fields) with
      | Some width, Some height => Some (width, height)
      | _, _ => None
      end
  | _ => None
  end.

(** [FunctionalQAArgsSchema.parse(args)]: the validated arguments, or
    [None] when it throws. *)
Definition FunctionalQAArgsSchema_parse (args : option Json) : option Args :=
  match args with
  | Some (JObject fields) =>
      match zod_string (property "url" fields),
            zod_default zod_testSuite comprehensive (property "testSuite" fields),
            zod_default (zod_array zod_flow) [] (property "userFlows" fields),
            zod_default zod_viewport (1280, 720)%Z (property "viewport" fields) with
      | Some u, Some suite, Some flows, Some vp =>
          Some {| url := u; testSuite := suite; userFlows := flows; viewport := vp |}
      | _, _, _, _ => None
      end
  | _ => None
  end.

(** ** Issues and test results *)

Inductive Severity := critical | major | minor.

(** The category literals that occur in the file. *)
Inductive Category :=
  | Connectivity | SEO | Content | JavaScript | Navigation | Forms
  | Accessibility | ResponsiveDesign | UserFlow | UIUX | Performance.

Definition category_name (c : Category) : string :=
  match c with
  | Connectivity => "Connectivity"
  | SEO => "SEO"
  | Content => "Content"
  | JavaScript => "JavaScript"
  | Navigation => "Navigation"
  | Forms => "Forms"
  | Accessibility => "Accessibility"
  | ResponsiveDesign => "Responsive Design"
  | UserFlow => "User Flow"
  | UIUX => "UI/UX"
  | Performance => "Performance"
  end.

Definition severity_eqb (a b : Severity) : bool :=
  match a, b with
  | critical, critical | major, major | minor, minor => true
  | _, _ => false
  end.

Definition category_eqb (a b : Category) : bool :=
  match a, b with
  | Connectivity, Connectivity | SEO, SEO | Content, Content
  | JavaScript, JavaScript | Navigation, Navigation | Forms, Forms
  | Accessibility, Accessibility | ResponsiveDesign, ResponsiveDesign
  | UserFlow, UserFlow | UIUX, UIUX | Performance, Performance => true
  | _, _ => false
  end.

Record StepResult := {
  stepNumber : nat;
  sr_action : Action;
  sr_selector : option string;
  sr_value : option string;
  sr_passed : bool;
  sr_error : option string;
  (** [None]: the field was never assigned; [Some None]: [null]. *)
  actualValue : option (option string);
  expectedValue : option string
}.

Record FlowResult := {
  fr_testName : string;
  fr_passed : bool;
  fr_steps : list StepResult;
  fr_error : option string
}.

Record BrokenLink := {
  bl_href : string;
  bl_status : option Z;
  bl_error : option string
}.

Record FormInfo := {
  fi_index : nat;
  fi_action : string;
  fi_method : string;
  inputCount : nat;
  hasSubmitButton : bool
}.

Record LabelIssue := { li_element : string; li_issue : string; li_type : string }.

Record ViewportResult := {
  vr_viewport : string;
  vr_dimensions : option string;
  hasHorizontalScroll : option bool;
  hasOverlappingElements : option bool;
  vr_passed : bool;
  vr_error : option string
}.

Record UIProblem := {
  up_issue : string;
  up_element : string;
  up_fontSize : option string;
  up_src : option (option string);
  up_recommendation : string
}.

Record PerformanceEntries := {
  domContentLoaded : Z;
  loadComplete : Z;
  firstPaint : Z;
  firstContentfulPaint : Z
}.

(** The [details] payloads.  [loadTime] of the connectivity test is a
    clock difference and is omitted; the [errors] array of the JavaScript
    check stays attached to the page listener and is represented by its
    contents when the result is pushed. *)
Inductive Details :=
  | DNone
  | DConnectivity (status : option Z) (final_url : option string)
  | DNote (note : string)
  | DTitle (title : string)
  | DBrokenImages (brokenImageCount : nat)
  | DJsErrors (errorCount : nat) (errors : list string)
  | DNavigation (totalLinksFound linksTestedCount workingLinks brokenLinks : nat)
                (brokenLinkDetails : list BrokenLink)
  | DForms (formsFound : nat) (forms : list FormInfo)
  | DLabels (l : list LabelIssue)
  | DBrokenLinks (l : list BrokenLink)
  | DResponsive (viewportTests : list ViewportResult)
  | DFlow (r : FlowResult)
  | DUIProblem (p : UIProblem)
  | DUI (issuesFound : nat) (l : list UIProblem)
  | DPerformance (heap : Z) (e : PerformanceEntries) (issuesFound : nat).

Record TestResult := {
  testName : string;
  passed : Js.value;
  details : Details;
  error : option string;
  (** Present on flow results only. *)
  tr_steps : option (list StepResult)
}.

Record Issue := {
  severity : Severity;
  category : Category;
  issue : option string;
  recommendation : string;
  i_details : Details
}.

(** ** Outcomes

    A call either returns a value or throws; [message] is the [message] of
    the error thrown. *)

Inductive Outcome (A : Type) :=
  | Ok (a : A)
  | Throw (message : string).
Arguments Ok {A} a.
Arguments Throw {A} message.

(** ** The page as the in-browser closures see it

    Every [page.evaluate] closure of the source reads the live document.
    A [Dom] is the snapshot one such call observes; lengths such as
    [rect.width] and timings are taken as integers. *)

Record Img := {
  complete : bool;
  naturalHeight : Z;
  alt : option string;
  src : option string
}.

Record Anchor := { href : string; textContent : option string }.

Record FormEl := {
  form_action : option string;
  form_method : option string;
  form_controls : nat;
  (** whether [form.querySelector] finds a submit-capable control *)
  form_submit : bool
}.

Record Control := {
  (** [input.tagName.toLowerCase()] *)
  tag : string;
  id : option string;
  ariaLabel : option string;
  control_type : option string
}.

Record Element := {
  (** [el.tagName.toLowerCase()] *)
  el_tag : string;
  (** [parseInt(styles.fontSize)]; [None] is [NaN] *)
  fontSize : option Z;
  el_textContent : option string;
  rect_width : Z;
  rect_height : Z
}.

Record NavigationTiming := {
  domContentLoadedEventStart : Z;
  domContentLoadedEventEnd : Z;
  loadEventStart : Z;
  loadEventEnd : Z
}.

Record Dom := {
  origin : string;
  location_href : string;
  images : list Img;
  anchors : list Anchor;
  dom_forms : list FormEl;
  controls : list Control;
  (** [document.querySelector(selector) !== null] on the label selectors
      the form probe builds; the call throws a [SyntaxError] on a selector
      that does not parse *)
  querySelector : string -> Outcome bool;
  all_elements : list Element;
  scrollWidth : Z;
  innerWidth : Z;
  navigation_entry : option NavigationTiming;
  (** the paint entries: name and start time *)
  paint_entries : list (string * Z)
}.

Record Response := { status : Z; response_url : string }.

(** ** The browser driver *)

(** The Puppeteer calls the file makes.  [drv_waitForTimeout] returns the
    messages of the [pageerror] events dispatched while the wait was
    pending; [drv_query] is [page.$], returning an element handle or
    [null]. *)
Record Driver (W : Type) := {
  drv_launch : W -> Outcome unit * W;
  drv_newPage : W -> Outcome unit * W;
  drv_setViewport : Z * Z -> W -> Outcome unit * W;
  drv_goto : string -> option Z -> W -> Outcome (option Response) * W;
  drv_reload : W -> Outcome unit * W;
  drv_title : W -> Outcome string * W;
  drv_evaluate : W -> Outcome Dom * W;
  drv_waitForTimeout : Z -> W -> Outcome (list string) * W;
  drv_waitForSelector : option string -> Z -> W -> Outcome unit * W;
  drv_click : option string -> W -> Outcome unit * W;
  drv_type : option string -> option string -> W -> Outcome unit * W;
  drv_query : option string -> W -> Outcome (option nat) * W;
  drv_textContent : nat -> W -> Outcome (option string) * W;
  drv_metrics : W -> Outcome Z * W;
  drv_close : W -> Outcome unit * W
}.

Arguments drv_launch {W} _.
Arguments drv_newPage {W} _.
Arguments drv_setViewport {W} _.
Arguments drv_goto {W} _.
Arguments drv_reload {W} _.
Arguments drv_title {W} _.
Arguments drv_evaluate {W} _.
Arguments drv_waitForTimeout {W} _.
Arguments drv_waitForSelector {W} _.
Arguments drv_click {W} _.
Arguments drv_type {W} _.
Arguments drv_query {W} _.
Arguments drv_textContent {W} _.
Arguments drv_metrics {W} _.
Arguments drv_close {W} _.

Inductive Call :=
  | CLaunch | CNewPage | CSetViewport (v : Z * Z)
  | CGoto (u : string) (t : option Z) | CReload | CTitle | CEvaluate
  | CWaitForTimeout (ms : Z) | CWaitForSelector (sel : option string) (ms : Z)
  | CClick (sel : option string) | CType (sel v : option string)
  | CQuery (sel : option string) | CTextContent (h : nat)
  | CMetrics | CClose.

Definition is_close (c : Call) : bool :=
  match c with CClose => true | _ => false end.

Record NavLink := { nl_href : string; nl_text : string; internal : bool }.

Record Summary := {
  totalTests : nat;
  sm_passed : nat;
  failed : nat;
  sm_issues : nat;
  criticalIssues : nat;
  majorIssues : nat;
  minorIssues : nat
}.

(** The object handed to [JSON.stringify]: the report of the [try] block or
    the envelope of the [catch] block ([timestamp] omitted). *)
Inductive Reply :=
  | Report (summary : Summary) (results : list TestResult) (found : list Issue)
           (screenshots : list string) (recommendations : list string)
  | Failure (message : string) (summary : string) (completedTests issuesFound : nat).

(** ** generateQARecommendations and the summary *)

(** [cats[c] = (cats[c] || 0) + 1] on an object whose keys keep their
    insertion order. *)
Fixpoint bump (cats : list (Category * nat)) (c : Category) : list (Category * nat) :=
  match cats with
  | [] => [(c, 1)]
  | (k, n) :: rest =>
      if category_eqb k c then (k, S n) :: rest else (k, n) :: bump rest c
  end.

Definition categories (found : list Issue) : list (Category * nat) :=
  fold_left (fun cats i => bump cats (category i)) found [].

Definition critical_banner : string :=
  "🚨 CRITICAL: Address critical issues immediately - these prevent basic functionality".
Definition major_banner : string :=
  "⚠️ MAJOR: Fix major issues that significantly impact user experience".
Definition minor_banner : string :=
  "📝 MINOR: Consider addressing minor issues for better overall quality".
Definition all_clear : string :=
  "✅ Excellent! No major issues detected. Application appears to be well-built and functional.".

Definition focus_line (entry : Category * nat) : string :=
  "🔍 Focus on " ++ category_name (fst entry) ++ ": " ++ Js.of_nat (snd entry)
  ++ " issue(s) found".

Definition generateQARecommendations (found : list Issue) (summary : Summary)
  : list string :=
  ((if Nat.ltb 0 (criticalIssues summary) then [critical_banner] else [])
   ++ (if Nat.ltb 0 (majorIssues summary) then [major_banner] else [])
   ++ (if Nat.ltb 0 (minorIssues summary) then [minor_banner] else [])
   ++ map focus_line (categories found)
   ++ (if Nat.eqb (sm_issues summary) 0 then [all_clear] else []))%list.

Definition has_severity (v : Severity) (i : Issue) : bool := severity_eqb (severity i) v.

Definition summarize (results : list TestResult) (found : list Issue) : Summary :=
  {| totalTests := List.length results;
     sm_passed := List.length (filter (fun r => Js.truthy (passed r)) results);
     failed := List.length (filter (fun r => negb (Js.truthy (passed r))) results);
     sm_issues := List.length found;
     criticalIssues := List.length (filter (has_severity critical) found);
     majorIssues := List.length (filter (has_severity major) found);
     minorIssues := List.length (filter (has_severity minor) found) |}.

(** ** Program state and the monad *)

Section Program.

Context {W : Type} (drv : Driver W).

Record State := {
  world : W;
  calls : list Call;
  (** [let browser]: set once [puppeteer.launch] has returned *)
  browser : bool;
  qaResults : list TestResult;
  issues : list Issue;
  (** the [flowResult] object of the running [runUserFlow] *)
  flowResult : FlowResult
}.

Definition M (A : Type) : Type := State -> Outcome A * State.

Definition ret {A} (a : A) : M A := fun s => (Ok a, s).

Definition bind {A B} (m : M A) (k : A -> M B) : M B :=
  fun s =>
    match m s with
    | (Ok a, s') => k a s'
    | (Throw e, s') => (Throw e, s')
    end.

(** [try { m } catch (error) { h error.message }] *)
Definition try_catch {A} (m : M A) (h : string -> M A) : M A :=
  fun s =>
    match m s with
    | (Ok a, s') => (Ok a, s')
    | (Throw e, s') => h e s'
    end.

(** [try { m } finally { f }]: the outcome of [m] stands unless [f] throws. *)
Definition try_finally {A} (m : M A) (f : M unit) : M A :=
  fun s =>
    let (o, s') := m s in
    match f s' with
    | (Ok _, s'') => (o, s'')
    | (Throw e, s'') => (Throw e, s'')
    end.

Definition get : M State := fun s => (Ok s, s).

Definition call {A} (c : Call) (op : W -> Outcome A * W) : M A :=
  fun s =>
    let (o, w) := op (world s) in
    (o, {| world := w; calls := calls s ++ [c]; browser := browser s;
           qaResults := qaResults s; issues := issues s;
           flowResult := flowResult s |}).

Definition set_browser : M unit :=
  fun s =>
    (Ok tt, {| world := world s; calls := calls s; browser := true;
               qaResults := qaResults s; issues := issues s;
               flowResult := flowResult s |}).

(** [results.push(r)] *)
Definition push_result (r : TestResult) : M unit :=
  fun s =>
    (Ok tt, {| world := world s; calls := calls s; browser := browser s;
               qaResults := qaResults s ++ [r]; issues := issues s;
               flowResult := flowResult s |}).

(** [issues.push(...l)] *)
Definition push_issues (l : list Issue) : M unit :=
  fun s =>
    (Ok tt, {| world := world s; calls := calls s; browser := browser s;
               qaResults := qaResults s; issues := issues s ++ l;
               flowResult := flowResult s |}).

Definition push_issue (i : Issue) : M unit := push_issues [i].

Definition modify_flow (f : FlowResult -> FlowResult) : M unit :=
  fun s =>
    (Ok tt, {| world := world s; calls := calls s; browser := browser s;
               qaResults := qaResults s; issues := issues s;
               flowResult := f (flowResult s) |}).

Definition when (b : bool) (m : M unit) : M unit := if b then m else ret tt.

Notation "x <- m ;; k" := (bind m (fun x => k))
  (at level 61, m at next level, right associativity).
Notation "m ;; k" := (bind m (fun _ => k))
  (at level 61, right associativity).

(** [await page.evaluate(f)]: the driver hands the closure the document;
    the call rejects when the driver does or when the closure throws. *)
Definition evaluate {A} (f : Dom -> Outcome A) : M A :=
  d <- call CEvaluate (drv_evaluate drv) ;;
  fun s => (f d, s).

Definition page_goto (u : string) (t : option Z) : M (option Response) :=
  call (CGoto u t) (drv_goto drv u t).

(** [response?.status() === n] *)
Definition status_is (response : option Response) (n : Z) : bool :=
  match response with
  | Some r => Z.eqb (status r) n
  | None => false
  end.

Definition plain (n : string) (p : Js.value) (d : Details) (e : option string)
  : TestResult :=
  {| testName := n; passed := p; details := d; error := e; tr_steps := None |}.

(** *** testConnectivity *)

Definition testConnectivity (url : string) : M TestResult :=
  try_catch
    (response <- page_goto url (Some 10000%Z) ;;
     ret (plain "Connectivity Test"
            (Js.VBool (status_is response 200%Z))
            (DConnectivity (option_map status response)
                           (option_map response_url response))
            (if negb (status_is response 200%Z)
             then Some ("HTTP " ++ Js.of_optZ (option_map status response))
             else None)))
    (fun e => ret (plain "Connectivity Test" (Js.VBool false) DNone (Some e))).

(** *** runBasicTests *)

Definition title_blank (title : string) : bool :=
  (String.eqb title "" || Nat.eqb (String.length (Js.trim title)) 0)%bool.

(** [title && title.trim().length > 0] *)
Definition title_passed (title : string) : Js.value :=
  if String.eqb title "" then Js.VStr ""
  else Js.VBool (Nat.ltb 0 (String.length (Js.trim title))).

Definition brokenImages (d : Dom) : nat :=
  List.length
    (filter (fun img => (negb (complete img) || Z.eqb (naturalHeight img) 0%Z)%bool)
            (images d)).

Definition runBasicTests (url : string) : M unit :=
  try_catch
    (title <- call CTitle (drv_title drv) ;;
     push_result (plain "Page Title Check" (title_passed title) (DTitle title) None) ;;
     when (title_blank title)
       (push_issue
          {| severity := minor; category := SEO;
             issue := Some "Page title is missing or empty";
             recommendation :=
               "Add a descriptive page title for better SEO and user experience";
             i_details := DNone |}))
    (fun e => push_result (plain "Page Title Check" (Js.VBool false) DNone (Some e))) ;;
  try_catch
    (n <- evaluate (fun d => Ok (brokenImages d)) ;;
     push_result (plain "Broken Images Check" (Js.VBool (Nat.eqb n 0))
                        (DBrokenImages n) None) ;;
     when (Nat.ltb 0 n)
       (push_issue
          {| severity := major; category := Content;
             issue := Some (Js.of_nat n ++ " broken image(s) detected");
             recommendation :=
               "Fix broken image sources and ensure all images load correctly";
             i_details := DNone |}))
    (fun e => push_result (plain "Broken Images Check" (Js.VBool false) DNone (Some e))) ;;
  jsErrors <- call (CWaitForTimeout 2000%Z) (drv_waitForTimeout drv 2000%Z) ;;
  push_result (plain "JavaScript Errors Check"
                     (Js.VBool (Nat.eqb (List.length jsErrors) 0))
                     (DJsErrors (List.length jsErrors) jsErrors) None) ;;
  when (Nat.ltb 0 (List.length jsErrors))
    (push_issue
       {| severity := critical; category := JavaScript;
          issue := Some (Js.of_nat (List.length jsErrors)
                         ++ " JavaScript error(s) detected");
          recommendation :=
            "Fix JavaScript errors to ensure proper application functionality";
          i_details := DJsErrors (List.length jsErrors) jsErrors |}).

(** *** runNavigationTests *)

Definition navLinks (d : Dom) : list NavLink :=
  filter
    (fun link => (internal link
                  && negb (String.eqb (nl_href link) (location_href d)))%bool)
    (map (fun a =>
            {| nl_href := href a;
               nl_text := Js.or_empty (option_map Js.trim (textContent a));
               internal := Js.includes (href a) (origin d) |})
         (anchors d)).

(** The loop counters [workingLinks], [brokenLinks], [brokenLinkDetails]. *)
Record LinkTally := {
  working : nat;
  broken : nat;
  brokenDetails : list BrokenLink
}.

Definition testLink (t : LinkTally) (link : NavLink) : M LinkTally :=
  try_catch
    (response <- page_goto (nl_href link) (Some 5000%Z) ;;
     if status_is response 200%Z
     then ret {| working := S (working t); broken := broken t;
                 brokenDetails := brokenDetails t |}
     else ret {| working := working t; broken := S (broken t);
                 brokenDetails :=
                   brokenDetails t
                   ++ [{| bl_href := nl_href link;
                          bl_status := option_map status response;
                          bl_error := None |}] |})
    (fun e =>
       ret {| working := working t; broken := S (broken t);
              brokenDetails :=
                brokenDetails t
                ++ [{| bl_href := nl_href link; bl_status := None;
                       bl_error := Some e |}] |}).

Fixpoint testLinks (links : list NavLink) (t : LinkTally) : M LinkTally :=
  match links with
  | [] => ret t
  | link :: rest => t' <- testLink t link ;; testLinks rest t'
  end.

Definition runNavigationTests (url : string) : M unit :=
  try_catch
    (links <- evaluate (fun d => Ok (navLinks d)) ;;
     let linksToTest := firstn 10 links in
     t <- testLinks linksToTest
            {| working := 0; broken := 0; brokenDetails := [] |} ;;
     push_result (plain "Navigation Links Test" (Js.VBool (Nat.eqb (broken t) 0))
                        (DNavigation (List.length links) (List.length linksToTest)
                                     (working t) (broken t) (brokenDetails t))
                        None) ;;
     when (Nat.ltb 0 (broken t))
       (push_issue
          {| severity := major; category := Navigation;
             issue := Some (Js.of_nat (broken t) ++ " broken internal link(s) found");
             recommendation :=
               "Fix broken navigation links to improve user experience";
             i_details := DBrokenLinks (brokenDetails t) |}) ;;
     page_goto url None ;;
     ret tt)
    (fun e => push_result (plain "Navigation Links Test" (Js.VBool false) DNone (Some e))).

(** *** runFormTests *)

Definition indexed {A} (l : list A) : list (nat * A) :=
  combine (seq 0 (List.length l)) l.

Definition formInfos (d : Dom) : list FormInfo :=
  map (fun '(index, form) =>
         {| fi_index := index;
            fi_action := if Js.truthy_str (form_action form)
                         then Js.or_empty (form_action form) else "";
            fi_method := if Js.truthy_str (form_method form)
                         then Js.or_empty (form_method form) else "GET";
            inputCount := form_controls form;
            hasSubmitButton := form_submit form |})
      (indexed (dom_forms d)).

(** [`label[for="${id}"]`] *)
Definition label_selector (i : string) : string :=
  "label[for=" ++ String (ascii_of_nat 34) i ++ String (ascii_of_nat 34) "]".

(** [id ? document.querySelector(`label[for="${id}"]`) : null], as
    "a label was found"; the lookup throws when the selector built from
    the id does not parse. *)
Definition has_label (d : Dom) (c : Control) : Outcome bool :=
  match id c with
  | Some i => if String.eqb i "" then Ok false else querySelector d (label_selector i)
  | None => Ok false
  end.

(** The [forEach] over the controls; a throwing lookup ends the closure. *)
Fixpoint labelIssues (d : Dom) (inputs : list (nat * Control)) (found : list LabelIssue)
  : Outcome (list LabelIssue) :=
  match inputs with
  | [] => Ok found
  | (index, input) :: rest =>
      match has_label d input with
      | Throw e => Throw e
      | Ok label =>
          labelIssues d rest
            (if (negb label && negb (Js.truthy_str (ariaLabel input)))%bool
             then found
                  ++ [{| li_element :=
                           tag input ++ "[" ++ Js.of_nat index ++ "]";
                         li_issue := "Missing label";
                         li_type := if Js.truthy_str (control_type input)
                                    then Js.or_empty (control_type input)
                                    else tag input |}]
             else found)%list
      end
  end.

Definition accessibilityIssues (d : Dom) : Outcome (list LabelIssue) :=
  labelIssues d (indexed (controls d)) [].

Definition runFormTests (url : string) : M unit :=
  try_catch
    (forms <- evaluate (fun d => Ok (formInfos d)) ;;
     push_result (plain "Form Structure Check"
                        (Js.VBool (forallb hasSubmitButton forms))
                        (DForms (List.length forms) forms) None) ;;
     let formsWithoutSubmit := filter (fun form => negb (hasSubmitButton form)) forms in
     when (Nat.ltb 0 (List.length formsWithoutSubmit))
       (push_issue
          {| severity := major; category := Forms;
             issue := Some (Js.of_nat (List.length formsWithoutSubmit)
                            ++ " form(s) missing submit button");
             recommendation :=
               "Add submit buttons to all forms for proper user interaction";
             i_details := DForms (List.length formsWithoutSubmit) formsWithoutSubmit |}) ;;
     found <- evaluate accessibilityIssues ;;
     when (Nat.ltb 0 (List.length found))
       (push_issue
          {| severity := major; category := Accessibility;
             issue := Some (Js.of_nat (List.length found)
                            ++ " form input(s) missing labels");
             recommendation :=
               "Add labels to all form inputs for better accessibility";
             i_details := DLabels found |}))
    (fun e => push_result (plain "Form Structure Check" (Js.VBool false) DNone (Some e))).

(** *** runResponsiveTests *)

Definition viewports : list (string * (Z * Z)) :=
  [("Mobile", (375, 667)); ("Tablet", (768, 1024)); ("Desktop", (1280, 720))]%Z.

Definition horizontalScroll (d : Dom) : bool := Z.ltb (innerWidth d) (scrollWidth d).

Definition overlappingElements (d : Dom) : bool :=
  existsb (fun el => (Z.eqb (rect_width el) 0 || Z.eqb (rect_height el) 0)%bool)
          (all_elements d).

Definition testViewport (acc : list ViewportResult) (vp : string * (Z * Z))
  : M (list ViewportResult) :=
  let '(vname, (width, height)) := vp in
  try_catch
    (call (CSetViewport (width, height)) (drv_setViewport drv (width, height)) ;;
     call CReload (drv_reload drv) ;;
     hs <- evaluate (fun d => Ok (horizontalScroll d)) ;;
     ho <- evaluate (fun d => Ok (overlappingElements d)) ;;
     when hs
       (push_issue
          {| severity := major; category := ResponsiveDesign;
             issue := Some ("Horizontal scroll detected on " ++ vname ++ " ("
                            ++ Js.of_Z width ++ "px)");
             recommendation :=
               "Ensure content fits within viewport width on all device sizes";
             i_details := DNone |}) ;;
     ret (acc ++ [{| vr_viewport := vname;
                     vr_dimensions := Some (Js.of_Z width ++ "x" ++ Js.of_Z height)%string;
                     hasHorizontalScroll := Some hs;
                     hasOverlappingElements := Some ho;
                     vr_passed := (negb hs && negb ho)%bool;
                     vr_error := None |}])%list)
    (fun e =>
       ret (acc ++ [{| vr_viewport := vname; vr_dimensions := None;
                       hasHorizontalScroll := None;
                       hasOverlappingElements := None;
                       vr_passed := false; vr_error := Some e |}])%list).

Fixpoint testViewports (vps : list (string * (Z * Z))) (acc : list ViewportResult)
  : M (list ViewportResult) :=
  match vps with
  | [] => ret acc
  | vp :: rest => acc' <- testViewport acc vp ;; testViewports rest acc'
  end.

Definition runResponsiveTests (url : string) : M unit :=
  responsiveResults <- testViewports viewports [] ;;
  push_result (plain "Responsive Design Test"
                     (Js.VBool (forallb vr_passed responsiveResults))
                     (DResponsive responsiveResults) None).

(** *** runUserFlow *)

Definition initialStep (i : nat) (step : Step) : StepResult :=
  {| stepNumber := i + 1; sr_action := action step;
     sr_selector := selector step; sr_value := value step;
     sr_passed := false; sr_error := None;
     actualValue := None; expectedValue := None |}.

Definition step_passed (r : StepResult) : StepResult :=
  {| stepNumber := stepNumber r; sr_action := sr_action r;
     sr_selector := sr_selector r; sr_value := sr_value r;
     sr_passed := true; sr_error := sr_error r;
     actualValue := actualValue r; expectedValue := expectedValue r |}.

Definition step_threw (r : StepResult) (e : string) : StepResult :=
  {| stepNumber := stepNumber r; sr_action := sr_action r;
     sr_selector := sr_selector r; sr_value := sr_value r;
     sr_passed := false; sr_error := Some e;
     actualValue := actualValue r; expectedValue := expectedValue r |}.

(** [textContent?.includes(step.expected!) || false]; an absent
    [expected] is searched for as the text "undefined". *)
Definition verify_passed (text expect : option string) : bool :=
  match text with
  | Some t => Js.includes t (match expect with Some e => e | None => "undefined" end)
  | None => false
  end.

Definition step_verified (r : StepResult) (text expect : option string) : StepResult :=
  {| stepNumber := stepNumber r; sr_action := sr_action r;
     sr_selector := sr_selector r; sr_value := sr_value r;
     sr_passed := verify_passed text expect; sr_error := sr_error r;
     actualValue := Some text; expectedValue := expect |}.

(** The [switch] inside the inner [try]; [screenshot] has no case. *)
Definition performStep (step : Step) (r : StepResult) : M StepResult :=
  match action step with
  | goto =>
      page_goto (Js.or_empty (value step)) None ;;
      ret (step_passed r)
  | click =>
      call (CWaitForSelector (selector step) (timeout step))
           (drv_waitForSelector drv (selector step) (timeout step)) ;;
      call (CClick (selector step)) (drv_click drv (selector step)) ;;
      ret (step_passed r)
  | type =>
      call (CWaitForSelector (selector step) (timeout step))
           (drv_waitForSelector drv (selector step) (timeout step)) ;;
      call (CType (selector step) (value step))
           (drv_type drv (selector step) (value step)) ;;
      ret (step_passed r)
  | wait =>
      call (CWaitForTimeout (timeout step)) (drv_waitForTimeout drv (timeout step)) ;;
      ret (step_passed r)
  | verify =>
      element <- call (CQuery (selector step)) (drv_query drv (selector step)) ;;
      text <- match element with
              | Some h => call (CTextContent h) (drv_textContent drv h)
              | None => ret None
              end ;;
      ret (step_verified r text (expected step))
  | screenshot => ret r
  end.

Definition flow_failed (f : FlowResult) : FlowResult :=
  {| fr_testName := fr_testName f; fr_passed := false;
     fr_steps := fr_steps f; fr_error := fr_error f |}.

Definition flow_errored (e : string) (f : FlowResult) : FlowResult :=
  {| fr_testName := fr_testName f; fr_passed := false;
     fr_steps := fr_steps f; fr_error := Some e |}.

Definition flow_push (r : StepResult) (f : FlowResult) : FlowResult :=
  {| fr_testName := fr_testName f; fr_passed := fr_passed f;
     fr_steps := fr_steps f ++ [r]; fr_error := fr_error f |}.

Definition runStep (i : nat) (step : Step) : M unit :=
  r <- try_catch
         (performStep step (initialStep i step))
         (fun e =>
            modify_flow flow_failed ;;
            ret (step_threw (initialStep i step) e)) ;;
  modify_flow (flow_push r).

(** The [for] loop over [flow.steps], from index [i]. *)
Fixpoint runSteps (i : nat) (todo : list Step) : M unit :=
  match todo with
  | [] => ret tt
  | step :: rest => runStep i step ;; runSteps (S i) rest
  end.

Definition runUserFlow (flow : Flow) : M FlowResult :=
  modify_flow (fun _ =>
    {| fr_testName := "User Flow: " ++ name flow; fr_passed := true;
       fr_steps := []; fr_error := None |}) ;;
  try_catch (runSteps 0 (steps flow))
            (fun e => modify_flow (flow_errored e)) ;;
  s <- get ;;
  when (negb (fr_passed (flowResult s)))
    (push_issue
       {| severity := major; category := UserFlow;
          issue := Some ("User flow " ++ String (ascii_of_nat 34) (name flow)
                         ++ String (ascii_of_nat 34) " failed");
          recommendation := "Review and fix the failing user flow steps";
          i_details := DFlow (flowResult s) |}) ;;
  ret (flowResult s).

(** The flow result as it sits in [qaResults]. *)
Definition of_flow (f : FlowResult) : TestResult :=
  {| testName := fr_testName f; passed := Js.VBool (fr_passed f);
     details := DNone; error := fr_error f; tr_steps := Some (fr_steps f) |}.

(** *** assessUIQuality *)

Definition text_too_small (el : Element) : bool :=
  (match fontSize el with Some px => Z.ltb px 12 | None => false end
   && Js.truthy_str (el_textContent el)
   && Nat.ltb 0 (String.length (Js.trim (Js.or_empty (el_textContent el)))))%bool.

Definition smallText (d : Dom) : list UIProblem :=
  map (fun '(index, el) =>
         {| up_issue := "Text too small";
            up_element := el_tag el ++ "[" ++ Js.of_nat index ++ "]";
            up_fontSize := Some (Js.of_optZ (fontSize el) ++ "px");
            up_src := None;
            up_recommendation := "Ensure text is at least 12px for readability" |})
      (filter (fun '(_, el) => text_too_small el) (indexed (all_elements d))).

Definition missingAlt (d : Dom) : list UIProblem :=
  map (fun '(index, img) =>
         {| up_issue := "Missing alt text";
            up_element := "img[" ++ Js.of_nat index ++ "]";
            up_fontSize := None;
            up_src := Some (src img);
            up_recommendation := "Add descriptive alt text to all images" |})
      (filter (fun '(_, img) => negb (Js.truthy_str (alt img))) (indexed (images d))).

Definition uiProblems (d : Dom) : list UIProblem := (smallText d ++ missingAlt d)%list.

Definition ui_issue (p : UIProblem) : Issue :=
  {| severity := minor; category := UIUX; issue := Some (up_issue p);
     recommendation := up_recommendation p; i_details := DUIProblem p |}.

Definition assessUIQuality : M TestResult :=
  uiIssues <- evaluate (fun d => Ok (uiProblems d)) ;;
  when (Nat.ltb 0 (List.length uiIssues)) (push_issues (map ui_issue uiIssues)) ;;
  ret (plain "UI Quality Assessment" (Js.VBool (Nat.eqb (List.length uiIssues) 0))
             (DUI (List.length uiIssues) uiIssues) None).

(** *** assessPerformance *)

(** [find(entry => entry.name === n)?.startTime || 0] *)
Definition paint_start (n : string) (d : Dom) : Z :=
  match find (fun entry => String.eqb (fst entry) n) (paint_entries d) with
  | Some entry => snd entry
  | None => 0%Z
  end.

Definition performanceEntries (d : Dom) : Outcome PerformanceEntries :=
  match navigation_entry d with
  | Some nav =>
      Ok {| domContentLoaded :=
              (domContentLoadedEventEnd nav - domContentLoadedEventStart nav)%Z;
            loadComplete := (loadEventEnd nav - loadEventStart nav)%Z;
            firstPaint := paint_start "first-paint" d;
            firstContentfulPaint := paint_start "first-contentful-paint" d |}
  | None =>
      Throw "Cannot read properties of undefined (reading 'domContentLoadedEventEnd')"
  end.

(** [Math.round(bytes / 1024 / 1024)] on a non-negative integer. *)
Definition megabytes (bytes : Z) : Z := ((bytes + 524288) / 1048576)%Z.

Definition performanceIssues (heap : Z) (e : PerformanceEntries) : list Issue :=
  ((if Z.ltb 3000 (loadComplete e)
    then [{| severity := major; category := Performance;
             issue := Some ("Slow page load time: " ++ Js.of_Z (loadComplete e)
                            ++ "ms")%string;
             recommendation :=
               "Optimize images, minify CSS/JS, and reduce server response time";
             i_details := DNone |}]
    else [])
   ++
   (if Z.ltb (50 * 1024 * 1024) heap
    then [{| severity := minor; category := Performance;
             issue := Some ("High memory usage: " ++ Js.of_Z (megabytes heap)
                            ++ "MB")%string;
             recommendation :=
               "Review JavaScript memory usage and look for memory leaks";
             i_details := DNone |}]
    else []))%list.

Definition assessPerformance : M TestResult :=
  heap <- call CMetrics (drv_metrics drv) ;;
  entries <- evaluate performanceEntries ;;
  let found := performanceIssues heap entries in
  push_issues found ;;
  ret (plain "Performance Assessment" (Js.VBool (Nat.eqb (List.length found) 0))
             (DPerformance heap entries (List.length found)) None).

(** *** functionalQATool *)

(** The [switch (testSuite)]. *)
Definition runSelectedSuite (suite : TestSuite) (url : string) : M unit :=
  match suite with
  | basic => runBasicTests url
  | auth =>
      push_result
        (plain "Authentication Tests" (Js.VBool true)
               (DNote "Auth tests not implemented - would test login/logout flows")
               None)
  | forms => runFormTests url
  | navigation => runNavigationTests url
  | responsive => runResponsiveTests url
  | comprehensive =>
      runBasicTests url ;;
      runNavigationTests url ;;
      runFormTests url ;;
      runResponsiveTests url
  end.

Fixpoint runUserFlows (flows : list Flow) : M unit :=
  match flows with
  | [] => ret tt
  | flow :: rest =>
      flowResult <- runUserFlow flow ;;
      push_result (of_flow flowResult) ;;
      runUserFlows rest
  end.

(** The issue pushed when the connectivity test failed. *)
Definition connectivity_issue (r : TestResult) : Issue :=
  {| severity := critical; category := Connectivity; issue := error r;
     recommendation := "Ensure the development server is running and accessible";
     i_details := DNone |}.

(** The [try] block. *)
Definition attempt (args : Args) : M Reply :=
  call CLaunch (drv_launch drv) ;;
  set_browser ;;
  call CNewPage (drv_newPage drv) ;;
  call (CSetViewport (viewport args)) (drv_setViewport drv (viewport args)) ;;
  connectivityResult <- testConnectivity (url args) ;;
  push_result connectivityResult ;;
  when (negb (Js.truthy (passed connectivityResult)))
    (push_issue (connectivity_issue connectivityResult)) ;;
  runSelectedSuite (testSuite args) (url args) ;;
  runUserFlows (userFlows args) ;;
  uiAssessment <- assessUIQuality ;;
  push_result uiAssessment ;;
  performanceAssessment <- assessPerformance ;;
  push_result performanceAssessment ;;
  s <- get ;;
  let summary := summarize (qaResults s) (issues s) in
  ret (Report summary (qaResults s) (issues s) []
              (generateQARecommendations (issues s) summary)).

(** The [catch] block. *)
Definition rescue (args : Args) (errorMessage : string) : M Reply :=
  s <- get ;;
  ret (Failure errorMessage
               ("Functional QA FAILED: " ++ url args ++ " - " ++ errorMessage)
               (List.length (qaResults s)) (List.length (issues s))).

(** The [finally] block. *)
Definition cleanup : M unit :=
  s <- get ;;
  when (browser s) (call CClose (drv_close drv)).

Definition start (w : W) : State :=
  {| world := w; calls := []; browser := false; qaResults := []; issues := [];
     flowResult := {| fr_testName := ""; fr_passed := true; fr_steps := [];
                      fr_error := None |} |}.

(** The function from line 27 on, for validated arguments. *)
Definition functionalQATool (args : Args) (w : W) : Outcome Reply * State :=
  try_finally (try_catch (attempt args) (rescue args)) cleanup (start w).

(** How a call of the exported function ends. *)
Inductive Invocation :=
  (** [parse] threw a [ZodError]: nothing else was done *)
  | Invalid
  (** the arguments were valid and the function ran *)
  | Ran (o : Outcome Reply) (s : State).

(** The exported function on whatever the server hands it (lines 25-27):
    the arguments are validated first, outside the [try] block, so a
    [ZodError] leaves the function before the browser is touched. *)
Definition functionalQATool_any (args : option Json) (w : W) : Invocation :=
  match FunctionalQAArgsSchema_parse args with
  | None => Invalid
  | Some validatedArgs =>
      Ran (fst (functionalQATool validatedArgs w)) (snd (functionalQATool validatedArgs w))
  end.

End Program.

Arguments State W : clear implicits.
Arguments M W A : clear implicits.
Arguments Invocation W : clear implicits.
Arguments Invalid {W}.
Arguments Ran {W} o s.

(** ** A simulated browser over a static site

    A concrete [Driver] used to run the tool on explicit inputs: a site maps
    URLs to pages; navigating to a URL of the site loads it and answers with
    the page's status, navigating anywhere else throws and leaves the
    location where it was. *)

Module Sim.

Record Page := {
  page_status : Z;
  page_title : string;
  page_dom : Dom;
  (** selectors that resolve on the page, with the text of the element *)
  page_texts : list (string * string);
  (** uncaught errors the page raises while idle *)
  page_errors : list string
}.

Record World := {
  site : list (string * Page);
  location : string;
  heapUsed : Z;
  closed : nat
}.

Fixpoint count_byte (n : nat) (s : string) : nat :=
  match s with
  | EmptyString => 0
  | String c s' => (if Nat.eqb n (nat_of_ascii c) then 1 else 0) + count_byte n s'
  end.

(** The selector engine of the simulated browser, for label selectors: a
    selector parses when it holds exactly the two double quotes around the
    value and neither a backslash nor a line break; a parsed selector finds
    a label when its value is one of the [for] attributes [fors]. *)
Definition parses (sel : string) : bool :=
  (Nat.eqb (count_byte 34 sel) 2 && Nat.eqb (count_byte 92 sel) 0
   && Nat.eqb (count_byte 10 sel) 0 && Nat.eqb (count_byte 13 sel) 0
   && Nat.eqb (count_byte 12 sel) 0)%bool.

Definition find_label (fors : list string) (sel : string) : Outcome bool :=
  if parses sel
  then Ok (existsb (fun f => String.eqb sel (label_selector f)) fors)
  else Throw ("Failed to execute 'querySelector' on 'Document': '" ++ sel
              ++ "' is not a valid selector.").

Definition blank : Dom :=
  {| origin := "null"; location_href := "about:blank"; images := [];
     anchors := []; dom_forms := []; controls := []; querySelector := find_label [];
     all_elements := []; scrollWidth := 0; innerWidth := 0;
     navigation_entry :=
       Some {| domContentLoadedEventStart := 0; domContentLoadedEventEnd := 0;
               loadEventStart := 0; loadEventEnd := 0 |};
     paint_entries := [] |}.

Fixpoint lookup {A} (k : string) (l : list (string * A)) : option A :=
  match l with
  | [] => None
  | (k', a) :: rest => if String.eqb k k' then Some a else lookup k rest
  end.

Fixpoint position {A} (k : string) (l : list (string * A)) : option nat :=
  match l with
  | [] => None
  | (k', _) :: rest =>
      if String.eqb k k' then Some 0 else option_map S (position k rest)
  end.

Definition current (w : World) : option Page := lookup (location w) (site w).

Definition move (u : string) (w : World) : World :=
  {| site := site w; location := u; heapUsed := heapUsed w; closed := closed w |}.

Definition goto (u : string) (t : option Z) (w : World)
  : Outcome (option Response) * World :=
  match lookup u (site w) with
  | Some p => (Ok (Some {| status := page_status p; response_url := u |}), move u w)
  | None => (Throw ("net::ERR_CONNECTION_REFUSED at " ++ u), w)
  end.

Definition texts (w : World) : list (string * string) :=
  match current w with Some p => page_texts p | None => [] end.

Definition locate (sel : option string) (w : World) : Outcome unit * World :=
  match sel with
  | Some s =>
      match position s (texts w) with
      | Some _ => (Ok tt, w)
      | None => (Throw ("No element found for selector: " ++ s), w)
      end
  | None => (Throw "selector is undefined", w)
  end.

Definition query (sel : option string) (w : World) : Outcome (option nat) * World :=
  match sel with
  | Some s => (Ok (position s (texts w)), w)
  | None => (Throw "selector is undefined", w)
  end.

Definition close (w : World) : Outcome unit * World :=
  (Ok tt, {| site := site w; location := location w; heapUsed := heapUsed w;
             closed := S (closed w) |}).

Definition driver : Driver World :=
  {| drv_launch := fun w => (Ok tt, w);
     drv_newPage := fun w => (Ok tt, w);
     drv_setViewport := fun _ w => (Ok tt, w);
     drv_goto := goto;
     drv_reload := fun w => (Ok tt, w);
     drv_title := fun w =>
       (Ok (match current w with Some p => page_title p | None => "" end), w);
     drv_evaluate := fun w =>
       (Ok (match current w with Some p => page_dom p | None => blank end), w);
     drv_waitForTimeout := fun _ w =>
       (Ok (match current w with Some p => page_errors p | None => [] end), w);
     drv_waitForSelector := fun sel _ w => locate sel w;
     drv_click := fun sel w => locate sel w;
     drv_type := fun sel _ w => locate sel w;
     drv_query := query;
     drv_textContent := fun h w => (Ok (option_map snd (nth_error (texts w) h)), w);
     drv_metrics := fun w => (Ok (heapUsed w), w);
     drv_close := close |}.

(** A browser that shows one fixed document whatever it is asked. *)
Definition still (d : Dom) : Driver unit :=
  {| drv_launch := fun w => (Ok tt, w);
     drv_newPage := fun w => (Ok tt, w);
     drv_setViewport := fun _ w => (Ok tt, w);
     drv_goto := fun u _ w => (Ok (Some {| status := 200; response_url := u |}), w);
     drv_reload := fun w => (Ok tt, w);
     drv_title := fun w => (Ok "Still", w);
     drv_evaluate := fun w => (Ok d, w);
     drv_waitForTimeout := fun _ w => (Ok [], w);
     drv_waitForSelector := fun _ _ w => (Ok tt, w);
     drv_click := fun _ w => (Ok tt, w);
     drv_type := fun _ _ w => (Ok tt, w);
     drv_query := fun _ w => (Ok None, w);
     drv_textContent := fun _ w => (Ok None, w);
     drv_metrics := fun w => (Ok 1048576%Z, w);
     drv_close := fun w => (Ok tt, w) |}.

(** A browser showing one fixed document in which [puppeteer.launch] and
    [browser.close] throw the given messages, if any. *)
Definition faulty (launch close : option string) (d : Dom) : Driver unit :=
  {| drv_launch := fun w =>
       (match launch with Some e => Throw e | None => Ok tt end, w);
     drv_newPage := fun w => (Ok tt, w);
     drv_setViewport := fun _ w => (Ok tt, w);
     drv_goto := fun u _ w => (Ok (Some {| status := 200; response_url := u |}), w);
     drv_reload := fun w => (Ok tt, w);
     drv_title := fun w => (Ok "Faulty", w);
     drv_evaluate := fun w => (Ok d, w);
     drv_waitForTimeout := fun _ w => (Ok [], w);
     drv_waitForSelector := fun _ _ w => (Ok tt, w);
     drv_click := fun _ w => (Ok tt, w);
     drv_type := fun _ _ w => (Ok tt, w);
     drv_query := fun _ w => (Ok None, w);
     drv_textContent := fun _ w => (Ok None, w);
     drv_metrics := fun w => (Ok 1048576%Z, w);
     drv_close := fun w =>
       (match close with Some e => Throw e | None => Ok tt end, w) |}.

(** The same browser on a site that stops answering: it serves [n] more
    navigations, and every navigation after them is refused. *)
Definition on_page {A} (op : World -> Outcome A * World)
  : World * nat -> Outcome A * (World * nat) :=
  fun '(w, n) => let (o, w') := op w in (o, (w', n)).

Definition goto_while_up (u : string) (t : option Z)
  : World * nat -> Outcome (option Response) * (World * nat) :=
  fun '(w, n) =>
    match n with
    | 0 => (Throw ("net::ERR_CONNECTION_REFUSED at " ++ u), (w, 0))
    | S n' => let (o, w') := goto u t w in (o, (w', n'))
    end.

Definition failing : Driver (World * nat) :=
  {| drv_launch := on_page (drv_launch driver);
     drv_newPage := on_page (drv_newPage driver);
     drv_setViewport := fun v => on_page (drv_setViewport driver v);
     drv_goto := goto_while_up;
     drv_reload := on_page (drv_reload driver);
     drv_title := on_page (drv_title driver);
     drv_evaluate := on_page (drv_evaluate driver);
     drv_waitForTimeout := fun ms => on_page (drv_waitForTimeout driver ms);
     drv_waitForSelector := fun sel ms => on_page (drv_waitForSelector driver sel ms);
     drv_click := fun sel => on_page (drv_click driver sel);
     drv_type := fun sel v => on_page (drv_type driver sel v);
     drv_query := fun sel => on_page (drv_query driver sel);
     drv_textContent := fun h => on_page (drv_textContent driver h);
     drv_metrics := on_page (drv_metrics driver);
     drv_close := on_page (drv_close driver) |}.

Definition open (pages : list (string * Page)) : World :=
  {| site := pages; location := "about:blank"; heapUsed := 1048576; closed := 0 |}.

(** A page with the given status and document and nothing else on it. *)
Definition page (st : Z) (t : string) (d : Dom) : Page :=
  {| page_status := st; page_title := t; page_dom := d; page_texts := [];
     page_errors := [] |}.

(** The document of a page at [u] under [o] with the given anchors,
    images and form controls. *)
Definition document (o u : string) (links : list Anchor) (imgs : list Img)
           (inputs : list Control) : Dom :=
  {| origin := o; location_href := u; images := imgs; anchors := links;
     dom_forms := []; controls := inputs; querySelector := find_label [];
     all_elements := []; scrollWidth := 1280; innerWidth := 1280;
     navigation_entry :=
       Some {| domContentLoadedEventStart := 10; domContentLoadedEventEnd := 12;
               loadEventStart := 20; loadEventEnd := 25 |};
     paint_entries := [("first-paint", 30%Z)] |}.

End Sim.

(** ** Inputs on which the tool is run below *)

Module Demo.

Definition home : string := "http://localhost:3000/".
Definition site_origin : string := "http://localhost:3000".

Definition plain_home : list (string * Sim.Page) :=
  [(home, Sim.page 200 "Home" (Sim.document site_origin home [] [] []))].

Definition step (a : Action) (sel v e : option string) : Step :=
  {| action := a; selector := sel; value := v; expected := e; timeout := 5000 |}.

Definition args (suite : TestSuite) (flows : list Flow) : Args :=
  {| url := home; testSuite := suite; userFlows := flows; viewport := (1280, 720)%Z |}.

Definition run (suite : TestSuite) (flows : list Flow) (pages : list (string * Sim.Page))
  : Outcome Reply * State Sim.World :=
  functionalQATool Sim.driver (args suite flows) (Sim.open pages).

(** Nothing listens at the target. *)
Definition down : list (string * Sim.Page) := [].

(** The target answers 203 (a 2xx status other than 200). *)
Definition non_authoritative : list (string * Sim.Page) :=
  [(home, Sim.page 203 "Home" (Sim.document site_origin home [] [] []))].

Definition link (u : string) : Anchor := {| href := u; textContent := Some u |}.

Definition about : string := "http://localhost:3000/about".
Definition team : string := "http://localhost:3000/team".
Definition jobs : string := "http://localhost:3000/jobs".

(** Three internal links: two pages answer 200, one answers 404. *)
Definition linked : list (string * Sim.Page) :=
  [(home, Sim.page 200 "Home"
            (Sim.document site_origin home [link about; link team; link jobs] [] []));
   (about, Sim.page 200 "About" (Sim.document site_origin about [] [] []));
   (team, Sim.page 404 "Not found" (Sim.document site_origin team [] [] []));
   (jobs, Sim.page 200 "Jobs" (Sim.document site_origin jobs [] [] []))].

Definition picture (a : option string) (file : string) : Img :=
  {| complete := true; naturalHeight := 100; alt := a; src := Some file |}.

Definition text_input : Control :=
  {| tag := "input"; id := None; ariaLabel := None; control_type := Some "text" |}.

(** Two images without [alt], one with; one input with neither a label
    nor an [aria-label]. *)
Definition gallery_document : Dom :=
  Sim.document site_origin home []
    [picture None "a.png"; picture (Some "logo") "logo.png"; picture None "b.png"]
    [text_input].

Definition gallery : list (string * Sim.Page) :=
  [(home, Sim.page 200 "Gallery" gallery_document)].

(** The world once the gallery page has been loaded. *)
Definition at_gallery : Sim.World := Sim.move home (Sim.open gallery).

(** A page without a navigation timing entry: the performance assessment
    throws on it. *)
Definition untimed_document : Dom :=
  {| origin := site_origin; location_href := home; images := []; anchors := [];
     dom_forms := []; controls := []; querySelector := Sim.find_label [];
     all_elements := [];
     scrollWidth := 1280; innerWidth := 1280; navigation_entry := None;
     paint_entries := [] |}.

Definition untimed : list (string * Sim.Page) :=
  [(home, Sim.page 200 "Home" untimed_document)].

(** A flow that checks a heading the page does not have. *)
Definition check_heading : Flow :=
  {| name := "check heading";
     steps := [step verify (Some "h1") None (Some "Welcome")] |}.

(** A flow whose first step navigates to a URL that does not answer. *)
Definition visit_missing : Flow :=
  {| name := "visit missing";
     steps := [step goto None (Some "http://localhost:3000/missing") None;
               step wait None None None;
               step verify (Some "h1") None (Some "Welcome")] |}.

Definition wait_once : Flow :=
  {| name := "wait"; steps := [step wait None None None] |}.

(** The state once the target has been loaded by the connectivity check. *)
Definition loaded (pages : list (string * Sim.Page)) : State Sim.World :=
  snd (testConnectivity Sim.driver home (start (Sim.open pages))).

(** The connectivity result when the connection is refused. *)
Definition refused : TestResult :=
  plain "Connectivity Test" (Js.VBool false) DNone
        (Some "net::ERR_CONNECTION_REFUSED at http://localhost:3000/").

(** The fields of a reply, for replies that are reports. *)
Definition summary_of (o : Outcome Reply) : Summary :=
  match o with Ok (Report sm _ _ _ _) => sm | _ => summarize [] [] end.

Definition results_of (o : Outcome Reply) : list TestResult :=
  match o with Ok (Report _ rs _ _ _) => rs | _ => [] end.

Definition issues_of (o : Outcome Reply) : list Issue :=
  match o with Ok (Report _ _ fs _ _) => fs | _ => [] end.

Definition recommendations_of (o : Outcome Reply) : list string :=
  match o with Ok (Report _ _ _ _ recs) => recs | _ => [] end.

Definition is_report (o : Outcome Reply) : Prop :=
  o = Ok (Report (summary_of o) (results_of o) (issues_of o) [] (recommendations_of o)).

(** The document of the home page of [linked]. *)
Definition linked_document : Dom :=
  Sim.document site_origin home [link about; link team; link jobs] [] [].

(** Arguments that hold nothing but the target. *)
Definition just_url : Json := JObject [("url", JString home)].

(** The target of [linked] is shown and the site will serve three more
    navigations. *)
Definition going_down : State (Sim.World * nat) :=
  start (Sim.move home (Sim.open linked), 3).

(** The message of the [TypeError] raised on a page without a navigation
    timing entry, and the summary text of the envelope that reports it. *)
Definition timing_error : string :=
  "Cannot read properties of undefined (reading 'domContentLoadedEventEnd')".

Definition timing_failure : string :=
  "Functional QA FAILED: " ++ url (args comprehensive []) ++ " - " ++ timing_error.

(** A page whose load event took exactly 3000 ms. *)
Definition on_the_limit : NavigationTiming :=
  {| domContentLoadedEventStart := 100; domContentLoadedEventEnd := 180;
     loadEventStart := 200; loadEventEnd := 3200 |}.

Definition limit_document : Dom :=
  {| origin := site_origin; location_href := home; images := []; anchors := [];
     dom_forms := []; controls := []; querySelector := Sim.find_label [];
     all_elements := [];
     scrollWidth := 1280; innerWidth := 1280; navigation_entry := Some on_the_limit;
     paint_entries := [] |}.

(** Two forms, the second without a submit control, and one unlabeled
    input. *)
Definition survey_document : Dom :=
  {| origin := site_origin; location_href := home; images := []; anchors := [];
     dom_forms := [{| form_action := Some "/search"; form_method := None;
                      form_controls := 1; form_submit := true |};
                   {| form_action := None; form_method := Some "post";
                      form_controls := 2; form_submit := false |}];
     controls := [text_input]; querySelector := Sim.find_label [];
     all_elements := [];
     scrollWidth := 1280; innerWidth := 1280; navigation_entry := Some on_the_limit;
     paint_entries := [] |}.

(** An unlabeled input whose [id] holds a double quote. *)
Definition quoted_input : Control :=
  {| tag := "input"; id := Some ("a" ++ String (ascii_of_nat 34) "b");
     ariaLabel := None; control_type := Some "text" |}.

Definition quoted_document : Dom := Sim.document site_origin home [] [] [quoted_input].

(** A page with a blank title, an image that did not load and an uncaught
    error. *)
Definition shaky_document : Dom :=
  Sim.document site_origin home []
    [{| complete := false; naturalHeight := 0; alt := Some "chart";
        src := Some "chart.png" |}] [].

Definition shaky : list (string * Sim.Page) :=
  [(home, {| Sim.page_status := 200; Sim.page_title := "   ";
             Sim.page_dom := shaky_document; Sim.page_texts := [];
             Sim.page_errors := ["ReferenceError: app is not defined"] |})].

End Demo.

(** * Vocabulary of the properties *)

(** ** Issue lists, call logs and test names *)

Definition in_category (c : Category) (i : Issue) : bool := category_eqb (category i) c.

(** The tally of one category in the object built by [reduce]. *)
Fixpoint tally (c : Category) (cats : list (Category * nat)) : nat :=
  match cats with
  | [] => 0
  | (k, n) :: rest => if category_eqb k c then n else tally c rest
  end.

Definition no_close (cs : list Call) : bool :=
  forallb (fun c => negb (is_close c)) cs.

(** What every issue pushed after the connectivity check looks like: it
    is not a connectivity issue, and if its category is Accessibility its
    severity is major. *)
Definition well_classified (i : Issue) : bool :=
  (negb (in_category Connectivity i)
   && (negb (in_category Accessibility i) || severity_eqb (severity i) major))%bool.

Definition probe_issues (l : list Issue) : bool := forallb well_classified l.

Definition names (rs : list TestResult) : list string := map testName rs.

Definition basic_names : list string :=
  ["Page Title Check"; "Broken Images Check"; "JavaScript Errors Check"].

Definition one_or_two (n : string) (l : list string) : Prop := l = [n] \/ l = [n; n].

Definition assessment_names : list string :=
  ["UI Quality Assessment"; "Performance Assessment"].

Definition flow_title (f : Flow) : string := "User Flow: " ++ name f.

(** The test names a suite pushes when it returns.  The navigation and
    form probes push a second, failed result when they throw after their
    first push. *)
Definition suite_names (suite : TestSuite) (ns : list string) : Prop :=
  match suite with
  | basic => ns = basic_names
  | auth => ns = ["Authentication Tests"]
  | forms => one_or_two "Form Structure Check" ns
  | navigation => one_or_two "Navigation Links Test" ns
  | responsive => ns = ["Responsive Design Test"]
  | comprehensive =>
      exists nav frm,
        one_or_two "Navigation Links Test" nav
        /\ one_or_two "Form Structure Check" frm
        /\ ns = (basic_names ++ nav ++ frm ++ ["Responsive Design Test"])%list
  end.

Definition no_error (r : StepResult) : bool :=
  match sr_error r with None => true | Some _ => false end.

(** The browser calls that running a step makes: its first call whatever
    happened before, and its second call when there is one and the first
    returned. *)
Definition step_calls (step : Step) (cs : list Call) : Prop :=
  match action step with
  | goto => cs = [CGoto (Js.or_empty (value step)) None]
  | click =>
      cs = [CWaitForSelector (selector step) (timeout step)]
      \/ cs = [CWaitForSelector (selector step) (timeout step);
               CClick (selector step)]
  | type =>
      cs = [CWaitForSelector (selector step) (timeout step)]
      \/ cs = [CWaitForSelector (selector step) (timeout step);
               CType (selector step) (value step)]
  | wait => cs = [CWaitForTimeout (timeout step)]
  | verify =>
      cs = [CQuery (selector step)]
      \/ exists h, cs = [CQuery (selector step); CTextContent h]
  | screenshot => cs = []
  end.

(** The navigation answered with status 200. *)
Definition navigated (o : Outcome (option Response)) : bool :=
  match o with
  | Ok response => status_is response 200
  | Throw _ => false
  end.

(** What the code treats as a missing alternative text: the attribute is
    absent or empty. *)
Definition lacks_alt (img : Img) : bool := negb (Js.truthy_str (alt img)).

(** The label lookup of every control of the page returns: no [id] makes
    a selector that does not parse. *)
Definition labels_resolve (d : Dom) : Prop :=
  Forall (fun c => exists label, has_label d c = Ok label) (controls d).

(** A control with neither a label element nor an [aria-label]. *)
Definition unlabeled (d : Dom) (c : Control) : bool :=
  match has_label d c with
  | Ok label => (negb label && negb (Js.truthy_str (ariaLabel c)))%bool
  | Throw _ => false
  end.

(** The page of the accessibility scenario: two images without an
    alternative text and one unlabeled control. *)
Definition two_alts_one_label (d : Dom) : Prop :=
  List.length (filter lacks_alt (images d)) = 2
  /\ labels_resolve d
  /\ List.length (filter (unlabeled d) (controls d)) = 1.

(** The browser shows a page of kind [P]: every evaluation succeeds and
    reads such a document. *)
Definition shows {W : Type} (drv : Driver W) (P : Dom -> Prop) : Prop :=
  forall w, exists d w', drv_evaluate drv w = (Ok d, w') /\ P d.

(** The browser has settled on a page of kind [P]: in the worlds of [I]
    an evaluation succeeds and reads such a document, and whatever else the
    probes, the flows and the assessments may do to the page leads to a
    world of [I] again. *)
Definition settled {W : Type} (drv : Driver W) (I : W -> Prop) (P : Dom -> Prop) : Prop :=
  (forall w, I w -> exists d w', drv_evaluate drv w = (Ok d, w') /\ P d /\ I w')
  /\ (forall v w, I w -> I (snd (drv_setViewport drv v w)))
  /\ (forall u t w, I w -> I (snd (drv_goto drv u t w)))
  /\ (forall w, I w -> I (snd (drv_reload drv w)))
  /\ (forall w, I w -> I (snd (drv_title drv w)))
  /\ (forall ms w, I w -> I (snd (drv_waitForTimeout drv ms w)))
  /\ (forall sel ms w, I w -> I (snd (drv_waitForSelector drv sel ms w)))
  /\ (forall sel w, I w -> I (snd (drv_click drv sel w)))
  /\ (forall sel v w, I w -> I (snd (drv_type drv sel v w)))
  /\ (forall sel w, I w -> I (snd (drv_query drv sel w)))
  /\ (forall h w, I w -> I (snd (drv_textContent drv h w)))
  /\ (forall w, I w -> I (snd (drv_metrics drv w))).

Definition missing_label_issue (i : Issue) : Prop :=
  severity i = major /\ category i = Accessibility
  /\ issue i = Some "1 form input(s) missing labels".

Definition missing_alt_issue (i : Issue) : Prop :=
  severity i = minor /\ category i = UIUX /\ issue i = Some "Missing alt text".

(** ** Statements of the specification that the code does not meet *)

(** C1 as stated: after a failed connectivity test there is exactly one
    critical connectivity issue and no result besides the connectivity
    test. *)
Definition connectivity_first_as_claimed (rs : list TestResult) (fs : list Issue) : Prop :=
  forall r,
    hd_error rs = Some r -> Js.truthy (passed r) = false ->
    List.length (filter (fun i => (has_severity critical i
                                   && in_category Connectivity i)%bool) fs) = 1
    /\ rs = [r].

(** C3 as stated: after a failing [goto] step no further step of the flow
    produces a step result. *)
Definition failing_goto_aborts_as_claimed (r : FlowResult) : Prop :=
  forall k st,
    nth_error (fr_steps r) k = Some st ->
    sr_action st = goto -> sr_passed st = false ->
    List.length (fr_steps r) = S k.

(** C4 as stated: the custom flows come last, after the two assessments. *)
Definition flows_last_as_claimed (flows : list Flow) (ns : list string) : Prop :=
  exists nav frm,
    one_or_two "Navigation Links Test" nav
    /\ one_or_two "Form Structure Check" frm
    /\ ns = (["Connectivity Test"] ++ basic_names ++ nav ++ frm
             ++ ["Responsive Design Test"]
             ++ ["UI Quality Assessment"; "Performance Assessment"]
             ++ map flow_title flows)%list.

(** C7 as stated: after the probe the page is at the target again and
    exactly one Navigation issue, reporting one broken link, is produced. *)
Definition location_restored_as_claimed (target final : string) (fs : list Issue)
  : Prop :=
  final = target
  /\ exists i,
      filter (in_category Navigation) fs = [i]
      /\ issue i = Some "1 broken internal link(s) found".

(** C8 as stated: a minor Accessibility finding for each of the two
    images and a major Accessibility finding for the input. *)
Definition accessibility_classes_as_claimed (fs : list Issue) : Prop :=
  2 <= List.length (filter (fun i => (has_severity minor i
                                      && in_category Accessibility i)%bool) fs)
  /\ 1 <= List.length (filter (fun i => (has_severity major i
                                         && in_category Accessibility i)%bool) fs).

(** C9 as stated: any 2xx or 3xx initial status passes the connectivity
    test and records no connectivity issue. *)
Definition connectivity_as_claimed (st : Z) (r : TestResult) (fs : list Issue) : Prop :=
  (200 <= st < 400)%Z ->
  passed r = Js.VBool true /\ filter (in_category Connectivity) fs = [].

(** ** Vocabulary of the further properties *)

(** The navigation the link loop makes for one link. *)
Definition link_call (l : NavLink) : Call := CGoto (nl_href l) (Some 5000%Z).

(** The issue of the navigation probe for [n] broken links. *)
Definition broken_links_issue (n : nat) (details : list BrokenLink) : Issue :=
  {| severity := major; category := Navigation;
     issue := Some (Js.of_nat n ++ " broken internal link(s) found");
     recommendation := "Fix broken navigation links to improve user experience";
     i_details := DBrokenLinks details |}.

(** The result a probe pushes from its [catch] block. *)
Definition errored (n e : string) : TestResult := plain n (Js.VBool false) DNone (Some e).

(** The severity each category of issue is pushed with: the category
    decides it, except for performance issues, which are major (load time)
    or minor (memory). *)
Definition graded (i : Issue) : bool :=
  match category i with
  | Connectivity | JavaScript => severity_eqb (severity i) critical
  | SEO | UIUX => severity_eqb (severity i) minor
  | Performance => negb (severity_eqb (severity i) critical)
  | Content | Navigation | Forms | Accessibility | ResponsiveDesign | UserFlow =>
      severity_eqb (severity i) major
  end.

Definition same_selector (a b : option string) : bool :=
  match a, b with
  | Some x, Some y => String.eqb x y
  | None, None => true
  | _, _ => false
  end.

(** The selector of the two calls that act on an element. *)
Definition acts_on (c : Call) : option (option string) :=
  match c with
  | CClick sel => Some sel
  | CType sel _ => Some sel
  | _ => None
  end.

(** [c] may follow [prev]: a click or a keystroke sequence comes right
    after a [waitForSelector] on the same selector. *)
Definition awaited (prev c : Call) : bool :=
  match acts_on c with
  | None => true
  | Some sel =>
      match prev with
      | CWaitForSelector sel' _ => same_selector sel sel'
      | _ => false
      end
  end.

Fixpoint guarded (prev : Call) (cs : list Call) : bool :=
  match cs with
  | [] => true
  | c :: rest => (awaited prev c && guarded c rest)%bool
  end.

(** The viewports a call log sets, in order. *)
Definition viewport_calls (cs : list Call) : list (Z * Z) :=
  flat_map (fun c => match c with CSetViewport v => [v] | _ => [] end) cs.

Definition scrolls (r : ViewportResult) : bool :=
  match hasHorizontalScroll r with Some true => true | _ => false end.

(** Both measurements were taken and both are negative. *)
Definition fits (r : ViewportResult) : bool :=
  match hasHorizontalScroll r, hasOverlappingElements r, vr_error r with
  | Some false, Some false, None => true
  | _, _, _ => false
  end.

Definition responsive_issue (i : Issue) : bool :=
  (has_severity major i && in_category ResponsiveDesign i)%bool.

(** The issue [runUserFlow] pushes for a failed flow. *)
Definition flow_issue (flow : Flow) (r : FlowResult) : Issue :=
  {| severity := major; category := UserFlow;
     issue := Some ("User flow " ++ String (ascii_of_nat 34) (name flow)
                    ++ String (ascii_of_nat 34) " failed");
     recommendation := "Review and fix the failing user flow steps";
     i_details := DFlow r |}.

(** What the step result [r] says about the step it was made for. *)
Definition recorded (step : Step) (r : StepResult) : Prop :=
  sr_action r = action step
  /\ sr_selector r = selector step
  /\ sr_value r = value step
  /\ match sr_error r with
     | Some _ => sr_passed r = false
     | None =>
         match action step with
         | verify =>
             exists text,
               actualValue r = Some text
               /\ expectedValue r = expected step
               /\ sr_passed r = verify_passed text (expected step)
         | screenshot => sr_passed r = false
         | _ => sr_passed r = true
         end
     end.

(** The two issues of the form probe. *)
Definition forms_issue (missing : list FormInfo) : Issue :=
  {| severity := major; category := Forms;
     issue := Some (Js.of_nat (List.length missing) ++ " form(s) missing submit button");
     recommendation := "Add submit buttons to all forms for proper user interaction";
     i_details := DForms (List.length missing) missing |}.

Definition labels_issue (found : list LabelIssue) : Issue :=
  {| severity := major; category := Accessibility;
     issue := Some (Js.of_nat (List.length found) ++ " form input(s) missing labels");
     recommendation := "Add labels to all form inputs for better accessibility";
     i_details := DLabels found |}.

(** What the second evaluation of the form probe comes to. *)
Definition label_scan (o : Outcome Dom) : Outcome (list LabelIssue) :=
  match o with
  | Ok d => accessibilityIssues d
  | Throw e => Throw e
  end.

(** The call ended with an exception. *)
Definition thrown {W : Type} (i : Invocation W) : bool :=
  match i with
  | Invalid => true
  | Ran (Throw _) _ => true
  | Ran (Ok _) _ => false
  end.

Definition reported (o : Outcome Reply) : bool :=
  match o with Ok (Report _ _ _ _ _) => true | _ => false end.

Definition all_categories : list Category :=
  [Connectivity; SEO; Content; JavaScript; Navigation; Forms; Accessibility;
   ResponsiveDesign; UserFlow; UIUX; Performance].

(** ** Runs over any driver *)

Section Runs.

Context {W : Type} (drv : Driver W).

(** [s'] is [s] after the calls [cs] were made and [rs] and [fs] were
    pushed; the [browser] variable is untouched. *)
Definition extends (s s' : State W) (cs : list Call) (rs : list TestResult)
           (fs : list Issue) : Prop :=
  browser s' = browser s
  /\ calls s' = (calls s ++ cs)%list
  /\ qaResults s' = (qaResults s ++ rs)%list
  /\ issues s' = (issues s ++ fs)%list.

(** A computation is tame when it only appends to the two arrays, never
    closes the browser and pushes only well-classified issues; [Q] relates
    its outcome to the results it pushed. *)
Definition tame {A} (m : M W A) (Q : Outcome A -> list TestResult -> Prop) : Prop :=
  forall s, exists cs rs fs,
    extends s (snd (m s)) cs rs fs
    /\ no_close cs = true
    /\ probe_issues fs = true
    /\ Q (fst (m s)) rs.

(** Everything [functionalQATool] does after the connectivity check. *)
Definition probes (args : Args) : M W Reply :=
  bind (runSelectedSuite drv (testSuite args) (url args)) (fun _ =>
  bind (runUserFlows drv (userFlows args)) (fun _ =>
  bind (assessUIQuality drv) (fun uiAssessment =>
  bind (push_result uiAssessment) (fun _ =>
  bind (assessPerformance drv) (fun performanceAssessment =>
  bind (push_result performanceAssessment) (fun _ =>
  bind get (fun s =>
  let summary := summarize (qaResults s) (issues s) in
  ret (Report summary (qaResults s) (issues s) []
              (generateQARecommendations (issues s) summary))))))))).

Definition checked (args : Args) : M W Reply :=
  bind (testConnectivity drv (url args)) (fun connectivityResult =>
  bind (push_result connectivityResult) (fun _ =>
  bind (when (negb (Js.truthy (passed connectivityResult)))
             (push_issue (connectivity_issue connectivityResult))) (fun _ =>
  probes args))).

Definition launched (args : Args) (w : W) : State W :=
  {| world := w; calls := [CLaunch; CNewPage; CSetViewport (viewport args)];
     browser := true; qaResults := []; issues := [];
     flowResult := flowResult (start w) |}.

(** A computation is steady when it only appends to the call log and to
    the issues, every click and keystroke sequence it makes is awaited, and
    every issue it pushes has the severity of its category. *)
Definition steady {A} (m : M W A) : Prop :=
  forall s, exists cs fs,
    calls (snd (m s)) = (calls s ++ cs)%list
    /\ issues (snd (m s)) = (issues s ++ fs)%list
    /\ (forall prev, guarded prev cs = true)
    /\ forallb graded fs = true.

(** A computation keeps the page in the worlds of [I]. *)
Definition keeps {A} (I : W -> Prop) (m : M W A) : Prop :=
  forall s, I (world s) -> I (world (snd (m s))).

(** * Properties *)

(** ** The summary counts and the recommendations *)

Lemma filter_split_length {A} (p : A -> bool) (l : list A) :
  List.length (filter p l) + List.length (filter (fun x => negb (p x)) l)
  = List.length l.
Proof.
  induction l as [|x l IH]; simpl; [reflexivity|].
  destruct (p x); simpl; lia.
Qed.

Lemma category_eqb_eq (a b : Category) : category_eqb a b = true <-> a = b.
Proof. destruct a, b; simpl; split; intros H; congruence. Qed.

Lemma category_eqb_refl (a : Category) : category_eqb a a = true.
Proof. now apply category_eqb_eq. Qed.

Lemma category_eqb_neq (a b : Category) : category_eqb a b = false <-> a <> b.
Proof.
  destruct (category_eqb a b) eqn:E.
  - apply category_eqb_eq in E. split; [discriminate | contradiction].
  - split; [|reflexivity]. intros _ H. apply category_eqb_eq in H. congruence.
Qed.

Lemma bump_keys (cats : list (Category * nat)) (c : Category) :
  map fst (bump cats c)
  = if existsb (category_eqb c) (map fst cats)
    then map fst cats else (map fst cats ++ [c])%list.
Proof.
  induction cats as [|[k n] rest IH]; simpl; [reflexivity|].
  destruct (category_eqb k c) eqn:E.
  - apply category_eqb_eq in E. subst. now rewrite category_eqb_refl.
  - assert (category_eqb c k = false) as ->.
    { apply category_eqb_neq. apply category_eqb_neq in E. congruence. }
    simpl. rewrite IH. now destruct (existsb _ _).
Qed.

Lemma existsb_category (c : Category) (l : list Category) :
  existsb (category_eqb c) l = true <-> In c l.
Proof.
  rewrite existsb_exists. split.
  - intros [x [Hx E]]. apply category_eqb_eq in E. now subst.
  - intros H. exists c. split; [assumption | apply category_eqb_refl].
Qed.

Lemma bump_NoDup (cats : list (Category * nat)) (c : Category) :
  NoDup (map fst cats) -> NoDup (map fst (bump cats c)).
Proof.
  intros H. rewrite bump_keys.
  destruct (existsb (category_eqb c) (map fst cats)) eqn:E; [assumption|].
  apply NoDup_app; [assumption | repeat constructor; auto |].
  intros x Hx [<-|[]].
  apply existsb_category in Hx. congruence.
Qed.

Lemma bump_In (cats : list (Category * nat)) (c k : Category) :
  In k (map fst (bump cats c)) <-> k = c \/ In k (map fst cats).
Proof.
  rewrite bump_keys.
  destruct (existsb (category_eqb c) (map fst cats)) eqn:E.
  - apply existsb_category in E. split; [auto | intros [->|H]; assumption].
  - rewrite in_app_iff. simpl. intuition congruence.
Qed.

Lemma bump_tally (cats : list (Category * nat)) (c k : Category) :
  tally k (bump cats c) = if category_eqb c k then S (tally k cats) else tally k cats.
Proof.
  induction cats as [|[k' n] rest IH]; simpl.
  - destruct (category_eqb c k); reflexivity.
  - destruct (category_eqb k' c) eqn:E; simpl.
    + apply category_eqb_eq in E. subst. now destruct (category_eqb c k).
    + destruct (category_eqb k' k) eqn:E'; [|assumption].
      apply category_eqb_eq in E'. subst. now rewrite (proj2 (category_eqb_neq c k))
        by (apply category_eqb_neq in E; congruence).
Qed.

Lemma tally_In (cats : list (Category * nat)) (c : Category) (n : nat) :
  NoDup (map fst cats) -> In (c, n) cats -> tally c cats = n.
Proof.
  induction cats as [|[k m] rest IH]; simpl; [contradiction|].
  intros Hnd [E|Hin].
  - inversion E; subst. now rewrite category_eqb_refl.
  - inversion Hnd as [|? ? Hk Hrest]; subst.
    destruct (category_eqb k c) eqn:E.
    + apply category_eqb_eq in E. subst. exfalso. apply Hk.
      change c with (fst (c, n)). now apply in_map.
    + now apply IH.
Qed.

(** Invariant of the [reduce]: keys stay distinct, are exactly the
    categories met so far, and each tally is the number of issues met in
    that category. *)
Lemma categories_from (found : list Issue) :
  forall cats seen,
    NoDup (map fst cats) ->
    (forall k, In k (map fst cats) <-> In k (map category seen)) ->
    (forall k, tally k cats = List.length (filter (in_category k) seen)) ->
    let out := fold_left (fun cats i => bump cats (category i)) found cats in
    NoDup (map fst out)
    /\ (forall k, In k (map fst out) <-> In k (map category (seen ++ found)))
    /\ (forall k, tally k out = List.length (filter (in_category k) (seen ++ found))).
Proof.
  induction found as [|i found IH]; intros cats seen Hnd Hin Hcount; simpl.
  - rewrite app_nil_r. auto.
  - specialize (IH (bump cats (category i)) (seen ++ [i])%list).
    rewrite <- app_assoc in IH. simpl in IH. apply IH.
    + now apply bump_NoDup.
    + intros k. rewrite bump_In, map_app, in_app_iff, Hin. simpl. intuition.
    + intros k. rewrite bump_tally, filter_app, length_app, Hcount. simpl.
      change (in_category k i) with (category_eqb (category i) k).
      destruct (category_eqb (category i) k); simpl; lia.
Qed.

(** The two counts of the summary partition the results. *)
Lemma summarize_adds_up (results : list TestResult) (found : list Issue) :
  sm_passed (summarize results found) + failed (summarize results found)
  = totalTests (summarize results found).
Proof. apply filter_split_length. Qed.

Lemma positive_length_existsb {A} (p : A -> bool) (l : list A) :
  Nat.ltb 0 (List.length (filter p l)) = existsb p l.
Proof.
  induction l as [|x l IH]; simpl; [reflexivity|].
  destruct (p x); simpl; [reflexivity | assumption].
Qed.

(** C10: the recommendation list built for a run is, in this order, the
    critical banner iff some issue is critical, the major banner iff some
    issue is major, the minor banner iff some issue is minor, one focus
    line per distinct category present among the issues (keys distinct,
    exactly the categories present, each with its number of issues), and
    the positive confirmation line iff there is no issue at all.  The
    summary is the one the tool derives from the same issue list. *)
Theorem recommendations_ordered (results : list TestResult) (found : list Issue) :
  generateQARecommendations found (summarize results found)
  = ((if existsb (has_severity critical) found then [critical_banner] else [])
     ++ (if existsb (has_severity major) found then [major_banner] else [])
     ++ (if existsb (has_severity minor) found then [minor_banner] else [])
     ++ map focus_line (categories found)
     ++ (match found with [] => [all_clear] | _ :: _ => [] end))%list
  /\ NoDup (map fst (categories found))
  /\ (forall c, In c (map fst (categories found))
                <-> exists i, In i found /\ category i = c)
  /\ (forall c n, In (c, n) (categories found)
                  -> n = List.length (filter (in_category c) found)).
Proof.
  destruct (categories_from found [] []) as (Hnd & Hin & Hcount);
    [constructor | simpl; tauto | reflexivity |].
  simpl in Hin, Hcount. fold (categories found) in Hnd, Hin, Hcount.
  repeat split.
  - unfold generateQARecommendations, summarize. simpl.
    rewrite !positive_length_existsb. now destruct found.
  - assumption.
  - intros H. apply Hin in H. apply in_map_iff in H as (i & E & Hi). eauto.
  - intros (i & Hi & E). apply Hin. subst. now apply in_map.
  - intros c n H. rewrite <- Hcount. symmetry. now apply tally_In.
Qed.

(** ** Reasoning about runs *)

Lemma extends_trans s s1 s2 c1 r1 f1 c2 r2 f2 :
  extends s s1 c1 r1 f1 -> extends s1 s2 c2 r2 f2 ->
  extends s s2 (c1 ++ c2) (r1 ++ r2) (f1 ++ f2).
Proof.
  intros (Hb & Hc & Hr & Hf) (Hb' & Hc' & Hr' & Hf').
  repeat split; rewrite ?app_assoc; congruence.
Qed.

Lemma no_close_app c1 c2 :
  no_close c1 = true -> no_close c2 = true -> no_close (c1 ++ c2) = true.
Proof. unfold no_close. rewrite forallb_app. now intros -> ->. Qed.

Lemma probe_issues_app f1 f2 :
  probe_issues f1 = true -> probe_issues f2 = true ->
  probe_issues (f1 ++ f2) = true.
Proof. unfold probe_issues. rewrite forallb_app. now intros -> ->. Qed.

Lemma tame_conseq {A} (m : M W A) (Q Q' : Outcome A -> list TestResult -> Prop) :
  tame m Q -> (forall o rs, Q o rs -> Q' o rs) -> tame m Q'.
Proof.
  intros H HQ s. destruct (H s) as (cs & rs & fs & He & Hc & Hf & Hq).
  exists cs, rs, fs. auto.
Qed.

(** Sequencing: either the first part threw, or both parts ran. *)
Lemma tame_bind {A B} (m : M W A) (k : A -> M W B) Q1 Q2 :
  tame m Q1 -> (forall a, tame (k a) (Q2 a)) ->
  tame (bind m k)
       (fun o rs =>
          (exists e, o = Throw e /\ Q1 (Throw e) rs)
          \/ (exists a r1 r2, rs = (r1 ++ r2)%list /\ Q1 (Ok a) r1 /\ Q2 a o r2)).
Proof.
  intros Hm Hk s. unfold bind.
  destruct (Hm s) as (c1 & r1 & f1 & He1 & Hc1 & Hf1 & Hq1).
  destruct (m s) as [[a|e] s1]; simpl in *.
  - destruct (Hk a s1) as (c2 & r2 & f2 & He2 & Hc2 & Hf2 & Hq2).
    exists (c1 ++ c2)%list, (r1 ++ r2)%list, (f1 ++ f2)%list.
    split; [eapply extends_trans; eassumption|].
    split; [now apply no_close_app|].
    split; [now apply probe_issues_app|].
    right. exists a, r1, r2. auto.
  - exists c1, r1, f1. do 3 (split; [assumption|]). left. eauto.
Qed.

Lemma tame_try_catch {A} (m : M W A) (h : string -> M W A) Q1 Q2 :
  tame m Q1 -> (forall e, tame (h e) (Q2 e)) ->
  tame (try_catch m h)
       (fun o rs =>
          (exists a, o = Ok a /\ Q1 (Ok a) rs)
          \/ (exists e r1 r2, rs = (r1 ++ r2)%list /\ Q1 (Throw e) r1 /\ Q2 e o r2)).
Proof.
  intros Hm Hh s. unfold try_catch.
  destruct (Hm s) as (c1 & r1 & f1 & He1 & Hc1 & Hf1 & Hq1).
  destruct (m s) as [[a|e] s1]; simpl in *.
  - exists c1, r1, f1. do 3 (split; [assumption|]). left. eauto.
  - destruct (Hh e s1) as (c2 & r2 & f2 & He2 & Hc2 & Hf2 & Hq2).
    exists (c1 ++ c2)%list, (r1 ++ r2)%list, (f1 ++ f2)%list.
    split; [eapply extends_trans; eassumption|].
    split; [now apply no_close_app|].
    split; [now apply probe_issues_app|].
    right. exists e, r1, r2. auto.
Qed.

(** Symbolic execution of straight-line code: split on the next driver
    answer or test whose scrutinee is already in normal form. *)
Ltac crunch1 :=
  match goal with
  | |- context [match ?x with _ => _ end] =>
      lazymatch x with
      | context [match _ with _ => _ end] => fail
      | _ => destruct x eqn:?
      end
  end.

Ltac crunch := repeat (simpl; crunch1).

Ltac unfold_monad :=
  unfold evaluate, page_goto, try_catch, try_finally, bind, call, when,
    push_issue, push_issues, push_result, modify_flow, set_browser, get, ret.

Ltac settle :=
  do 3 eexists; unfold extends; simpl;
  repeat split;
  (rewrite <- ?app_assoc; simpl;
   first [reflexivity | symmetry; apply app_nil_r | idtac]).

Lemma tame_ret {A} (a : A) : tame (ret a) (fun o rs => o = Ok a /\ rs = []).
Proof. intros s. unfold_monad. settle. Qed.

Lemma tame_get : tame get (fun o rs => rs = [] /\ exists s, o = Ok s).
Proof. intros s. unfold_monad. settle. eauto. Qed.

Lemma tame_push_result r : tame (push_result r) (fun o rs => o = Ok tt /\ rs = [r]).
Proof. intros s. unfold_monad. settle. Qed.

Lemma tame_modify_flow f : tame (modify_flow f) (fun o rs => o = Ok tt /\ rs = []).
Proof. intros s. unfold_monad. settle. Qed.

Lemma testConnectivity_tame url :
  tame (testConnectivity drv url)
       (fun o rs => rs = [] /\ exists r, o = Ok r /\ testName r = "Connectivity Test").
Proof.
  intros s. unfold testConnectivity. unfold_monad. crunch; settle; eauto.
Qed.

Lemma runBasicTests_tame url :
  tame (runBasicTests drv url)
       (fun o rs => forall a, o = Ok a -> names rs = basic_names).
Proof.
  intros s. unfold runBasicTests. unfold_monad. crunch; settle;
    solve [discriminate | intros; reflexivity].
Qed.

Lemma tame_call {A} (c : Call) (op : W -> Outcome A * W) :
  is_close c = false -> tame (call c op) (fun _ rs => rs = []).
Proof.
  intros Hc s. unfold_monad. destruct (op (world s)) as [o w].
  do 3 eexists. unfold extends. simpl. repeat split; try reflexivity.
  - symmetry; apply app_nil_r.
  - symmetry; apply app_nil_r.
  - unfold no_close. simpl. now rewrite Hc.
  - reflexivity.
Qed.

Lemma tame_evaluate {A} (f : Dom -> Outcome A) : tame (evaluate drv f) (fun _ rs => rs = []).
Proof. intros s. unfold_monad. crunch; settle. Qed.

Lemma tame_push_issues l :
  probe_issues l = true -> tame (push_issues l) (fun o rs => o = Ok tt /\ rs = []).
Proof. intros Hl s. unfold_monad. settle. assumption. Qed.

Lemma tame_when b (m : M W unit) Q :
  tame m Q ->
  tame (when b m) (fun o rs => if b then Q o rs else o = Ok tt /\ rs = []).
Proof. intros H. destruct b; simpl; [assumption | apply tame_ret]. Qed.

(** Structural proof search for code that calls a loop. *)
Ltac tame_step :=
  first
    [ apply tame_ret | apply tame_get | apply tame_push_result
    | apply tame_modify_flow | apply tame_evaluate
    | apply tame_call; reflexivity
    | apply tame_push_issues; reflexivity
    | apply tame_when
    | apply tame_bind; [|intro]
    | apply tame_try_catch; [|intro] ].

Ltac unpack :=
  repeat match goal with
         | H : _ \/ _ |- _ => destruct H
         | H : exists _, _ |- _ => destruct H
         | H : _ /\ _ |- _ => destruct H
         | H : (if ?b then _ else _) |- _ => destruct b
         | H : Ok _ = Ok _ |- _ => inversion H; clear H
         | H : Ok _ = Throw _ |- _ => discriminate H
         | H : Throw _ = Ok _ |- _ => discriminate H
         end; subst.

Lemma testLink_tame t link :
  tame (testLink drv t link) (fun o rs => rs = [] /\ exists t', o = Ok t').
Proof. intros s. unfold testLink. unfold_monad. crunch; settle; eauto. Qed.

Lemma testLinks_tame links :
  forall t, tame (testLinks drv links t) (fun o rs => rs = [] /\ exists t', o = Ok t').
Proof.
  induction links as [|link rest IH]; intros t; simpl.
  - eapply tame_conseq; [apply tame_ret|]. intros o rs [-> ->]. eauto.
  - eapply tame_conseq.
    + apply tame_bind; [apply testLink_tame | intro; apply IH].
    + simpl. intros o rs H. unpack; eauto; discriminate.
Qed.

Lemma runNavigationTests_tame url :
  tame (runNavigationTests drv url)
       (fun o rs => o = Ok tt /\ one_or_two "Navigation Links Test" (names rs)).
Proof.
  unfold runNavigationTests, push_issue, page_goto. eapply tame_conseq.
  - apply tame_try_catch; [|intro; apply tame_push_result].
    apply tame_bind; [apply tame_evaluate | intro].
    apply tame_bind; [apply testLinks_tame | intro].
    repeat tame_step.
  - unfold one_or_two. simpl. intros o rs H. unpack; simpl; auto; try discriminate.
    all: match goal with u : unit |- _ => destruct u end; auto.
Qed.

Lemma runFormTests_tame url :
  tame (runFormTests drv url)
       (fun o rs => o = Ok tt /\ one_or_two "Form Structure Check" (names rs)).
Proof.
  intros s. unfold runFormTests, one_or_two. unfold_monad. crunch; settle; auto.
Qed.

Lemma testViewport_tame acc vp :
  tame (testViewport drv acc vp) (fun o rs => rs = [] /\ exists l, o = Ok l).
Proof.
  intros s. destruct vp as [vname [width height]].
  unfold testViewport. unfold_monad. crunch; settle; eauto.
Qed.

Lemma testViewports_tame vps :
  forall acc, tame (testViewports drv vps acc)
                   (fun o rs => rs = [] /\ exists l, o = Ok l).
Proof.
  induction vps as [|vp rest IH]; intros acc; simpl.
  - eapply tame_conseq; [apply tame_ret|]. intros o rs [-> ->]. eauto.
  - eapply tame_conseq.
    + apply tame_bind; [apply testViewport_tame | intro; apply IH].
    + simpl. intros o rs H. unpack; eauto; discriminate.
Qed.

Lemma runResponsiveTests_tame url :
  tame (runResponsiveTests drv url)
       (fun o rs => o = Ok tt /\ names rs = ["Responsive Design Test"]).
Proof.
  unfold runResponsiveTests. eapply tame_conseq.
  - apply tame_bind; [apply testViewports_tame | intro; apply tame_push_result].
  - simpl. intros o rs H. unpack; auto; discriminate.
Qed.

Lemma ui_issues_classified l : probe_issues (map ui_issue l) = true.
Proof. induction l as [|p l IH]; simpl; [reflexivity | assumption]. Qed.

Lemma assessUIQuality_tame :
  tame (assessUIQuality drv)
       (fun o rs => rs = [] /\ forall r, o = Ok r -> testName r = "UI Quality Assessment").
Proof.
  intros s. unfold assessUIQuality. unfold_monad. crunch; settle;
    try solve [intros ? [=]; subst; reflexivity].
  apply ui_issues_classified.
Qed.

Lemma performanceIssues_classified heap e :
  probe_issues (performanceIssues heap e) = true.
Proof. unfold performanceIssues. now destruct (Z.ltb _ _), (Z.ltb _ _). Qed.

Lemma assessPerformance_tame :
  tame (assessPerformance drv)
       (fun o rs => rs = [] /\ forall r, o = Ok r -> testName r = "Performance Assessment").
Proof.
  intros s. unfold assessPerformance. unfold_monad. crunch; settle;
    try solve [intros ? [=]; subst; reflexivity].
  apply performanceIssues_classified.
Qed.

(** *** Scripted flows *)

(** What one iteration of the loop does to [flowResult]: it never throws,
    appends exactly one step result, and clears [passed] exactly when the
    step threw. *)
Lemma runStep_flow i step s :
  exists r,
    fst (runStep drv i step s) = Ok tt
    /\ fr_steps (flowResult (snd (runStep drv i step s)))
       = (fr_steps (flowResult s) ++ [r])%list
    /\ fr_passed (flowResult (snd (runStep drv i step s)))
       = (fr_passed (flowResult s) && no_error r)%bool
    /\ fr_testName (flowResult (snd (runStep drv i step s))) = fr_testName (flowResult s)
    /\ fr_error (flowResult (snd (runStep drv i step s))) = fr_error (flowResult s)
    /\ stepNumber r = i + 1
    /\ sr_action r = action step
    /\ (no_error r = false -> sr_passed r = false).
Proof.
  unfold runStep, performStep, flow_push, flow_failed. unfold_monad.
  destruct (action step) eqn:Ha; crunch; eexists; simpl;
    (split; [reflexivity|]); (split; [reflexivity|]);
    (split; [unfold no_error; simpl; rewrite ?andb_true_r, ?andb_false_r; reflexivity|]);
    repeat split; auto; try discriminate.
Qed.

Lemma runSteps_flow todo :
  forall i s,
  exists rs,
    fst (runSteps drv i todo s) = Ok tt
    /\ fr_steps (flowResult (snd (runSteps drv i todo s)))
       = (fr_steps (flowResult s) ++ rs)%list
    /\ fr_passed (flowResult (snd (runSteps drv i todo s)))
       = (fr_passed (flowResult s) && forallb no_error rs)%bool
    /\ fr_testName (flowResult (snd (runSteps drv i todo s))) = fr_testName (flowResult s)
    /\ fr_error (flowResult (snd (runSteps drv i todo s))) = fr_error (flowResult s)
    /\ map stepNumber rs = seq (i + 1) (List.length todo)
    /\ map sr_action rs = map action todo
    /\ Forall (fun r => no_error r = false -> sr_passed r = false) rs.
Proof.
  induction todo as [|step rest IH]; intros i s; simpl.
  - exists []. unfold ret. simpl. rewrite andb_true_r, app_nil_r.
    repeat split; auto.
  - unfold bind.
    destruct (runStep_flow i step s) as (r & Ho & Hs & Hp & Ht & He & Hn & Ha & Hf).
    destruct (runStep drv i step s) as [o s1]. simpl in Ho, Hs, Hp, Ht, He. subst o.
    destruct (IH (S i) s1) as (rs & Ho' & Hs' & Hp' & Ht' & He' & Hn' & Ha' & Hf').
    exists (r :: rs).
    split; [assumption|].
    split; [rewrite Hs', Hs, <- app_assoc; reflexivity|].
    split; [rewrite Hp', Hp; simpl; now rewrite andb_assoc|].
    split; [congruence|]. split; [congruence|].
    simpl. rewrite Hn, Ha, Ha'. replace (S (i + 1)) with (S i + 1) by lia.
    rewrite <- Hn'. repeat split; auto.
Qed.

Lemma runStep_tame i step :
  tame (runStep drv i step) (fun o rs => o = Ok tt /\ rs = []).
Proof.
  intros s. unfold runStep, performStep. unfold_monad.
  destruct (action step); crunch; settle.
Qed.

Lemma runSteps_tame todo :
  forall i, tame (runSteps drv i todo) (fun o rs => o = Ok tt /\ rs = []).
Proof.
  induction todo as [|step rest IH]; intros i; simpl.
  - apply tame_ret.
  - eapply tame_conseq.
    + apply tame_bind; [apply runStep_tame | intro; apply IH].
    + simpl. intros o rs H. unpack; auto; discriminate.
Qed.

Lemma runUserFlow_tame flow :
  tame (runUserFlow drv flow) (fun o rs => rs = [] /\ exists r, o = Ok r).
Proof.
  unfold runUserFlow, push_issue. eapply tame_conseq.
  - apply tame_bind; [apply tame_modify_flow | intro].
    apply tame_bind;
      [apply tame_try_catch; [apply runSteps_tame | intro; apply tame_modify_flow] | intro].
    repeat tame_step.
  - simpl. intros o rs H. unpack; simpl; eauto; discriminate.
Qed.

(** The flow result in full: one step result per step of the flow, in
    order, and [passed] cleared exactly when some step threw. *)
Lemma runUserFlow_result flow s :
  exists rs,
    fst (runUserFlow drv flow s)
    = Ok {| fr_testName := "User Flow: " ++ name flow;
            fr_passed := forallb no_error rs;
            fr_steps := rs;
            fr_error := None |}
    /\ map stepNumber rs = seq 1 (List.length (steps flow))
    /\ map sr_action rs = map action (steps flow)
    /\ Forall (fun r => no_error r = false -> sr_passed r = false) rs.
Proof.
  unfold runUserFlow, push_issue. unfold_monad. simpl.
  match goal with
  | |- context [runSteps drv 0 (steps flow) ?s1] =>
      destruct (runSteps_flow (steps flow) 0 s1)
        as (rs & Ho & Hs & Hp & Ht & He & Hn & Ha & Hf);
      destruct (runSteps drv 0 (steps flow) s1) as [o s2]
  end.
  simpl in Ho, Hs, Hp, Ht, He. subst o. exists rs. simpl.
  destruct (flowResult s2) as [tn ps ss er]. simpl in *. subst.
  destruct (forallb no_error rs); simpl; auto.
Qed.

Lemma runUserFlow_named flow :
  tame (runUserFlow drv flow)
       (fun o rs => rs = [] /\ exists r, o = Ok r /\ fr_testName r = flow_title flow).
Proof.
  intros s.
  destruct (runUserFlow_tame flow s) as (cs & rs & fs & He & Hc & Hf & -> & _).
  destruct (runUserFlow_result flow s) as (done & Hr & _).
  exists cs, [], fs. do 3 (split; [assumption|]).
  split; [reflexivity|]. rewrite Hr. eauto.
Qed.

Lemma runUserFlows_tame flows :
  tame (runUserFlows drv flows)
       (fun o rs => o = Ok tt /\ names rs = map flow_title flows).
Proof.
  induction flows as [|flow rest IH]; simpl.
  - eapply tame_conseq; [apply tame_ret|]. intros o rs [-> ->]. auto.
  - eapply tame_conseq.
    + apply tame_bind; [apply runUserFlow_named | intro].
      apply tame_bind; [apply tame_push_result | intro; apply IH].
    + cbv beta. intros o rs H. unpack; try discriminate.
      split; [reflexivity|]. unfold names in *. cbn [map app testName of_flow].
      congruence.
Qed.

(** *** The selected suite and what follows it *)

Lemma names_app r1 r2 : names (r1 ++ r2) = (names r1 ++ names r2)%list.
Proof. apply map_app. Qed.

Lemma runSelectedSuite_tame suite url :
  tame (runSelectedSuite drv suite url)
       (fun o rs => forall a, o = Ok a -> suite_names suite (names rs)).
Proof.
  destruct suite; simpl.
  - apply runBasicTests_tame.
  - eapply tame_conseq; [apply tame_push_result|]. now intros o rs [-> ->].
  - eapply tame_conseq; [apply runFormTests_tame|]. now intros o rs [-> H].
  - eapply tame_conseq; [apply runNavigationTests_tame|]. now intros o rs [-> H].
  - eapply tame_conseq; [apply runResponsiveTests_tame|]. now intros o rs [-> H].
  - eapply tame_conseq.
    + apply tame_bind; [apply runBasicTests_tame | intro].
      apply tame_bind; [apply runNavigationTests_tame | intro].
      apply tame_bind; [apply runFormTests_tame | intro].
      apply runResponsiveTests_tame.
    + cbv beta. intros o rs H a ->. unpack; try discriminate.
      rewrite !names_app.
      match goal with Hb : forall a, Ok _ = Ok a -> _ |- _ => rewrite (Hb _ eq_refl) end.
      match goal with Hr : names _ = [_] |- _ => rewrite Hr end.
      eauto.
Qed.

Lemma attempt_unfold args :
  attempt drv args
  = bind (call CLaunch (drv_launch drv)) (fun _ =>
    bind set_browser (fun _ =>
    bind (call CNewPage (drv_newPage drv)) (fun _ =>
    bind (call (CSetViewport (viewport args)) (drv_setViewport drv (viewport args)))
         (fun _ => checked args)))).
Proof. reflexivity. Qed.

Lemma probes_tame args :
  tame (probes args)
       (fun o rs =>
          forall reply, o = Ok reply ->
          exists sn, suite_names (testSuite args) sn
                     /\ names rs
                        = (sn ++ map flow_title (userFlows args) ++ assessment_names)%list).
Proof.
  unfold probes. eapply tame_conseq.
  - apply tame_bind; [apply runSelectedSuite_tame | intro].
    apply tame_bind; [apply runUserFlows_tame | intro].
    apply tame_bind; [apply assessUIQuality_tame | intro].
    apply tame_bind; [apply tame_push_result | intro].
    apply tame_bind; [apply assessPerformance_tame | intro].
    apply tame_bind; [apply tame_push_result | intro].
    apply tame_bind; [apply tame_get | intro]. apply tame_ret.
  - cbv beta. intros o rs H reply ->. unpack; try discriminate.
    match goal with Hs : forall a, Ok _ = Ok a -> suite_names _ _ |- _ =>
      specialize (Hs _ eq_refl) end.
    eexists. split; [eassumption|].
    repeat match goal with Hn : forall r, Ok _ = Ok r -> testName r = _ |- _ =>
      specialize (Hn _ eq_refl) end.
    rewrite !names_app, !app_nil_r. cbn [names map app] in *.
    unfold assessment_names. congruence.
Qed.

(** *** The connectivity check *)

Lemma testConnectivity_run url s :
  exists r,
    fst (testConnectivity drv url s) = Ok r
    /\ testName r = "Connectivity Test"
    /\ passed r = Js.VBool (navigated (fst (drv_goto drv url (Some 10000%Z) (world s))))
    /\ snd (testConnectivity drv url s)
       = {| world := snd (drv_goto drv url (Some 10000%Z) (world s));
            calls := calls s ++ [CGoto url (Some 10000%Z)];
            browser := browser s; qaResults := qaResults s; issues := issues s;
            flowResult := flowResult s |}.
Proof.
  unfold testConnectivity. unfold_monad.
  destruct (drv_goto drv url (Some 10000%Z) (world s)) as [[response|e] w1];
    simpl; eexists; repeat split.
Qed.

(** From the connectivity check to the end of the [try] block: the
    connectivity result comes first, the connectivity issue (if the check
    failed) is the only one of its category, and the probes run whatever
    the check said. *)
Lemma checked_run args s :
  exists r cs rs fs,
    fst (testConnectivity drv (url args) s) = Ok r
    /\ testName r = "Connectivity Test"
    /\ browser (snd (checked args s)) = browser s
    /\ calls (snd (checked args s)) = (calls s ++ cs)%list
    /\ no_close cs = true
    /\ qaResults (snd (checked args s)) = (qaResults s ++ r :: rs)%list
    /\ issues (snd (checked args s))
       = (issues s
          ++ (if Js.truthy (passed r) then [] else [connectivity_issue r]) ++ fs)%list
    /\ probe_issues fs = true
    /\ (forall reply, fst (checked args s) = Ok reply ->
          exists sn, suite_names (testSuite args) sn
                     /\ names rs
                        = (sn ++ map flow_title (userFlows args)
                              ++ assessment_names)%list).
Proof.
  destruct (testConnectivity_run (url args) s) as (r & Ho & Hn & _ & Hs).
  exists r.
  assert (exists s2,
             checked args s = probes args s2
             /\ browser s2 = browser s
             /\ calls s2 = (calls s ++ [CGoto (url args) (Some 10000%Z)])%list
             /\ qaResults s2 = (qaResults s ++ [r])%list
             /\ issues s2
                = (issues s
                   ++ (if Js.truthy (passed r) then [] else [connectivity_issue r]))%list)
    as (s2 & Hp & Hb & Hc & Hr & Hf).
  { unfold checked, bind.
    destruct (testConnectivity drv (url args) s) as [o s1]. simpl in Ho, Hs. subst o s1.
    unfold push_result, when, push_issue, push_issues, ret. simpl.
    destruct (Js.truthy (passed r)); simpl; eexists; (split; [reflexivity|]); simpl;
      rewrite ?app_nil_r; auto. }
  rewrite Hp.
  destruct (probes_tame args s2)
    as (c2 & r2 & f2 & (Hb2 & Hc2 & Hr2 & Hf2) & Hnc2 & Hnf2 & Hq).
  exists (CGoto (url args) (Some 10000%Z) :: c2), r2, f2.
  rewrite Hb2, Hc2, Hr2, Hf2, Hb, Hc, Hr, Hf, <- !app_assoc.
  repeat split; auto.
Qed.

(** The start of the [try] block: each of the three set-up calls either
    throws, ending the block, or hands over to the next. *)
Lemma attempt_cases args w :
  match drv_launch drv w with
  | (Throw e, w1) =>
      attempt drv args (start w)
      = (Throw e, {| world := w1; calls := [CLaunch]; browser := false;
                     qaResults := []; issues := [];
                     flowResult := flowResult (start w) |})
  | (Ok _, w1) =>
      match drv_newPage drv w1 with
      | (Throw e, w2) =>
          attempt drv args (start w)
          = (Throw e, {| world := w2; calls := [CLaunch; CNewPage]; browser := true;
                         qaResults := []; issues := [];
                         flowResult := flowResult (start w) |})
      | (Ok _, w2) =>
          match drv_setViewport drv (viewport args) w2 with
          | (Throw e, w3) =>
              attempt drv args (start w) = (Throw e, launched args w3)
          | (Ok _, w3) =>
              attempt drv args (start w) = checked args (launched args w3)
          end
      end
  end.
Proof.
  rewrite attempt_unfold. unfold bind, call, set_browser, launched, start. simpl.
  destruct (drv_launch drv w) as [[[]|e] w1]; simpl; [|reflexivity].
  destruct (drv_newPage drv w1) as [[[]|e] w2]; simpl; [|reflexivity].
  destruct (drv_setViewport drv (viewport args) w2) as [[[]|e] w3]; simpl; reflexivity.
Qed.

(** *** The whole invocation *)

(** The [catch] and [finally] blocks leave the two arrays alone; [finally]
    closes the browser iff [browser] was set. *)
Lemma tool_state args w :
  let s1 := snd (attempt drv args (start w)) in
  let s := snd (functionalQATool drv args w) in
  qaResults s = qaResults s1
  /\ issues s = issues s1
  /\ calls s = (calls s1 ++ (if browser s1 then [CClose] else []))%list.
Proof.
  unfold functionalQATool, try_finally, try_catch, rescue, cleanup. unfold_monad.
  destruct (attempt drv args (start w)) as [[reply|e] s1]; simpl;
    destruct (browser s1); simpl;
    try destruct (drv_close drv (world s1)) as [[[]|e'] w']; simpl;
    rewrite ?app_nil_r; auto.
Qed.

(** A report can only come out of the [try] block, built from the two
    arrays as they stand at its end. *)
Lemma tool_report args w sm rs fs shots recs :
  fst (functionalQATool drv args w) = Ok (Report sm rs fs shots recs) ->
  fst (attempt drv args (start w)) = Ok (Report sm rs fs shots recs).
Proof.
  unfold functionalQATool, try_finally, try_catch, rescue, cleanup. unfold_monad.
  destruct (attempt drv args (start w)) as [[reply|e] s1]; simpl;
    destruct (browser s1); simpl;
    try destruct (drv_close drv (world s1)) as [[[]|e'] w']; simpl;
    congruence.
Qed.

Lemma bind_Ok {A B} (m : M W A) (k : A -> M W B) s b :
  fst (bind m k s) = Ok b ->
  exists a, fst (m s) = Ok a
            /\ fst (k a (snd (m s))) = Ok b
            /\ snd (bind m k s) = snd (k a (snd (m s))).
Proof.
  unfold bind. destruct (m s) as [[a|e] s1]; simpl; [eauto | discriminate].
Qed.

Lemma probes_reply args s reply :
  fst (probes args s) = Ok reply ->
  let s' := snd (probes args s) in
  reply = Report (summarize (qaResults s') (issues s')) (qaResults s') (issues s') []
                 (generateQARecommendations (issues s')
                    (summarize (qaResults s') (issues s'))).
Proof.
  unfold probes. intros H. cbv zeta.
  do 6 (apply bind_Ok in H as (? & _ & H & ->)).
  unfold bind, get, ret in *. simpl in *. congruence.
Qed.

Lemma checked_reply args s reply :
  fst (checked args s) = Ok reply ->
  let s' := snd (checked args s) in
  reply = Report (summarize (qaResults s') (issues s')) (qaResults s') (issues s') []
                 (generateQARecommendations (issues s')
                    (summarize (qaResults s') (issues s'))).
Proof.
  unfold checked. intros H. cbv zeta.
  do 3 (apply bind_Ok in H as (? & _ & H & ->)).
  now apply probes_reply.
Qed.

(** A returned report comes from a run in which the three set-up calls
    succeeded. *)
Lemma report_run args w reply :
  fst (attempt drv args (start w)) = Ok reply ->
  exists w3, attempt drv args (start w) = checked args (launched args w3).
Proof.
  intros H. pose proof (attempt_cases args w) as Hc.
  destruct (drv_launch drv w) as [[[]|e] w1];
    [|rewrite Hc in H; discriminate].
  destruct (drv_newPage drv w1) as [[[]|e] w2];
    [|rewrite Hc in H; discriminate].
  destruct (drv_setViewport drv (viewport args) w2) as [[[]|e] w3];
    [|rewrite Hc in H; discriminate].
  eauto.
Qed.

Lemma no_close_filter cs : no_close cs = true -> filter is_close cs = [].
Proof.
  induction cs as [|c cs IH]; simpl; [reflexivity|].
  destruct (is_close c); simpl; [discriminate | assumption].
Qed.

Lemma probe_issues_filter fs :
  probe_issues fs = true -> filter (in_category Connectivity) fs = [].
Proof.
  induction fs as [|i fs IH]; simpl; [reflexivity|]. unfold well_classified.
  destruct (in_category Connectivity i); simpl; [discriminate|].
  intros H. apply andb_prop in H as [_ H]. auto.
Qed.

Lemma probe_issues_accessibility fs i :
  probe_issues fs = true -> In i fs -> category i = Accessibility -> severity i = major.
Proof.
  unfold probe_issues. rewrite forallb_forall. intros H Hi Hc.
  specialize (H i Hi). unfold well_classified, in_category in H. rewrite Hc in H.
  simpl in H. now destruct (severity i).
Qed.

(** C5: once [puppeteer.launch] has returned a browser, the invocation
    calls [browser.close()] exactly once, whichever way it ends: with a
    report, with the error envelope of the [catch] block after any later
    call threw, or with [close] itself throwing. *)
Theorem close_once args w w1 :
  drv_launch drv w = (Ok tt, w1) ->
  List.length (filter is_close (calls (snd (functionalQATool drv args w)))) = 1.
Proof.
  intros Hl. destruct (tool_state args w) as (_ & _ & ->).
  pose proof (attempt_cases args w) as Hc. rewrite Hl in Hc.
  destruct (drv_newPage drv w1) as [[[]|e] w2]; [|rewrite Hc; reflexivity].
  destruct (drv_setViewport drv (viewport args) w2) as [[[]|e] w3];
    [|rewrite Hc; reflexivity].
  rewrite Hc.
  destruct (checked_run args (launched args w3))
    as (r & cs & rs & fs & _ & _ & -> & -> & Hnc & _).
  simpl. rewrite filter_app, (no_close_filter _ Hnc). reflexivity.
Qed.

(** C9 (as the code has it): with the browser set up, the connectivity
    test is the first result; it passes exactly when the initial navigation
    returns a response whose status is 200, and in every other case (the
    navigation throws, there is no response, or the status is anything
    else, 2xx and 3xx included) it fails and exactly one connectivity
    issue, of severity critical, is recorded.  This holds for the arrays
    at the end of the invocation, however it ends. *)
Theorem connectivity_verdict args w w1 w2 w3 o w4 :
  drv_launch drv w = (Ok tt, w1) ->
  drv_newPage drv w1 = (Ok tt, w2) ->
  drv_setViewport drv (viewport args) w2 = (Ok tt, w3) ->
  drv_goto drv (url args) (Some 10000%Z) w3 = (o, w4) ->
  exists r rest,
    qaResults (snd (functionalQATool drv args w)) = r :: rest
    /\ testName r = "Connectivity Test"
    /\ passed r = Js.VBool (navigated o)
    /\ filter (in_category Connectivity) (issues (snd (functionalQATool drv args w)))
       = (if navigated o then [] else [connectivity_issue r])
    /\ severity (connectivity_issue r) = critical.
Proof.
  intros Hl Hp Hv Hg. destruct (tool_state args w) as (-> & -> & _).
  pose proof (attempt_cases args w) as Hc. rewrite Hl, Hp, Hv in Hc. rewrite Hc.
  destruct (checked_run args (launched args w3))
    as (r & cs & rs & fs & Ho & Hn & _ & _ & _ & -> & -> & Hnf & _).
  destruct (testConnectivity_run (url args) (launched args w3))
    as (r' & Ho' & _ & Hpass & _).
  rewrite Ho in Ho'. injection Ho' as <-.
  simpl in Hpass. rewrite Hg in Hpass. simpl in Hpass.
  exists r, rs. simpl. rewrite Hpass. simpl.
  repeat split; auto.
  rewrite filter_app, (probe_issues_filter _ Hnf), app_nil_r.
  now destruct (navigated o).
Qed.

(** What a returned report holds. *)
Lemma report_shape args w sm rs fs shots recs :
  fst (functionalQATool drv args w) = Ok (Report sm rs fs shots recs) ->
  exists r rest more sn,
    rs = r :: rest
    /\ testName r = "Connectivity Test"
    /\ suite_names (testSuite args) sn
    /\ names rest = (sn ++ map flow_title (userFlows args) ++ assessment_names)%list
    /\ fs = ((if Js.truthy (passed r) then [] else [connectivity_issue r]) ++ more)%list
    /\ probe_issues more = true
    /\ sm = summarize rs fs
    /\ shots = []
    /\ recs = generateQARecommendations fs sm.
Proof.
  intros H. apply tool_report in H.
  destruct (report_run args w _ H) as (w3 & Hc). rewrite Hc in H.
  pose proof (checked_reply _ _ _ H) as Hr. cbv zeta in Hr.
  destruct (checked_run args (launched args w3))
    as (r & cs & rest & more & _ & Hn & _ & _ & _ & Hrs & Hfs & Hnf & Hq).
  destruct (Hq _ H) as (sn & Hsn & Hnames).
  rewrite Hrs, Hfs in Hr. simpl in Hr. injection Hr as -> -> -> -> ->.
  exists r, rest, more, sn. repeat split; auto.
Qed.

(** C6: in every report the tool returns, [totalTests] is the number of
    collected results, [passed] the number of results whose [passed] is
    truthy, [failed] the number whose [passed] is falsy, and
    [passed + failed = totalTests]. *)
Theorem summary_counts_add_up args w sm rs fs shots recs :
  fst (functionalQATool drv args w) = Ok (Report sm rs fs shots recs) ->
  totalTests sm = List.length rs
  /\ sm_passed sm = List.length (filter (fun r => Js.truthy (passed r)) rs)
  /\ failed sm = List.length (filter (fun r => negb (Js.truthy (passed r))) rs)
  /\ sm_passed sm + failed sm = totalTests sm.
Proof.
  intros H. apply report_shape in H as (r & rest & more & sn & _ & _ & _ & _ & _ & _ & -> & _).
  unfold summarize. cbn [totalTests sm_passed failed].
  repeat split. apply filter_split_length.
Qed.


(** C1 (as the code has it): when the connectivity test of a returned
    report failed, the issues start with the connectivity issue, of
    severity critical, and hold no other issue of that category; the
    probes ran all the same: after the connectivity test the results list
    the selected suite, one result per custom flow and the two
    assessments. *)
Theorem failed_connectivity_report args w sm rs fs shots recs r :
  fst (functionalQATool drv args w) = Ok (Report sm rs fs shots recs) ->
  hd_error rs = Some r ->
  Js.truthy (passed r) = false ->
  exists rest more sn,
    rs = r :: rest
    /\ testName r = "Connectivity Test"
    /\ fs = connectivity_issue r :: more
    /\ severity (connectivity_issue r) = critical
    /\ category (connectivity_issue r) = Connectivity
    /\ filter (in_category Connectivity) fs = [connectivity_issue r]
    /\ suite_names (testSuite args) sn
    /\ names rest = (sn ++ map flow_title (userFlows args)
                        ++ ["UI Quality Assessment"; "Performance Assessment"])%list.
Proof.
  intros H Hhd Hfail.
  apply report_shape in H
    as (r' & rest & more & sn & -> & Hn & Hsn & Hrest & -> & Hnf & _).
  simpl in Hhd. injection Hhd as ->. rewrite Hfail.
  exists rest, more, sn. repeat split; auto.
  simpl. now rewrite (probe_issues_filter _ Hnf).
Qed.

(** The loop goes on after any prefix of the steps, whatever the prefix
    did: running [before ++ after] is running [after] from the state in
    which [before] ended. *)
Lemma runSteps_app before after :
  forall i s,
    runSteps drv i (before ++ after) s
    = runSteps drv (i + List.length before) after (snd (runSteps drv i before s)).
Proof.
  induction before as [|step rest IH]; intros i s; simpl.
  - now rewrite Nat.add_0_r.
  - unfold bind.
    destruct (runStep_flow i step s) as (r & Ho & _).
    destruct (runStep drv i step s) as [o s1]. simpl in Ho. subst o.
    rewrite IH. now rewrite Nat.add_succ_r.
Qed.

Lemma runStep_full i step s :
  exists r,
    fst (runStep drv i step s) = Ok tt
    /\ fr_steps (flowResult (snd (runStep drv i step s)))
       = (fr_steps (flowResult s) ++ [r])%list
    /\ fr_passed (flowResult (snd (runStep drv i step s)))
       = (fr_passed (flowResult s) && no_error r)%bool
    /\ fr_testName (flowResult (snd (runStep drv i step s))) = fr_testName (flowResult s)
    /\ fr_error (flowResult (snd (runStep drv i step s))) = fr_error (flowResult s)
    /\ recorded step r
    /\ qaResults (snd (runStep drv i step s)) = qaResults s
    /\ issues (snd (runStep drv i step s)) = issues s.
Proof.
  unfold runStep, performStep, flow_push, flow_failed, recorded. unfold_monad.
  destruct (action step) eqn:Ha; crunch; eexists; simpl;
    (split; [reflexivity|]); (split; [reflexivity|]);
    (split; [unfold no_error; simpl; rewrite ?andb_true_r, ?andb_false_r; reflexivity|]);
    simpl; rewrite ?Ha; repeat split; eauto.
Qed.

Lemma runSteps_full todo :
  forall i s,
  exists rs,
    fst (runSteps drv i todo s) = Ok tt
    /\ fr_steps (flowResult (snd (runSteps drv i todo s)))
       = (fr_steps (flowResult s) ++ rs)%list
    /\ fr_passed (flowResult (snd (runSteps drv i todo s)))
       = (fr_passed (flowResult s) && forallb no_error rs)%bool
    /\ fr_testName (flowResult (snd (runSteps drv i todo s))) = fr_testName (flowResult s)
    /\ fr_error (flowResult (snd (runSteps drv i todo s))) = fr_error (flowResult s)
    /\ Forall2 recorded todo rs
    /\ qaResults (snd (runSteps drv i todo s)) = qaResults s
    /\ issues (snd (runSteps drv i todo s)) = issues s.
Proof.
  induction todo as [|step rest IH]; intros i s; simpl.
  - exists []. unfold ret. simpl. rewrite andb_true_r, app_nil_r.
    repeat split; auto.
  - unfold bind.
    destruct (runStep_full i step s) as (r & Ho & Hs & Hp & Ht & He & Hrec & Hq & Hi).
    destruct (runStep drv i step s) as [o s1]. simpl in Ho, Hs, Hp, Ht, He, Hq, Hi.
    subst o.
    destruct (IH (S i) s1) as (rs & Ho' & Hs' & Hp' & Ht' & He' & Hrec' & Hq' & Hi').
    exists (r :: rs).
    split; [assumption|].
    split; [rewrite Hs', Hs, <- app_assoc; reflexivity|].
    split; [rewrite Hp', Hp; simpl; now rewrite andb_assoc|].
    split; [congruence|]. split; [congruence|].
    split; [now constructor|]. split; congruence.
Qed.

Lemma runUserFlow_full flow s :
  exists r,
    fst (runUserFlow drv flow s) = Ok r
    /\ fr_testName r = flow_title flow
    /\ fr_error r = None
    /\ fr_passed r = forallb no_error (fr_steps r)
    /\ Forall2 recorded (steps flow) (fr_steps r)
    /\ qaResults (snd (runUserFlow drv flow s)) = qaResults s
    /\ issues (snd (runUserFlow drv flow s))
       = (issues s ++ (if fr_passed r then [] else [flow_issue flow r]))%list.
Proof.
  unfold runUserFlow, push_issue, flow_issue, flow_title. unfold_monad. simpl.
  match goal with
  | |- context [runSteps drv 0 (steps flow) ?s1] =>
      destruct (runSteps_full (steps flow) 0 s1)
        as (rs & Ho & Hs & Hp & Ht & He & Hrec & Hq & Hi);
      destruct (runSteps drv 0 (steps flow) s1) as [o s2]
  end.
  simpl in Ho, Hs, Hp, Ht, He, Hq, Hi. subst o. simpl.
  destruct (flowResult s2) as [tn ps ss er]. simpl in *. subst.
  destruct (forallb no_error rs) eqn:E; simpl; eexists;
    (split; [reflexivity|]); simpl; rewrite ?app_nil_r, ?Hi; repeat split; auto.
Qed.

Lemma runStep_calls i step s :
  exists cs,
    calls (snd (runStep drv i step s)) = (calls s ++ cs)%list
    /\ step_calls step cs.
Proof.
  unfold runStep, performStep, step_calls. unfold_monad.
  destruct (action step) eqn:Ha; crunch; eexists;
    (split; [rewrite <- ?app_assoc; first [reflexivity | symmetry; apply app_nil_r]|]);
    simpl; eauto.
Qed.

Lemma runSteps_calls todo :
  forall i s,
  exists css,
    calls (snd (runSteps drv i todo s)) = (calls s ++ concat css)%list
    /\ Forall2 step_calls todo css.
Proof.
  induction todo as [|step rest IH]; intros i s; simpl.
  - exists []. unfold ret. simpl. rewrite app_nil_r. split; constructor.
  - unfold bind.
    destruct (runStep_flow i step s) as (r & Ho & _).
    destruct (runStep_calls i step s) as (cs & Hc & Hs).
    destruct (runStep drv i step s) as [o s1]. simpl in Ho, Hc. subst o.
    destruct (IH (S i) s1) as (css & Hc' & Hs').
    exists (cs :: css). rewrite Hc', Hc, <- app_assoc. split; [reflexivity|].
    now constructor.
Qed.

Lemma runUserFlow_calls flow s :
  exists css,
    calls (snd (runUserFlow drv flow s)) = (calls s ++ concat css)%list
    /\ Forall2 step_calls (steps flow) css.
Proof.
  unfold runUserFlow, push_issue. unfold_monad. simpl.
  match goal with
  | |- context [runSteps drv 0 (steps flow) ?s1] =>
      destruct (runSteps_flow (steps flow) 0 s1) as (rs & Ho & _);
      destruct (runSteps_calls (steps flow) 0 s1) as (css & Hc & Hs);
      destruct (runSteps drv 0 (steps flow) s1) as [o s2]
  end.
  simpl in Ho, Hc. subst o. simpl. exists css.
  destruct (fr_passed (flowResult s2)); simpl; auto.
Qed.

(** C3 (as the code has it): a flow never throws; every step of the flow
    is executed, in order and whatever happened to the steps before it,
    and recorded: the browser calls of the flow are the calls of its steps,
    one group per step, each step making its first call unconditionally, and
    there is exactly one step result per step, numbered from 1, carrying
    the step's action and recording what the step itself did.  A failing
    [goto] is no exception.  The loop itself
    never stops early: after any prefix of the steps it runs the remaining
    ones. *)
Theorem every_step_recorded flow s :
  (exists r,
      fst (runUserFlow drv flow s) = Ok r
      /\ List.length (fr_steps r) = List.length (steps flow)
      /\ map stepNumber (fr_steps r) = seq 1 (List.length (steps flow))
      /\ map sr_action (fr_steps r) = map action (steps flow)
      /\ Forall2 recorded (steps flow) (fr_steps r))
  /\ (exists css,
         calls (snd (runUserFlow drv flow s)) = (calls s ++ concat css)%list
         /\ Forall2 step_calls (steps flow) css)
  /\ (forall before after s0,
         fst (runSteps drv 0 before s0) = Ok tt
         /\ runSteps drv 0 (before ++ after) s0
            = runSteps drv (List.length before) after
                       (snd (runSteps drv 0 before s0))).
Proof.
  split; [|split].
  - destruct (runUserFlow_result flow s) as (rs & Hr & Hn & Ha & _).
    destruct (runUserFlow_full flow s) as (r & Hr' & _ & _ & _ & Hrec & _).
    rewrite Hr in Hr'. injection Hr' as <-. simpl in Hrec.
    eexists. split; [exact Hr|]. simpl. repeat split; auto.
    rewrite <- (length_map stepNumber), Hn. apply length_seq.
  - apply runUserFlow_calls.
  - intros before after s0. split.
    + now destruct (runSteps_flow before 0 s0) as (rs & Ho & _).
    + apply runSteps_app.
Qed.

(** The flow verdict the code computes: [passed] is cleared exactly when
    some step threw, and then that step's own [passed] is false. *)
Lemma flow_verdict flow s :
  exists r,
    fst (runUserFlow drv flow s) = Ok r
    /\ fr_passed r = forallb no_error (fr_steps r)
    /\ (fr_passed r = false -> exists st, In st (fr_steps r) /\ sr_passed st = false).
Proof.
  destruct (runUserFlow_result flow s) as (rs & Hr & _ & _ & Hf).
  eexists. split; [exact Hr|]. simpl. split; [reflexivity|].
  intros H.
  assert (exists st, In st rs /\ no_error st = false) as (st & Hin & Hst).
  { clear Hr Hf. induction rs as [|x rs IH]; simpl in *; [discriminate|].
    destruct (no_error x) eqn:E; [|eauto].
    destruct (IH H) as (st & Hin & Hst). eauto. }
  exists st. split; [assumption|]. rewrite Forall_forall in Hf. auto.
Qed.

(** *** The navigation probe on three links *)

Lemma two_ok_one_missing (a b c : Z) :
  Permutation [a; b; c] [200; 200; 404]%Z ->
  (a = 404 /\ b = 200 /\ c = 200)%Z
  \/ (a = 200 /\ b = 404 /\ c = 200)%Z
  \/ (a = 200 /\ b = 200 /\ c = 404)%Z.
Proof.
  intros H.
  assert (Ha : In a [200; 200; 404]%Z) by (eapply Permutation_in; [exact H | simpl; auto]).
  assert (Hb : In b [200; 200; 404]%Z) by (eapply Permutation_in; [exact H | simpl; auto]).
  assert (Hc : In c [200; 200; 404]%Z) by (eapply Permutation_in; [exact H | simpl; auto]).
  pose proof (proj1 (Permutation_count_occ Z.eq_dec _ _) H 404%Z) as Hn.
  simpl in Ha, Hb, Hc.
  destruct Ha as [<-|[<-|[<-|[]]]], Hb as [<-|[<-|[<-|[]]]], Hc as [<-|[<-|[<-|[]]]];
    simpl in Hn; try discriminate; auto.
Qed.

(** C7 (as the code has it): the navigation-links probe on a page with
    three internal links, two answering 200 and one 404, in any order.
    Whatever the navigation back to the target does, the probe pushes
    exactly one issue, of category Navigation, whose text and details
    report one broken link (the 404), and a result counting three links
    tested, two working and one broken.  The navigation back to the target
    is the last thing the probe does to the page, so the page is left as
    that navigation leaves it: when it returns, and a navigation that
    returns leaves the page at the URL asked for, the page is at the target
    again; when it throws, the location is not restored and a second,
    failed result follows the first. *)
Theorem navigation_probe_restores_location
        (location : W -> string)
        (goto_lands : forall u t w r w',
            drv_goto drv u t w = (Ok r, w') -> location w' = u)
        url s d w1 l1 l2 l3 r1 r2 r3 w2 w3 w4 o w5 :
  drv_evaluate drv (world s) = (Ok d, w1) ->
  navLinks d = [l1; l2; l3] ->
  drv_goto drv (nl_href l1) (Some 5000%Z) w1 = (Ok (Some r1), w2) ->
  drv_goto drv (nl_href l2) (Some 5000%Z) w2 = (Ok (Some r2), w3) ->
  drv_goto drv (nl_href l3) (Some 5000%Z) w3 = (Ok (Some r3), w4) ->
  Permutation [status r1; status r2; status r3] [200; 200; 404]%Z ->
  drv_goto drv url None w4 = (o, w5) ->
  world (snd (runNavigationTests drv url s)) = w5
  /\ match o with
     | Ok _ => location (world (snd (runNavigationTests drv url s))) = url
     | Throw _ => True
     end
  /\ exists i b,
      issues (snd (runNavigationTests drv url s)) = (issues s ++ [i])%list
      /\ category i = Navigation
      /\ severity i = major
      /\ issue i = Some "1 broken internal link(s) found"
      /\ i_details i = DBrokenLinks [b]
      /\ bl_status b = Some 404%Z
      /\ In (bl_href b) [nl_href l1; nl_href l2; nl_href l3]
      /\ qaResults (snd (runNavigationTests drv url s))
         = (qaResults s
            ++ plain "Navigation Links Test" (Js.VBool false)
                     (DNavigation 3 3 2 1 [b]) None
            :: match o with
               | Ok _ => []
               | Throw e => [errored "Navigation Links Test" e]
               end)%list.
Proof.
  intros He Hl H1 H2 H3 Hp Hback.
  assert (Hrun : world (snd (runNavigationTests drv url s)) = w5
                 /\ exists b,
                     bl_status b = Some 404%Z
                     /\ In (bl_href b) [nl_href l1; nl_href l2; nl_href l3]
                     /\ issues (snd (runNavigationTests drv url s))
                        = (issues s
                           ++ [{| severity := major; category := Navigation;
                                  issue := Some "1 broken internal link(s) found";
                                  recommendation :=
                                    "Fix broken navigation links to improve user experience";
                                  i_details := DBrokenLinks [b] |}])%list
                     /\ qaResults (snd (runNavigationTests drv url s))
                        = (qaResults s
                           ++ plain "Navigation Links Test" (Js.VBool false)
                                    (DNavigation 3 3 2 1 [b]) None
                           :: match o with
                              | Ok _ => []
                              | Throw e => [errored "Navigation Links Test" e]
                              end)%list).
  { unfold runNavigationTests, errored. unfold_monad.
    rewrite He. cbn [fst snd]. rewrite Hl. cbn [firstn length testLinks].
    unfold testLink. unfold_monad. cbn [world]. rewrite H1. cbn [status_is].
    apply two_ok_one_missing in Hp
      as [(E1 & E2 & E3)|[(E1 & E2 & E3)|(E1 & E2 & E3)]];
      rewrite E1; cbn; rewrite H2; cbn; rewrite E2; cbn;
      rewrite H3; cbn; rewrite E3; cbn; rewrite Hback; destruct o as [r|e]; cbn;
      (split; [reflexivity|]); eexists; repeat split; cbn; auto;
      rewrite <- ?app_assoc; cbn; congruence. }
  destruct Hrun as (Hw & b & Hb & Hin & Hi & Hr).
  split; [exact Hw|]. split.
  - destruct o as [r|e]; [|exact Logic.I]. rewrite Hw. eapply goto_lands. exact Hback.
  - eexists. exists b. split; [exact Hi|]. simpl. repeat split; auto.
Qed.

(** *** Accessibility findings *)

Lemma filter_indexed_from {A} (p : A -> bool) (l : list A) :
  forall n,
    map snd (filter (fun '(_, x) => p x) (combine (seq n (List.length l)) l))
    = filter p l.
Proof.
  induction l as [|x l IH]; intros n; simpl; [reflexivity|].
  destruct (p x); simpl; now rewrite IH.
Qed.

Lemma missingAlt_length d :
  List.length (missingAlt d) = List.length (filter lacks_alt (images d)).
Proof.
  unfold missingAlt, indexed. rewrite length_map.
  rewrite <- (filter_indexed_from lacks_alt (images d) 0), length_map.
  reflexivity.
Qed.

Lemma labelIssues_run d inputs :
  forall found,
    Forall (fun '(_, c) => exists label, has_label d c = Ok label) inputs ->
    exists l,
      labelIssues d inputs found = Ok (found ++ l)%list
      /\ List.length l
         = List.length (filter (fun '(_, c) => unlabeled d c) inputs).
Proof.
  induction inputs as [|[index input] rest IH]; intros found H; simpl.
  - exists []. now rewrite app_nil_r.
  - inversion H as [|? ? Hhd Hrest]; subst. simpl in Hhd.
    destruct Hhd as [label Hl]. unfold unlabeled at 1. rewrite Hl.
    destruct (negb label && negb (Js.truthy_str (ariaLabel input)))%bool;
      match goal with
      | |- context [labelIssues d rest ?acc] =>
          destruct (IH acc Hrest) as (l & Hr & Hlen); rewrite Hr
      end.
    + eexists (_ :: l). rewrite <- app_assoc. split; [reflexivity|].
      simpl. now rewrite Hlen.
    + eauto.
Qed.

Lemma Forall_indexed_from {A} (P : A -> Prop) (l : list A) :
  Forall P l -> forall n, Forall (fun '(_, x) => P x) (combine (seq n (List.length l)) l).
Proof. induction 1; intros n; simpl; constructor; auto. Qed.

Lemma accessibilityIssues_length d :
  labels_resolve d ->
  exists l,
    accessibilityIssues d = Ok l
    /\ List.length l = List.length (filter (unlabeled d) (controls d)).
Proof.
  intros H. unfold accessibilityIssues, indexed.
  destruct (labelIssues_run d _ [] (Forall_indexed_from _ _ H 0)) as (l & -> & Hlen).
  exists l. split; [reflexivity|].
  rewrite Hlen, <- (filter_indexed_from (unlabeled d) (controls d) 0), length_map.
  reflexivity.
Qed.

Lemma missingAlt_classified d p :
  In p (missingAlt d) ->
  severity (ui_issue p) = minor /\ category (ui_issue p) = UIUX
  /\ issue (ui_issue p) = Some "Missing alt text".
Proof.
  unfold missingAlt. intros H. apply in_map_iff in H as ([n img] & <- & _).
  repeat split.
Qed.

(** The issues a computation adds, when all that matters is that the
    list grows. *)
Lemma tame_grows {A} (m : M W A) Q s :
  tame m Q -> exists fs, issues (snd (m s)) = (issues s ++ fs)%list.
Proof. intros H. destruct (H s) as (cs & rs & fs & (_ & _ & _ & Hi) & _). eauto. Qed.

(** *** A page the browser has settled on *)

Section Settled.

Variables (I : W -> Prop) (P : Dom -> Prop).
Hypothesis Hsettled : settled drv I P.

Lemma keeps_ret {A} (a : A) : keeps I (ret a).
Proof. intros s H. exact H. Qed.

Lemma keeps_get : keeps I get.
Proof. intros s H. exact H. Qed.

Lemma keeps_push_result r : keeps I (push_result r).
Proof. intros s H. exact H. Qed.

Lemma keeps_push_issues l : keeps I (push_issues l).
Proof. intros s H. exact H. Qed.

Lemma keeps_modify_flow f : keeps I (modify_flow f).
Proof. intros s H. exact H. Qed.

Lemma keeps_when b (m : M W unit) : keeps I m -> keeps I (when b m).
Proof. intros H. destruct b; simpl; [assumption | apply keeps_ret]. Qed.

Lemma keeps_bind {A B} (m : M W A) (k : A -> M W B) :
  keeps I m -> (forall a, keeps I (k a)) -> keeps I (bind m k).
Proof.
  intros Hm Hk s H. unfold bind. specialize (Hm s H).
  destruct (m s) as [[a|e] s1]; simpl in *; [now apply Hk | assumption].
Qed.

Lemma keeps_try_catch {A} (m : M W A) (h : string -> M W A) :
  keeps I m -> (forall e, keeps I (h e)) -> keeps I (try_catch m h).
Proof.
  intros Hm Hh s H. unfold try_catch. specialize (Hm s H).
  destruct (m s) as [[a|e] s1]; simpl in *; [assumption | now apply Hh].
Qed.

Lemma keeps_call {A} (c : Call) (op : W -> Outcome A * W) :
  (forall w, I w -> I (snd (op w))) -> keeps I (call c op).
Proof.
  intros Hop s H. unfold call. specialize (Hop _ H).
  now destruct (op (world s)) as [o w].
Qed.

Lemma keeps_evaluate {A} (f : Dom -> Outcome A) : keeps I (evaluate drv f).
Proof.
  intros s H. unfold evaluate, bind, call.
  destruct Hsettled as (He & _). destruct (He _ H) as (d & w' & -> & _ & H').
  exact H'.
Qed.

Ltac keeps_step :=
  first
    [ apply keeps_ret | apply keeps_get | apply keeps_push_result
    | apply keeps_push_issues | apply keeps_modify_flow | apply keeps_evaluate
    | apply keeps_call; intros ? ?;
      destruct Hsettled as (_ & ? & ? & ? & ? & ? & ? & ? & ? & ? & ? & ?); auto
    | apply keeps_when
    | apply keeps_bind; [|intro]
    | apply keeps_try_catch; [|intro] ].

Lemma runBasicTests_keeps url : keeps I (runBasicTests drv url).
Proof. unfold runBasicTests, push_issue. repeat keeps_step. Qed.

Lemma testLinks_keeps links : forall t, keeps I (testLinks drv links t).
Proof.
  induction links as [|link rest IH]; intros t; simpl; [apply keeps_ret|].
  apply keeps_bind; [|intro; apply IH].
  unfold testLink, page_goto. repeat keeps_step.
  destruct (status_is _ _); apply keeps_ret.
Qed.

Lemma runNavigationTests_keeps url : keeps I (runNavigationTests drv url).
Proof.
  unfold runNavigationTests, push_issue, page_goto.
  apply keeps_try_catch; [|intro; apply keeps_push_result].
  apply keeps_bind; [apply keeps_evaluate | intro].
  apply keeps_bind; [apply testLinks_keeps | intro].
  repeat keeps_step.
Qed.

Lemma runFormTests_keeps url : keeps I (runFormTests drv url).
Proof. unfold runFormTests, push_issue. repeat keeps_step. Qed.

Lemma testViewports_keeps vps : forall acc, keeps I (testViewports drv vps acc).
Proof.
  induction vps as [|[vname [width height]] rest IH]; intros acc; simpl;
    [apply keeps_ret|].
  apply keeps_bind; [|intro; apply IH].
  unfold testViewport, push_issue. repeat keeps_step.
Qed.

Lemma runResponsiveTests_keeps url : keeps I (runResponsiveTests drv url).
Proof.
  unfold runResponsiveTests.
  apply keeps_bind; [apply testViewports_keeps | intro; apply keeps_push_result].
Qed.

Lemma runSteps_keeps todo : forall i, keeps I (runSteps drv i todo).
Proof.
  induction todo as [|step rest IH]; intros i; simpl; [apply keeps_ret|].
  apply keeps_bind; [|intro; apply IH].
  unfold runStep. apply keeps_bind; [|intro; apply keeps_modify_flow].
  apply keeps_try_catch; [|intro; repeat keeps_step].
  unfold performStep, page_goto. destruct (action step); repeat keeps_step.
  match goal with a : option nat |- _ => destruct a end; repeat keeps_step.
Qed.

Lemma runUserFlows_keeps flows : keeps I (runUserFlows drv flows).
Proof.
  induction flows as [|flow rest IH]; simpl; [apply keeps_ret|].
  apply keeps_bind; [|intro; apply keeps_bind; [apply keeps_push_result | intro; apply IH]].
  unfold runUserFlow, push_issue.
  apply keeps_bind; [apply keeps_modify_flow | intro].
  apply keeps_bind;
    [apply keeps_try_catch; [apply runSteps_keeps | intro; apply keeps_modify_flow]
    | intro].
  repeat keeps_step.
Qed.

Lemma runSelectedSuite_keeps suite url : keeps I (runSelectedSuite drv suite url).
Proof.
  destruct suite; simpl.
  - apply runBasicTests_keeps.
  - apply keeps_push_result.
  - apply runFormTests_keeps.
  - apply runNavigationTests_keeps.
  - apply runResponsiveTests_keeps.
  - apply keeps_bind; [apply runBasicTests_keeps | intro].
    apply keeps_bind; [apply runNavigationTests_keeps | intro].
    apply keeps_bind; [apply runFormTests_keeps | intro].
    apply runResponsiveTests_keeps.
Qed.

End Settled.

(** *** Accessibility findings *)

Lemma runFormTests_labels I url s :
  settled drv I two_alts_one_label ->
  I (world s) ->
  exists before labels,
    issues (snd (runFormTests drv url s)) = (issues s ++ before ++ [labels])%list
    /\ missing_label_issue labels.
Proof.
  intros Hs Hi. pose proof Hs as (Hev & _).
  destruct (Hev _ Hi) as (d1 & w1 & He1 & _ & Hi1).
  destruct (Hev _ Hi1) as (d2 & w2 & He2 & (_ & Hres & Hlab) & _).
  destruct (accessibilityIssues_length d2 Hres) as (l & Hacc & Hlen).
  rewrite Hlab in Hlen.
  destruct l as [|x [|y l]]; simpl in Hlen; try discriminate Hlen.
  unfold runFormTests. unfold_monad. rewrite He1. cbn [fst snd world].
  destruct (Nat.ltb 0 _); cbn [fst snd world calls browser qaResults issues flowResult];
    rewrite He2; cbn [fst snd world calls browser qaResults issues flowResult];
    rewrite Hacc;
    cbn [List.length Nat.ltb Nat.leb fst snd world calls browser qaResults issues
         flowResult].
  - eexists [_], _. rewrite <- app_assoc. split; [reflexivity|]. repeat split.
  - eexists [], _. split; [reflexivity|]. repeat split.
Qed.

Lemma assessUIQuality_alts I s :
  settled drv I two_alts_one_label ->
  I (world s) ->
  exists before img1 img2,
    issues (snd (assessUIQuality drv s)) = (issues s ++ before ++ [img1; img2])%list
    /\ missing_alt_issue img1 /\ missing_alt_issue img2.
Proof.
  intros (Hev & _) Hi. destruct (Hev _ Hi) as (d & w1 & He & (Halt & _) & _).
  rewrite <- missingAlt_length in Halt.
  destruct (missingAlt d) as [|p1 [|p2 [|p3 l]]] eqn:E; try discriminate.
  assert (H1 : In p1 (missingAlt d)) by (rewrite E; simpl; auto).
  assert (H2 : In p2 (missingAlt d)) by (rewrite E; simpl; auto).
  apply missingAlt_classified in H1, H2.
  unfold assessUIQuality. unfold_monad. rewrite He.
  cbn [fst snd world calls browser qaResults issues flowResult].
  unfold uiProblems. rewrite E, length_app.
  replace (Nat.ltb 0 (List.length (smallText d) + List.length [p1; p2])) with true
    by (symmetry; apply Nat.ltb_lt; simpl; lia).
  cbn [fst snd world calls browser qaResults issues flowResult].
  rewrite map_app.
  exists (map ui_issue (smallText d)), (ui_issue p1), (ui_issue p2).
  split; [reflexivity|]. split; assumption.
Qed.

Lemma suite_labels I suite url s a :
  settled drv I two_alts_one_label ->
  I (world s) ->
  suite = forms \/ suite = comprehensive ->
  fst (runSelectedSuite drv suite url s) = Ok a ->
  exists pre labels post,
    issues (snd (runSelectedSuite drv suite url s))
    = (issues s ++ pre ++ [labels] ++ post)%list
    /\ missing_label_issue labels.
Proof.
  intros Hs Hi [-> | ->] H; simpl in *.
  - destruct (runFormTests_labels I url s Hs Hi) as (before & labels & -> & Hl).
    exists before, labels, []. auto.
  - pose proof (runBasicTests_keeps I _ Hs url s Hi) as Hi1.
    apply bind_Ok in H as (? & _ & H & ->).
    pose proof (runNavigationTests_keeps I _ Hs url _ Hi1) as Hi2.
    apply bind_Ok in H as (? & _ & H & ->).
    apply bind_Ok in H as (? & _ & H & ->).
    match goal with |- context [runResponsiveTests drv url ?s3] =>
      destruct (tame_grows _ _ s3 (runResponsiveTests_tame url)) as (f4 & ->) end.
    match goal with |- context [runFormTests drv url ?s2] =>
      destruct (runFormTests_labels I url s2 Hs Hi2) as (before & labels & -> & Hl) end.
    match goal with |- context [runNavigationTests drv url ?s1] =>
      destruct (tame_grows _ _ s1 (runNavigationTests_tame url)) as (f2 & ->) end.
    destruct (tame_grows _ _ s (runBasicTests_tame url)) as (f1 & ->).
    exists (f1 ++ f2 ++ before)%list, labels, f4.
    split; [|assumption]. now rewrite <- !app_assoc.
Qed.

Lemma probes_findings I args s reply :
  settled drv I two_alts_one_label ->
  I (world s) ->
  testSuite args = forms \/ testSuite args = comprehensive ->
  fst (probes args s) = Ok reply ->
  exists pre labels mid img1 img2 post,
    issues (snd (probes args s))
    = (issues s ++ pre ++ [labels] ++ mid ++ [img1; img2] ++ post)%list
    /\ missing_label_issue labels
    /\ missing_alt_issue img1 /\ missing_alt_issue img2.
Proof.
  intros Hs Hi Hsuite H. unfold probes in *.
  pose proof (runSelectedSuite_keeps I _ Hs (testSuite args) (url args) s Hi) as Hi1.
  apply bind_Ok in H as (? & H1 & H & ->).
  pose proof (runUserFlows_keeps I _ Hs (userFlows args) _ Hi1) as Hi2.
  apply bind_Ok in H as (? & _ & H & ->).
  apply bind_Ok in H as (? & _ & H & ->).
  apply bind_Ok in H as (? & _ & H & ->).
  apply bind_Ok in H as (? & _ & H & ->).
  apply bind_Ok in H as (? & _ & H & ->).
  clear H. unfold bind at 1, get, ret. cbn [fst snd].
  unfold push_result. cbn [fst snd world calls browser qaResults issues flowResult].
  match goal with |- context [assessPerformance drv ?s4] =>
    destruct (tame_grows _ _ s4 assessPerformance_tame) as (post & ->) end.
  cbn [fst snd world calls browser qaResults issues flowResult].
  match goal with |- context [assessUIQuality drv ?s2] =>
    destruct (assessUIQuality_alts I s2 Hs Hi2)
      as (before & img1 & img2 & -> & Hi1' & Hi2') end.
  match goal with |- context [runUserFlows drv ?fl ?s1] =>
    destruct (tame_grows _ _ s1 (runUserFlows_tame fl)) as (f2 & ->) end.
  destruct (suite_labels I _ _ _ _ Hs Hi Hsuite H1) as (pre & labels & m1 & -> & Hl).
  exists pre, labels, (m1 ++ f2 ++ before)%list, img1, img2, post.
  split; [|auto]. now rewrite <- !app_assoc.
Qed.

Lemma checked_findings I args s reply :
  settled drv I two_alts_one_label ->
  I (snd (drv_goto drv (url args) (Some 10000%Z) (world s))) ->
  testSuite args = forms \/ testSuite args = comprehensive ->
  fst (checked args s) = Ok reply ->
  exists pre labels mid img1 img2 post,
    issues (snd (checked args s))
    = (issues s ++ pre ++ [labels] ++ mid ++ [img1; img2] ++ post)%list
    /\ missing_label_issue labels
    /\ missing_alt_issue img1 /\ missing_alt_issue img2.
Proof.
  intros Hs Hi Hsuite H. unfold checked in *.
  apply bind_Ok in H as (r & Hr & H & ->).
  apply bind_Ok in H as (? & _ & H & ->).
  apply bind_Ok in H as (? & _ & H & ->).
  destruct (testConnectivity_run (url args) s) as (r' & _ & _ & _ & Hst).
  match type of H with
  | fst (probes args ?s2) = _ =>
      assert (Hi2 : I (world s2))
  end.
  { rewrite Hst. unfold push_result, when, push_issue, push_issues, ret.
    destruct (negb (Js.truthy (passed r))); exact Hi. }
  destruct (probes_findings I _ _ _ Hs Hi2 Hsuite H)
    as (pre & labels & mid & img1 & img2 & post & -> & Hfacts).
  rewrite Hst.
  unfold push_result, when, push_issue, push_issues, ret.
  destruct (negb (Js.truthy (passed r)));
    cbn [fst snd world calls browser qaResults issues flowResult].
  - exists (connectivity_issue r :: pre), labels, mid, img1, img2, post.
    split; [|assumption]. now rewrite <- !app_assoc.
  - exists pre, labels, mid, img1, img2, post. auto.
Qed.


(** * Further properties of the probes *)

(** ** Error containment *)

(** X1: the connectivity test, the navigation, form and responsive
    probes and the scripted flows never throw, whatever the browser does:
    every failure of theirs ends up in a result. *)
Theorem probes_contain_errors url flow flows s :
  (exists r, fst (testConnectivity drv url s) = Ok r)
  /\ fst (runNavigationTests drv url s) = Ok tt
  /\ fst (runFormTests drv url s) = Ok tt
  /\ fst (runResponsiveTests drv url s) = Ok tt
  /\ (exists r, fst (runUserFlow drv flow s) = Ok r)
  /\ fst (runUserFlows drv flows s) = Ok tt.
Proof.
  split.
  { destruct (testConnectivity_run url s) as (r & Ho & _). eauto. }
  split.
  { now destruct (runNavigationTests_tame url s) as (? & ? & ? & _ & _ & _ & Ho & _). }
  split.
  { now destruct (runFormTests_tame url s) as (? & ? & ? & _ & _ & _ & Ho & _). }
  split.
  { now destruct (runResponsiveTests_tame url s) as (? & ? & ? & _ & _ & _ & Ho & _). }
  split.
  { destruct (runUserFlow_result flow s) as (rs & Ho & _). eauto. }
  now destruct (runUserFlows_tame flows s) as (? & ? & ? & _ & _ & _ & Ho & _).
Qed.

(** ** The navigation probe *)

Lemma testLink_run t link s :
  exists t',
    fst (testLink drv t link s) = Ok t'
    /\ calls (snd (testLink drv t link s)) = (calls s ++ [link_call link])%list
    /\ qaResults (snd (testLink drv t link s)) = qaResults s
    /\ issues (snd (testLink drv t link s)) = issues s
    /\ working t' + broken t' = S (working t + broken t)
    /\ List.length (brokenDetails t') + broken t
       = List.length (brokenDetails t) + broken t'.
Proof.
  unfold testLink, link_call. unfold_monad.
  destruct (drv_goto drv (nl_href link) (Some 5000%Z) (world s)) as [[response|e] w1];
    simpl; [destruct (status_is response 200%Z); simpl|];
    eexists; repeat split; simpl; rewrite ?length_app; simpl; lia.
Qed.

Lemma testLinks_run links :
  forall t s,
  exists t',
    fst (testLinks drv links t s) = Ok t'
    /\ calls (snd (testLinks drv links t s)) = (calls s ++ map link_call links)%list
    /\ qaResults (snd (testLinks drv links t s)) = qaResults s
    /\ issues (snd (testLinks drv links t s)) = issues s
    /\ working t' + broken t' = working t + broken t + List.length links
    /\ List.length (brokenDetails t') + broken t
       = List.length (brokenDetails t) + broken t'.
Proof.
  induction links as [|link rest IH]; intros t s; simpl.
  - exists t. unfold ret. simpl. rewrite app_nil_r. repeat split; lia.
  - unfold bind.
    destruct (testLink_run t link s) as (t1 & Ho & Hc & Hr & Hi & Hsum & Hlen).
    destruct (testLink drv t link s) as [o s1]. simpl in Ho, Hc, Hr, Hi. subst o.
    destruct (IH t1 s1) as (t' & Ho' & Hc' & Hr' & Hi' & Hsum' & Hlen').
    exists t'. rewrite Hc', Hr', Hi', Hc, Hr, Hi, <- app_assoc.
    repeat split; auto; lia.
Qed.

(** The probe once the link inventory has been read. *)
Lemma runNavigationTests_run url s d w1 :
  drv_evaluate drv (world s) = (Ok d, w1) ->
  exists t w4,
    working t + broken t = Nat.min 10 (List.length (navLinks d))
    /\ List.length (brokenDetails t) = broken t
    /\ calls (snd (runNavigationTests drv url s))
       = (calls s ++ CEvaluate :: map link_call (firstn 10 (navLinks d))
                ++ [CGoto url None])%list
    /\ issues (snd (runNavigationTests drv url s))
       = (issues s ++ (if Nat.eqb (broken t) 0 then []
                       else [broken_links_issue (broken t) (brokenDetails t)]))%list
    /\ world (snd (runNavigationTests drv url s)) = snd (drv_goto drv url None w4)
    /\ qaResults (snd (runNavigationTests drv url s))
       = (qaResults s
          ++ plain "Navigation Links Test" (Js.VBool (Nat.eqb (broken t) 0))
                   (DNavigation (List.length (navLinks d))
                                (Nat.min 10 (List.length (navLinks d)))
                                (working t) (broken t) (brokenDetails t))
                   None
          :: match fst (drv_goto drv url None w4) with
             | Ok _ => []
             | Throw e => [errored "Navigation Links Test" e]
             end)%list.
Proof.
  intros He. unfold runNavigationTests, broken_links_issue, errored.
  unfold_monad. rewrite He.
  cbn [fst snd world calls browser qaResults issues flowResult].
  match goal with
  | |- context [testLinks drv ?l ?t0 ?s1] =>
      destruct (testLinks_run l t0 s1) as (t & Ho & Hc & Hr & Hi & Hsum & Hlen);
      destruct (testLinks drv l t0 s1) as [o s2]
  end.
  cbn [fst snd world calls browser qaResults issues flowResult working broken
       brokenDetails List.length] in *.
  subst o. rewrite length_firstn in *.
  exists t, (world s2).
  split; [lia|]. split; [lia|].
  destruct (broken t) as [|b] eqn:Eb;
    cbn [Nat.ltb Nat.leb Nat.eqb fst snd world calls browser qaResults issues flowResult];
    destruct (drv_goto drv url None (world s2)) as [[r|e] w5];
    cbn [fst snd world calls browser qaResults issues flowResult];
    rewrite Hc, Hr, Hi, <- ?app_assoc, ?app_nil_r; cbn [app]; repeat split.
Qed.

(** X2: once the link inventory has been read, the navigation probe makes
    exactly these calls: one navigation with a 5 second timeout per link,
    for the first ten links of the inventory in document order, whatever
    the earlier ones answered, and then one navigation back to the target. *)
Theorem navigation_probe_calls url s d w1 :
  drv_evaluate drv (world s) = (Ok d, w1) ->
  calls (snd (runNavigationTests drv url s))
  = (calls s ++ CEvaluate :: map link_call (firstn 10 (navLinks d))
            ++ [CGoto url None])%list.
Proof.
  intros He. destruct (runNavigationTests_run url s d w1 He) as (t & w4 & _ & _ & Hc & _).
  exact Hc.
Qed.

(** X3: the bookkeeping of the navigation probe.  Its result counts all
    links found and [min 10 found] links tested; working and broken links
    add up to the links tested; there is one detail per broken link; the
    result passes exactly when no link is broken, and exactly then no
    issue is pushed; otherwise the one issue pushed carries the count and
    the details.  When the navigation back to the target throws, a second,
    failed result of the same name follows the first. *)
Theorem navigation_probe_tally url s d w1 :
  drv_evaluate drv (world s) = (Ok d, w1) ->
  exists nworking nbroken details w4,
    nworking + nbroken = Nat.min 10 (List.length (navLinks d))
    /\ List.length details = nbroken
    /\ issues (snd (runNavigationTests drv url s))
       = (issues s ++ (if Nat.eqb nbroken 0 then []
                       else [broken_links_issue nbroken details]))%list
    /\ qaResults (snd (runNavigationTests drv url s))
       = (qaResults s
          ++ plain "Navigation Links Test" (Js.VBool (Nat.eqb nbroken 0))
                   (DNavigation (List.length (navLinks d))
                                (Nat.min 10 (List.length (navLinks d)))
                                nworking nbroken details)
                   None
          :: match fst (drv_goto drv url None w4) with
             | Ok _ => []
             | Throw e => [errored "Navigation Links Test" e]
             end)%list.
Proof.
  intros He.
  destruct (runNavigationTests_run url s d w1 He)
    as (t & w4 & Hsum & Hlen & _ & Hi & _ & Hr).
  exists (working t), (broken t), (brokenDetails t), w4. auto.
Qed.

(** ** The basic checks *)

(** X4: the basic checks throw only when the two second wait for page
    errors throws.  The title check and the image check each push their
    result even when their own call throws; if the wait then throws, the
    exception leaves the function with those two results pushed and the
    JavaScript check missing. *)
Theorem basic_tests_outcome url s :
  exists rs w,
    qaResults (snd (runBasicTests drv url s)) = (qaResults s ++ rs)%list
    /\ match drv_waitForTimeout drv 2000%Z w with
       | (Ok _, _) =>
           fst (runBasicTests drv url s) = Ok tt /\ names rs = basic_names
       | (Throw e, _) =>
           fst (runBasicTests drv url s) = Throw e
           /\ names rs = ["Page Title Check"; "Broken Images Check"]
       end.
Proof.
  unfold runBasicTests. unfold_monad. crunch;
    match goal with
    | H : drv_waitForTimeout drv _ ?w = _ |- _ => eexists; exists w; rewrite H
    end;
    simpl; rewrite <- ?app_assoc; simpl; repeat split.
Qed.

(** ** The envelope of the invocation *)

Lemma attempt_browser args w :
  browser (snd (attempt drv args (start w))) = true ->
  exists w1, drv_launch drv w = (Ok tt, w1).
Proof.
  pose proof (attempt_cases args w) as Hc.
  destruct (drv_launch drv w) as [[[]|e] w1]; [eauto|].
  rewrite Hc. discriminate.
Qed.

Lemma close_escapes args w e :
  fst (functionalQATool drv args w) = Throw e ->
  (exists w1, drv_launch drv w = (Ok tt, w1))
  /\ exists w2 w3, drv_close drv w2 = (Throw e, w3).
Proof.
  unfold functionalQATool, try_finally, try_catch, rescue, cleanup. unfold_monad.
  pose proof (attempt_browser args w) as Hb.
  destruct (attempt drv args (start w)) as [[reply|e'] s1]; simpl in *;
    destruct (browser s1); simpl; try discriminate;
    destruct (drv_close drv (world s1)) as [[[]|e''] w3] eqn:E; simpl;
    try discriminate; intros [= <-]; eauto.
Qed.

(** X5: an exception leaves the exported function in two ways only.
    Either the schema rejects the arguments: the [ZodError] is thrown
    before the [try] block and before the browser is touched.  Or the
    arguments are valid, the browser was launched, and [browser.close()]
    throws in the [finally] block.  Every other failure is turned into a
    reply by the [catch] block. *)
Theorem only_validation_and_close_escape raw w :
  thrown (functionalQATool_any drv raw w) = true ->
  (FunctionalQAArgsSchema_parse raw = None
   /\ functionalQATool_any drv raw w = Invalid)
  \/ (exists args e,
         FunctionalQAArgsSchema_parse raw = Some args
         /\ fst (functionalQATool drv args w) = Throw e
         /\ (exists w1, drv_launch drv w = (Ok tt, w1))
         /\ exists w2 w3, drv_close drv w2 = (Throw e, w3)).
Proof.
  unfold functionalQATool_any.
  destruct (FunctionalQAArgsSchema_parse raw) as [args|]; [|auto].
  destruct (fst (functionalQATool drv args w)) as [reply|e] eqn:E; simpl;
    [discriminate|].
  intros _. right. exists args, e.
  destruct (close_escapes args w e E) as (Hl & Hc). auto.
Qed.

(** X6: when [puppeteer.launch] throws, the invocation makes no other
    call, in particular no [close], and replies with the error envelope
    carrying the launch error and zero completed tests and issues. *)
Theorem launch_failure_envelope args w e w1 :
  drv_launch drv w = (Throw e, w1) ->
  fst (functionalQATool drv args w)
  = Ok (Failure e ("Functional QA FAILED: " ++ url args ++ " - " ++ e) 0 0)
  /\ calls (snd (functionalQATool drv args w)) = [CLaunch]
  /\ world (snd (functionalQATool drv args w)) = w1.
Proof.
  intros Hl. pose proof (attempt_cases args w) as Hc. rewrite Hl in Hc.
  unfold functionalQATool, try_finally, try_catch, rescue, cleanup. unfold_monad.
  rewrite Hc. simpl. repeat split.
Qed.

(** X7: an error envelope is the reply only when the [try] block threw:
    it carries that error's message, the fixed summary text with the target
    and the message, and the numbers of results and of issues collected up
    to the throw; the results and issues themselves are not part of the
    reply. *)
Theorem failure_envelope args w e text n k :
  fst (functionalQATool drv args w) = Ok (Failure e text n k) ->
  fst (attempt drv args (start w)) = Throw e
  /\ text = "Functional QA FAILED: " ++ url args ++ " - " ++ e
  /\ n = List.length (qaResults (snd (functionalQATool drv args w)))
  /\ k = List.length (issues (snd (functionalQATool drv args w))).
Proof.
  intros H. destruct (tool_state args w) as (Hr & Hi & _). rewrite Hr, Hi. clear Hr Hi.
  revert H.
  unfold functionalQATool, try_finally, try_catch, rescue, cleanup. unfold_monad.
  pose proof (fun r => checked_reply args (launched args r)) as Hrep.
  pose proof (report_run args w) as Hrun.
  destruct (attempt drv args (start w)) as [[reply|e'] s1] eqn:Ea; simpl.
  - destruct (Hrun reply eq_refl) as (w3 & Hc).
    assert (Hreply := Hrep w3 reply). rewrite <- Hc in Hreply. simpl in Hreply.
    rewrite (Hreply eq_refl).
    destruct (browser s1); simpl;
      try destruct (drv_close drv (world s1)) as [[[]|e''] w'']; simpl; discriminate.
  - destruct (browser s1); simpl;
      try destruct (drv_close drv (world s1)) as [[[]|e''] w'']; simpl;
      try discriminate; intros [= <- <- <- <-]; repeat split.
Qed.

(** X8: after a successful launch the call log of the invocation starts
    with the launch and ends with the one [close]; no call is made on the
    browser after it has been closed. *)
Theorem close_is_last args w w1 :
  drv_launch drv w = (Ok tt, w1) ->
  exists cs,
    calls (snd (functionalQATool drv args w)) = (CLaunch :: cs ++ [CClose])%list
    /\ no_close cs = true.
Proof.
  intros Hl. destruct (tool_state args w) as (_ & _ & ->).
  pose proof (attempt_cases args w) as Hc. rewrite Hl in Hc.
  destruct (drv_newPage drv w1) as [[[]|e] w2];
    [|rewrite Hc; exists [CNewPage]; split; reflexivity].
  destruct (drv_setViewport drv (viewport args) w2) as [[[]|e] w3];
    [|rewrite Hc; exists [CNewPage; CSetViewport (viewport args)]; split; reflexivity].
  rewrite Hc.
  destruct (checked_run args (launched args w3))
    as (r & cs & rs & fs & _ & _ & -> & -> & Hnc & _).
  exists ([CNewPage; CSetViewport (viewport args)] ++ cs)%list.
  split; [unfold launched; simpl; reflexivity|].
  apply no_close_app; [reflexivity | assumption].
Qed.

(** X9: whatever the suite and whether it returns or throws, running it
    only appends to the results and to the issues collected so far: nothing
    already collected is dropped or reordered; it never closes the browser,
    never reports a connectivity issue, and every accessibility issue it
    reports is major.  The same holds for the custom flows. *)
Theorem suite_only_appends suite url flows s :
  (exists cs rs fs,
      extends s (snd (runSelectedSuite drv suite url s)) cs rs fs
      /\ no_close cs = true /\ probe_issues fs = true)
  /\ (exists cs rs fs,
         extends s (snd (runUserFlows drv flows s)) cs rs fs
         /\ no_close cs = true /\ probe_issues fs = true).
Proof.
  split.
  - destruct (runSelectedSuite_tame suite url s) as (cs & rs & fs & He & Hc & Hf & _).
    eauto 6.
  - destruct (runUserFlows_tame flows s) as (cs & rs & fs & He & Hc & Hf & _).
    eauto 6.
Qed.

(** ** Severities and the order of calls *)

Lemma same_selector_refl a : same_selector a a = true.
Proof. destruct a; simpl; [apply String.eqb_refl | reflexivity]. Qed.

Lemma guarded_app c1 :
  forall c2 prev,
    guarded prev c1 = true -> (forall q, guarded q c2 = true) ->
    guarded prev (c1 ++ c2) = true.
Proof.
  induction c1 as [|c rest IH]; simpl; intros c2 prev H1 H2; [apply H2|].
  apply andb_prop in H1 as [-> H1]. simpl. now apply IH.
Qed.

Lemma steady_bind {A B} (m : M W A) (k : A -> M W B) :
  steady m -> (forall a, steady (k a)) -> steady (bind m k).
Proof.
  intros Hm Hk s. unfold bind.
  destruct (Hm s) as (c1 & f1 & Hc1 & Hf1 & Hg1 & Hs1).
  destruct (m s) as [[a|e] s1]; simpl in *.
  - destruct (Hk a s1) as (c2 & f2 & Hc2 & Hf2 & Hg2 & Hs2).
    exists (c1 ++ c2)%list, (f1 ++ f2)%list.
    rewrite Hc2, Hf2, Hc1, Hf1, <- !app_assoc, forallb_app, Hs1, Hs2.
    repeat split. intros prev. now apply guarded_app.
  - exists c1, f1. auto.
Qed.

Lemma steady_try_catch {A} (m : M W A) (h : string -> M W A) :
  steady m -> (forall e, steady (h e)) -> steady (try_catch m h).
Proof.
  intros Hm Hh s. unfold try_catch.
  destruct (Hm s) as (c1 & f1 & Hc1 & Hf1 & Hg1 & Hs1).
  destruct (m s) as [[a|e] s1]; simpl in *.
  - exists c1, f1. auto.
  - destruct (Hh e s1) as (c2 & f2 & Hc2 & Hf2 & Hg2 & Hs2).
    exists (c1 ++ c2)%list, (f1 ++ f2)%list.
    rewrite Hc2, Hf2, Hc1, Hf1, <- !app_assoc, forallb_app, Hs1, Hs2.
    repeat split. intros prev. now apply guarded_app.
Qed.

Lemma steady_try_finally {A} (m : M W A) (f : M W unit) :
  steady m -> steady f -> steady (try_finally m f).
Proof.
  intros Hm Hf s. unfold try_finally.
  destruct (Hm s) as (c1 & f1 & Hc1 & Hf1 & Hg1 & Hs1).
  destruct (m s) as [o s1]; simpl in *.
  destruct (Hf s1) as (c2 & f2 & Hc2 & Hf2 & Hg2 & Hs2).
  exists (c1 ++ c2)%list, (f1 ++ f2)%list.
  destruct (f s1) as [[[]|e] s2]; simpl in *;
    rewrite Hc2, Hf2, Hc1, Hf1, <- !app_assoc, forallb_app, Hs1, Hs2;
    repeat split; intros prev; now apply guarded_app.
Qed.

(** Straight-line code: run it symbolically and read the two lists off. *)
Ltac steady_run :=
  intros s; unfold_monad; crunch; do 2 eexists; simpl;
  (split; [rewrite <- ?app_assoc; first [reflexivity | symmetry; apply app_nil_r]|]);
  (split; [rewrite <- ?app_assoc; first [reflexivity | symmetry; apply app_nil_r]|]);
  (split; [intros prev; simpl; unfold awaited; simpl;
           rewrite ?same_selector_refl; reflexivity
          | try reflexivity]).

Lemma steady_ret {A} (a : A) : steady (ret a).
Proof. steady_run. Qed.

Lemma steady_get : steady get.
Proof. steady_run. Qed.

Lemma steady_push_result r : steady (push_result r).
Proof. steady_run. Qed.

Lemma steady_modify_flow f : steady (modify_flow f).
Proof. steady_run. Qed.

Lemma steady_set_browser : steady set_browser.
Proof. steady_run. Qed.

Lemma steady_call {A} (c : Call) (op : W -> Outcome A * W) :
  acts_on c = None -> steady (call c op).
Proof.
  intros Hc s. unfold call. destruct (op (world s)) as [o w].
  exists [c], []. simpl. rewrite app_nil_r. repeat split.
  intros prev. unfold awaited. now rewrite Hc.
Qed.

Lemma steady_evaluate {A} (f : Dom -> Outcome A) : steady (evaluate drv f).
Proof. steady_run. Qed.

Lemma steady_push_issues l : forallb graded l = true -> steady (push_issues l).
Proof. intros Hl s. exists [], l. unfold push_issues. simpl. now rewrite app_nil_r. Qed.

Lemma steady_when b (m : M W unit) : steady m -> steady (when b m).
Proof. intros H. destruct b; simpl; [assumption | apply steady_ret]. Qed.

Ltac steady_step :=
  first
    [ apply steady_ret | apply steady_get | apply steady_push_result
    | apply steady_modify_flow | apply steady_set_browser | apply steady_evaluate
    | apply steady_call; reflexivity
    | apply steady_push_issues; reflexivity
    | apply steady_when
    | apply steady_bind; [|intro]
    | apply steady_try_catch; [|intro] ].

Lemma testConnectivity_steady url : steady (testConnectivity drv url).
Proof. unfold testConnectivity, page_goto. repeat steady_step. Qed.

Lemma runBasicTests_steady url : steady (runBasicTests drv url).
Proof. unfold runBasicTests, push_issue. repeat steady_step. Qed.

Lemma testLinks_steady links : forall t, steady (testLinks drv links t).
Proof.
  induction links as [|link rest IH]; intros t; simpl; [apply steady_ret|].
  apply steady_bind; [|intro; apply IH].
  unfold testLink, page_goto. repeat steady_step.
  destruct (status_is _ _); apply steady_ret.
Qed.

Lemma runNavigationTests_steady url : steady (runNavigationTests drv url).
Proof.
  unfold runNavigationTests, push_issue, page_goto.
  apply steady_try_catch; [|intro; apply steady_push_result].
  apply steady_bind; [apply steady_evaluate | intro].
  apply steady_bind; [apply testLinks_steady | intro].
  repeat steady_step.
Qed.

Lemma runFormTests_steady url : steady (runFormTests drv url).
Proof. unfold runFormTests, push_issue. repeat steady_step. Qed.

Lemma testViewports_steady vps : forall acc, steady (testViewports drv vps acc).
Proof.
  induction vps as [|[vname [width height]] rest IH]; intros acc; simpl;
    [apply steady_ret|].
  apply steady_bind; [|intro; apply IH].
  unfold testViewport, push_issue. repeat steady_step.
Qed.

Lemma runResponsiveTests_steady url : steady (runResponsiveTests drv url).
Proof.
  unfold runResponsiveTests.
  apply steady_bind; [apply testViewports_steady | intro; apply steady_push_result].
Qed.

Lemma runStep_steady i step : steady (runStep drv i step).
Proof.
  unfold runStep. apply steady_bind; [|intro; apply steady_modify_flow].
  apply steady_try_catch; [|intro; repeat steady_step].
  unfold performStep, page_goto. destruct (action step).
  - repeat steady_step.
  - steady_run.
  - steady_run.
  - repeat steady_step.
  - apply steady_ret.
  - apply steady_bind; [apply steady_call; reflexivity | intros [h|]];
      repeat steady_step.
Qed.

Lemma runSteps_steady todo : forall i, steady (runSteps drv i todo).
Proof.
  induction todo as [|step rest IH]; intros i; simpl; [apply steady_ret|].
  apply steady_bind; [apply runStep_steady | intro; apply IH].
Qed.

Lemma runUserFlow_steady flow : steady (runUserFlow drv flow).
Proof.
  unfold runUserFlow, push_issue.
  apply steady_bind; [apply steady_modify_flow | intro].
  apply steady_bind;
    [apply steady_try_catch; [apply runSteps_steady | intro; apply steady_modify_flow]
    | intro].
  repeat steady_step.
Qed.

Lemma runUserFlows_steady flows : steady (runUserFlows drv flows).
Proof.
  induction flows as [|flow rest IH]; simpl; [apply steady_ret|].
  apply steady_bind; [apply runUserFlow_steady | intro].
  apply steady_bind; [apply steady_push_result | intro; apply IH].
Qed.

Lemma ui_issues_graded l : forallb graded (map ui_issue l) = true.
Proof. induction l as [|p l IH]; simpl; [reflexivity | assumption]. Qed.

Lemma assessUIQuality_steady : steady (assessUIQuality drv).
Proof.
  unfold assessUIQuality.
  apply steady_bind; [apply steady_evaluate | intro].
  apply steady_bind; [|intro; apply steady_ret].
  apply steady_when, steady_push_issues, ui_issues_graded.
Qed.

Lemma assessPerformance_steady : steady (assessPerformance drv).
Proof.
  unfold assessPerformance.
  apply steady_bind; [apply steady_call; reflexivity | intro].
  apply steady_bind; [apply steady_evaluate | intro].
  apply steady_bind; [|intro; apply steady_ret].
  apply steady_push_issues. unfold performanceIssues.
  now destruct (Z.ltb _ _), (Z.ltb _ _).
Qed.

Lemma runSelectedSuite_steady suite url : steady (runSelectedSuite drv suite url).
Proof.
  destruct suite; simpl.
  - apply runBasicTests_steady.
  - apply steady_push_result.
  - apply runFormTests_steady.
  - apply runNavigationTests_steady.
  - apply runResponsiveTests_steady.
  - apply steady_bind; [apply runBasicTests_steady | intro].
    apply steady_bind; [apply runNavigationTests_steady | intro].
    apply steady_bind; [apply runFormTests_steady | intro].
    apply runResponsiveTests_steady.
Qed.

Lemma attempt_steady args : steady (attempt drv args).
Proof.
  unfold attempt, push_issue.
  do 4 (apply steady_bind; [steady_step | intro]).
  apply steady_bind; [apply testConnectivity_steady | intro].
  apply steady_bind; [apply steady_push_result | intro].
  apply steady_bind; [apply steady_when, steady_push_issues; reflexivity | intro].
  apply steady_bind; [apply runSelectedSuite_steady | intro].
  apply steady_bind; [apply runUserFlows_steady | intro].
  apply steady_bind; [apply assessUIQuality_steady | intro].
  apply steady_bind; [apply steady_push_result | intro].
  apply steady_bind; [apply assessPerformance_steady | intro].
  apply steady_bind; [apply steady_push_result | intro].
  apply steady_bind; [apply steady_get | intro]. apply steady_ret.
Qed.

Lemma tool_steady args w :
  exists cs fs,
    calls (snd (functionalQATool drv args w)) = cs
    /\ issues (snd (functionalQATool drv args w)) = fs
    /\ (forall prev, guarded prev cs = true)
    /\ forallb graded fs = true.
Proof.
  assert (H : steady (try_finally (try_catch (attempt drv args) (rescue args))
                                  (cleanup drv))).
  { apply steady_try_finally.
    - apply steady_try_catch; [apply attempt_steady | intro].
      unfold rescue. repeat steady_step.
    - unfold cleanup. repeat steady_step. }
  destruct (H (start w)) as (cs & fs & Hc & Hf & Hg & Hs).
  exists cs, fs. auto.
Qed.

(** X10: the severity of an issue is decided by its category, in every
    run and whichever way the run ends: connectivity and JavaScript issues
    are critical; content, navigation, form, accessibility, responsive
    design and user flow issues are major; SEO and UI/UX issues are minor;
    performance issues are major or minor.  In particular a critical issue
    can only come from the connectivity test or the JavaScript check. *)
Theorem severity_by_category args w :
  forallb graded (issues (snd (functionalQATool drv args w))) = true.
Proof. destruct (tool_steady args w) as (cs & fs & _ & -> & _ & Hs). exact Hs. Qed.

(** X11: the tool never clicks or types into an element it has not just
    waited for: in the call log of every invocation, each [click] and each
    [type] comes right after a [waitForSelector] on the same selector. *)
Theorem clicks_are_awaited args w :
  guarded CLaunch (calls (snd (functionalQATool drv args w))) = true.
Proof. destruct (tool_steady args w) as (cs & fs & -> & _ & Hg & _). apply Hg. Qed.

(** ** The responsive probe *)

Lemma testViewport_run acc vp s :
  exists r fs cs,
    fst (testViewport drv acc vp s) = Ok (acc ++ [r])%list
    /\ vr_viewport r = fst vp
    /\ vr_passed r = fits r
    /\ qaResults (snd (testViewport drv acc vp s)) = qaResults s
    /\ issues (snd (testViewport drv acc vp s)) = (issues s ++ fs)%list
    /\ List.length fs = (if scrolls r then 1 else 0)
    /\ forallb responsive_issue fs = true
    /\ calls (snd (testViewport drv acc vp s)) = (calls s ++ cs)%list
    /\ viewport_calls cs = [snd vp].
Proof.
  destruct vp as [vname [width height]].
  unfold testViewport. unfold_monad. crunch; do 3 eexists; simpl;
    (split; [reflexivity|]); simpl;
    do 3 (split; [reflexivity|]);
    (split; [first [symmetry; apply app_nil_r | reflexivity]|]);
    do 2 (split; [reflexivity|]);
    (split; [rewrite <- ?app_assoc; reflexivity|]); reflexivity.
Qed.

Lemma testViewports_run vps :
  forall acc s,
  exists rs fs cs,
    fst (testViewports drv vps acc s) = Ok (acc ++ rs)%list
    /\ map vr_viewport rs = map fst vps
    /\ Forall (fun r => vr_passed r = fits r) rs
    /\ qaResults (snd (testViewports drv vps acc s)) = qaResults s
    /\ issues (snd (testViewports drv vps acc s)) = (issues s ++ fs)%list
    /\ List.length fs = List.length (filter scrolls rs)
    /\ forallb responsive_issue fs = true
    /\ calls (snd (testViewports drv vps acc s)) = (calls s ++ cs)%list
    /\ viewport_calls cs = map snd vps.
Proof.
  induction vps as [|vp rest IH]; intros acc s; simpl.
  - exists [], [], []. unfold ret. simpl. rewrite !app_nil_r. repeat split. constructor.
  - unfold bind.
    destruct (testViewport_run acc vp s)
      as (r & f1 & c1 & Ho & Hn & Hp & Hr & Hi & Hl & Hf & Hc & Hv).
    destruct (testViewport drv acc vp s) as [o s1]. simpl in Ho, Hr, Hi, Hc. subst o.
    destruct (IH (acc ++ [r])%list s1)
      as (rs & f2 & c2 & Ho' & Hn' & Hp' & Hr' & Hi' & Hl' & Hf' & Hc' & Hv').
    exists (r :: rs), (f1 ++ f2)%list, (c1 ++ c2)%list.
    rewrite Ho', Hr', Hi', Hc', Hr, Hi, Hc, <- !app_assoc.
    unfold viewport_calls in *. rewrite flat_map_app, Hv, Hv', forallb_app, Hf, Hf'.
    rewrite length_app, Hl, Hl'. simpl. rewrite Hn, Hn'.
    repeat split; [now constructor|]. destruct (scrolls r); reflexivity.
Qed.

Lemma forallb_Forall_eq {A} (p q : A -> bool) (l : list A) :
  Forall (fun x => p x = q x) l -> forallb p l = forallb q l.
Proof. induction 1 as [|x l Hx _ IH]; simpl; [reflexivity | now rewrite Hx, IH]. Qed.


(** ** Scripted flows in full *)



(** ** The two assessments *)

(** X15: the thresholds of the performance assessment.  With the heap
    size and the navigation timing entry read, the assessment returns; it
    pushes a major issue exactly when the load event took more than 3000 ms
    and a minor issue exactly when more than 50 MiB of heap are in use,
    both limits being allowed values; every issue it pushes is a
    Performance issue, and it passes exactly when it pushed none.  It
    pushes no result itself. *)
Theorem performance_verdict s heap w1 d w2 nav :
  drv_metrics drv (world s) = (Ok heap, w1) ->
  drv_evaluate drv w1 = (Ok d, w2) ->
  navigation_entry d = Some nav ->
  exists r fs,
    fst (assessPerformance drv s) = Ok r
    /\ issues (snd (assessPerformance drv s)) = (issues s ++ fs)%list
    /\ qaResults (snd (assessPerformance drv s)) = qaResults s
    /\ passed r = Js.VBool (Nat.eqb (List.length fs) 0)
    /\ existsb (has_severity major) fs
       = Z.ltb 3000 (loadEventEnd nav - loadEventStart nav)
    /\ existsb (has_severity minor) fs = Z.ltb 52428800 heap
    /\ forallb (in_category Performance) fs = true.
Proof.
  intros Hm He Hn. unfold assessPerformance. unfold_monad.
  rewrite Hm. cbn [fst snd world]. rewrite He.
  cbn [fst snd world calls browser qaResults issues flowResult].
  unfold performanceEntries. rewrite Hn.
  cbn [fst snd world calls browser qaResults issues flowResult].
  unfold performanceIssues. cbn [loadComplete].
  change (50 * 1024 * 1024)%Z with 52428800%Z.
  destruct (Z.ltb 3000 _), (Z.ltb 52428800 heap);
    do 2 eexists; (split; [reflexivity|]); (split; [reflexivity|]); repeat split.
Qed.

Lemma assessPerformance_untimed s :
  shows drv (fun d => navigation_entry d = None) ->
  exists e, fst (assessPerformance drv s) = Throw e.
Proof.
  intros Hs. unfold assessPerformance. unfold_monad.
  destruct (drv_metrics drv (world s)) as [[heap|e] w1];
    cbn [fst snd world]; [|eauto].
  destruct (Hs w1) as (d & w2 & He & Hn). rewrite He.
  cbn [fst snd world]. unfold performanceEntries. rewrite Hn. cbn [fst]. eauto.
Qed.

(** X16: a page without a navigation timing entry never gets a report.
    When every document the browser shows lacks the entry, the performance
    assessment throws after all probes have run, so no invocation returns a
    report, whatever the suite and the flows: the reply is the error
    envelope, which carries only the numbers of results and issues. *)
Theorem no_report_without_navigation_timing args w :
  shows drv (fun d => navigation_entry d = None) ->
  reported (fst (functionalQATool drv args w)) = false.
Proof.
  intros Hs.
  destruct (fst (functionalQATool drv args w)) as [[sm rs fs shots recs|e text n k]|e] eqn:E;
    try reflexivity.
  exfalso. apply tool_report in E.
  destruct (report_run args w _ E) as (w3 & Hc). rewrite Hc in E.
  unfold checked in E.
  do 3 (apply bind_Ok in E as (? & _ & E & _)).
  unfold probes in E.
  do 4 (apply bind_Ok in E as (? & _ & E & _)).
  apply bind_Ok in E as (r & Hr & _).
  match type of Hr with
  | fst (assessPerformance drv ?s0) = _ =>
      destruct (assessPerformance_untimed s0 Hs) as (e & He)
  end.
  congruence.
Qed.

Lemma smallText_length d :
  List.length (smallText d) = List.length (filter text_too_small (all_elements d)).
Proof.
  unfold smallText, indexed. rewrite length_map.
  rewrite <- (filter_indexed_from text_too_small (all_elements d) 0), length_map.
  reflexivity.
Qed.

Lemma ui_issues_minor l :
  forallb (fun i => (has_severity minor i && in_category UIUX i)%bool) (map ui_issue l)
  = true.
Proof. induction l as [|p l IH]; simpl; [reflexivity | assumption]. Qed.

(** X17: the findings of the UI assessment.  With the document read, the
    assessment returns and pushes one issue per finding, all minor and of
    category UI/UX, the small texts first and the images after them; the
    findings are the elements whose computed font size is below 12 px and
    whose text is not blank, plus the images whose [alt] attribute is
    absent or empty; it passes exactly when there is none. *)
Theorem ui_assessment_findings s d w1 :
  drv_evaluate drv (world s) = (Ok d, w1) ->
  exists r,
    fst (assessUIQuality drv s) = Ok r
    /\ passed r = Js.VBool (Nat.eqb (List.length (uiProblems d)) 0)
    /\ List.length (uiProblems d)
       = List.length (filter text_too_small (all_elements d))
         + List.length (filter lacks_alt (images d))
    /\ issues (snd (assessUIQuality drv s))
       = (issues s ++ map ui_issue (smallText d) ++ map ui_issue (missingAlt d))%list
    /\ forallb (fun i => (has_severity minor i && in_category UIUX i)%bool)
               (map ui_issue (uiProblems d)) = true
    /\ qaResults (snd (assessUIQuality drv s)) = qaResults s.
Proof.
  intros He. unfold assessUIQuality. unfold_monad. rewrite He.
  cbn [fst snd world calls browser qaResults issues flowResult].
  eexists.
  assert (Hlen : List.length (uiProblems d)
                 = List.length (filter text_too_small (all_elements d))
                   + List.length (filter lacks_alt (images d))).
  { unfold uiProblems. now rewrite length_app, smallText_length, missingAlt_length. }
  destruct (Nat.ltb 0 (List.length (uiProblems d))) eqn:E;
    cbn [fst snd world calls browser qaResults issues flowResult];
    (split; [reflexivity|]); (split; [reflexivity|]); (split; [exact Hlen|]);
    (split; [|split; [apply ui_issues_minor | reflexivity]]).
  - unfold uiProblems. now rewrite map_app.
  - apply Nat.ltb_ge in E.
    destruct (uiProblems d) as [|p l] eqn:Eu; [|simpl in E; lia].
    unfold uiProblems in Eu. apply app_eq_nil in Eu as [-> ->]. simpl.
    now rewrite app_nil_r.
Qed.

(** ** The form probe *)

Lemma formInfos_from (l : list FormEl) :
  forall k,
    let infos :=
      map (fun '(index, form) =>
             {| fi_index := index;
                fi_action := if Js.truthy_str (form_action form)
                             then Js.or_empty (form_action form) else "";
                fi_method := if Js.truthy_str (form_method form)
                             then Js.or_empty (form_method form) else "GET";
                inputCount := form_controls form;
                hasSubmitButton := form_submit form |})
          (combine (seq k (List.length l)) l) in
    forallb hasSubmitButton infos = forallb form_submit l
    /\ map fi_index infos = seq k (List.length l)
    /\ List.length (filter (fun form => negb (hasSubmitButton form)) infos)
       = List.length (filter (fun form => negb (form_submit form)) l).
Proof.
  induction l as [|x l IH]; intros k; simpl; [auto|].
  destruct (IH (S k)) as (H1 & H2 & H3). rewrite H1, H2.
  repeat split. destruct (form_submit x); simpl; congruence.
Qed.

Lemma forallb_filter_negb {A} (p : A -> bool) (l : list A) :
  Nat.ltb 0 (List.length (filter (fun x => negb (p x)) l)) = negb (forallb p l).
Proof.
  induction l as [|x l IH]; simpl; [reflexivity|].
  destruct (p x); simpl; [assumption | reflexivity].
Qed.

(** X18: the verdict of the form probe.  With the forms read, the first
    result pushed is the form structure check; it lists every form of the
    document, numbered in document order from 0, and passes exactly when
    every form has a submit control, so a page without forms passes; one
    major Forms issue is pushed exactly when the check fails.  What follows
    depends on the label scan alone.  When it returns, no second result is
    pushed and one major Accessibility issue is pushed exactly when some
    control is flagged: unlabeled controls do not fail the check.  When it
    throws, because the evaluation fails or because an [id] makes a selector
    that does not parse, a second, failed form structure check carrying the
    message is pushed, and no Accessibility issue. *)
Theorem form_check_verdict url s d w1 :
  drv_evaluate drv (world s) = (Ok d, w1) ->
  exists r rest fs,
    qaResults (snd (runFormTests drv url s)) = (qaResults s ++ r :: rest)%list
    /\ testName r = "Form Structure Check"
    /\ passed r = Js.VBool (forallb form_submit (dom_forms d))
    /\ details r = DForms (List.length (dom_forms d)) (formInfos d)
    /\ map fi_index (formInfos d) = seq 0 (List.length (dom_forms d))
    /\ issues (snd (runFormTests drv url s))
       = (issues s
          ++ (if forallb form_submit (dom_forms d) then []
              else [forms_issue (filter (fun form => negb (hasSubmitButton form))
                                        (formInfos d))])
          ++ fs)%list
    /\ match label_scan (fst (drv_evaluate drv w1)) with
       | Ok found =>
           rest = []
           /\ fs = (if Nat.ltb 0 (List.length found) then [labels_issue found] else [])
       | Throw e => rest = [errored "Form Structure Check" e] /\ fs = []
       end.
Proof.
  intros He.
  destruct (formInfos_from (dom_forms d) 0) as (Hall & Hidx & Hlen).
  fold (indexed (dom_forms d)) in Hall, Hidx, Hlen.
  change (map _ (indexed (dom_forms d))) with (formInfos d) in Hall, Hidx, Hlen.
  assert (Hn : List.length (formInfos d) = List.length (dom_forms d)).
  { rewrite <- (length_map fi_index), Hidx. apply length_seq. }
  unfold runFormTests, forms_issue, labels_issue, errored, label_scan. unfold_monad.
  rewrite He.
  cbn [fst snd world calls browser qaResults issues flowResult].
  rewrite forallb_filter_negb, Hall, Hn.
  destruct (forallb form_submit (dom_forms d));
    cbn [negb fst snd world calls browser qaResults issues flowResult];
    destruct (drv_evaluate drv w1) as [[d2|e] w2];
    cbn [fst snd world calls browser qaResults issues flowResult];
    try destruct (accessibilityIssues d2) as [found|e];
    cbn [fst snd world calls browser qaResults issues flowResult];
    try destruct (Nat.ltb 0 (List.length found));
    cbn [fst snd world calls browser qaResults issues flowResult];
    do 3 eexists;
    (split; [rewrite <- ?app_assoc; reflexivity|]);
    do 3 (split; [reflexivity|]);
    (split; [exact Hidx|]);
    (split; [rewrite <- ?app_assoc; cbn [app];
             first [reflexivity | symmetry; apply app_nil_r]|]);
    split; reflexivity.
Qed.

(** ** The recommendations once more *)

Lemma bump_sum (cats : list (Category * nat)) (c : Category) :
  list_sum (map snd (bump cats c)) = S (list_sum (map snd cats)).
Proof.
  induction cats as [|[k n] rest IH]; simpl; [reflexivity|].
  destruct (category_eqb k c); simpl; [reflexivity | rewrite IH; lia].
Qed.

Lemma categories_sum (found : list Issue) :
  forall cats,
    list_sum (map snd (fold_left (fun cats i => bump cats (category i)) found cats))
    = list_sum (map snd cats) + List.length found.
Proof.
  induction found as [|i found IH]; intros cats; simpl; [lia|].
  rewrite IH, bump_sum. lia.
Qed.

Lemma categories_bounded (found : list Issue) :
  List.length (categories found) <= 11.
Proof.
  destruct (categories_from found [] []) as (Hnd & _); simpl; try tauto.
  { constructor. }
  rewrite <- (length_map fst).
  change 11 with (List.length all_categories).
  apply NoDup_incl_length; [exact Hnd|].
  intros c _. destruct c; simpl; tauto.
Qed.

(** X19: the size of the recommendation list.  The counts of the focus
    lines add up to the number of issues; the list is never empty and has
    at most 14 lines (three banners and one focus line for each of the
    eleven categories); without issues it is the positive line alone. *)
Theorem recommendations_bounds (results : list TestResult) (found : list Issue) :
  list_sum (map snd (categories found)) = List.length found
  /\ 1 <= List.length (generateQARecommendations found (summarize results found))
  /\ List.length (generateQARecommendations found (summarize results found)) <= 14
  /\ generateQARecommendations [] (summarize results []) = [all_clear].
Proof.
  assert (Hsum : list_sum (map snd (categories found)) = List.length found).
  { unfold categories. now rewrite categories_sum. }
  split; [exact Hsum|].
  pose proof (categories_bounded found) as Hb.
  unfold generateQARecommendations, summarize.
  cbn [criticalIssues majorIssues minorIssues sm_issues].
  rewrite !length_app, length_map.
  destruct found as [|i found].
  - simpl. repeat split; lia.
  - assert (Hpos : 1 <= List.length (categories (i :: found))).
    { destruct (categories (i :: found)); simpl in *; [discriminate | lia]. }
    change (Nat.eqb (List.length (i :: found)) 0) with false.
    repeat split;
      repeat match goal with
             | |- context [if ?b then _ else _] => destruct b
             end; simpl List.length; lia.
Qed.

(** ** Results and issues of the basic checks and of the flows *)

Lemma title_verdict title :
  Js.truthy (title_passed title) = negb (title_blank title).
Proof.
  unfold title_passed, title_blank.
  destruct (String.eqb title "") eqn:E; simpl; [reflexivity|].
  now destruct (String.length (Js.trim title)).
Qed.

Lemma positive_nonzero n : Nat.ltb 0 n = negb (Nat.eqb n 0).
Proof. now destruct n. Qed.

(** X20: the basic checks agree with their issues.  When the three calls
    return, the checks push their three results and one issue for each
    check that did not pass, in the order of the checks: an SEO issue for a
    title that is empty or blank, a Content issue when some image is not
    loaded, a JavaScript issue when an uncaught error was seen during the
    wait.  For an empty title the [passed] field is the empty string, not
    [false]; it counts as not passed. *)
Theorem basic_checks_issues url s title w1 d w2 errs w3 :
  drv_title drv (world s) = (Ok title, w1) ->
  drv_evaluate drv w1 = (Ok d, w2) ->
  drv_waitForTimeout drv 2000%Z w2 = (Ok errs, w3) ->
  exists t b j fs,
    qaResults (snd (runBasicTests drv url s)) = (qaResults s ++ [t; b; j])%list
    /\ Js.truthy (passed t) = negb (title_blank title)
    /\ passed b = Js.VBool (Nat.eqb (brokenImages d) 0)
    /\ passed j = Js.VBool (Nat.eqb (List.length errs) 0)
    /\ issues (snd (runBasicTests drv url s)) = (issues s ++ fs)%list
    /\ map category fs
       = ((if Js.truthy (passed t) then [] else [SEO])
          ++ (if Js.truthy (passed b) then [] else [Content])
          ++ (if Js.truthy (passed j) then [] else [JavaScript]))%list.
Proof.
  intros Ht He Hw. unfold runBasicTests. unfold_monad. rewrite Ht.
  cbn [fst snd world calls browser qaResults issues flowResult].
  pose proof (title_verdict title) as Hv.
  destruct (title_blank title);
    cbn [fst snd world calls browser qaResults issues flowResult];
    rewrite He; cbn [fst snd world calls browser qaResults issues flowResult];
    rewrite (positive_nonzero (brokenImages d));
    destruct (Nat.eqb (brokenImages d) 0);
    cbn [negb fst snd world calls browser qaResults issues flowResult];
    rewrite Hw; cbn [fst snd world calls browser qaResults issues flowResult];
    rewrite (positive_nonzero (List.length errs));
    destruct (Nat.eqb (List.length errs) 0);
    cbn [negb fst snd world calls browser qaResults issues flowResult];
    do 4 eexists;
    (split; [rewrite <- ?app_assoc; reflexivity|]);
    (split; [exact Hv|]);
    do 2 (split; [reflexivity|]);
    (split; [rewrite <- ?app_assoc; first [reflexivity | symmetry; apply app_nil_r]|]);
    cbn [passed plain Js.truthy]; rewrite Hv; reflexivity.
Qed.

(** X21: one result per flow and one issue per failed flow.  The loop
    over the custom flows always returns; it pushes the flow results in the
    caller's order, each named after its flow, and exactly as many issues,
    all major and of category User Flow, as there are flow results that did
    not pass. *)
Theorem flows_results_and_issues flows s :
  exists frs fs,
    fst (runUserFlows drv flows s) = Ok tt
    /\ qaResults (snd (runUserFlows drv flows s)) = (qaResults s ++ map of_flow frs)%list
    /\ map fr_testName frs = map flow_title flows
    /\ issues (snd (runUserFlows drv flows s)) = (issues s ++ fs)%list
    /\ List.length fs = List.length (filter (fun r => negb (fr_passed r)) frs)
    /\ forallb (fun i => (has_severity major i && in_category UserFlow i)%bool) fs = true.
Proof.
  revert s. induction flows as [|flow rest IH]; intros s; simpl.
  - exists [], []. unfold ret. simpl. rewrite !app_nil_r. repeat split.
  - unfold bind, push_result.
    destruct (runUserFlow_full flow s) as (r & Ho & Hn & _ & _ & _ & Hq & Hi).
    destruct (runUserFlow drv flow s) as [o s1]. simpl in Ho, Hq, Hi. subst o.
    match goal with
    | |- context [runUserFlows drv rest ?s2] =>
        destruct (IH s2) as (frs & fs & Ho' & Hq' & Hn' & Hi' & Hl' & Hf');
        destruct (runUserFlows drv rest s2) as [o' s3]
    end.
    simpl in Ho', Hq', Hi'. subst o'.
    exists (r :: frs),
      ((if fr_passed r then [] else [flow_issue flow r]) ++ fs)%list.
    simpl. rewrite Hq', Hi', Hq, Hi, <- !app_assoc. simpl. rewrite Hn, Hn'.
    do 4 (split; [reflexivity|]). split.
    + rewrite length_app, Hl'. destruct (fr_passed r); reflexivity.
    + rewrite forallb_app, Hf'. destruct (fr_passed r); reflexivity.
Qed.

End Runs.

(** ** The tool on explicit inputs *)

Lemma sim_goto_lands u t w r w' :
  drv_goto Sim.driver u t w = (Ok r, w') -> Sim.location w' = u.
Proof.
  simpl. unfold Sim.goto. destruct (Sim.lookup u (Sim.site w)); [|discriminate].
  intros [= _ <-]. reflexivity.
Qed.

(** C2, at a failing input: a flow whose single [verify] step finds no
    element records that step with [passed = false] and no error, yet the
    flow itself keeps [passed = true]; the run counts it as passed and
    reports no issue for it. *)
Lemma failed_verify_leaves_flow_passed :
  fst (runUserFlow Sim.driver Demo.check_heading (Demo.loaded Demo.plain_home))
  = Ok {| fr_testName := "User Flow: check heading";
          fr_passed := true;
          fr_steps := [{| stepNumber := 1; sr_action := verify;
                          sr_selector := Some "h1"; sr_value := None;
                          sr_passed := false; sr_error := None;
                          actualValue := Some None;
                          expectedValue := Some "Welcome" |}];
          fr_error := None |}
  /\ failed (Demo.summary_of (fst (Demo.run basic [Demo.check_heading] Demo.plain_home))) = 0
  /\ Demo.issues_of (fst (Demo.run basic [Demo.check_heading] Demo.plain_home)) = [].
Proof.
  split; [vm_compute; reflexivity|]. split; vm_compute; reflexivity.
Qed.

(** C1 fails on the code: with nothing listening at the target, an [auth]
    run reports the failed connectivity test and then three more results. *)
Lemma probes_run_after_failed_connectivity :
  exists sm rs fs recs,
    fst (Demo.run auth [] Demo.down) = Ok (Report sm rs fs [] recs)
    /\ names rs = ["Connectivity Test"; "Authentication Tests";
                   "UI Quality Assessment"; "Performance Assessment"]
    /\ ~ connectivity_first_as_claimed rs fs.
Proof.
  do 4 eexists. split; [vm_compute; reflexivity|]. split; [reflexivity|].
  intros H. destruct (H _ eq_refl eq_refl) as [_ E]. discriminate E.
Qed.

(** C3 fails on the code: the flow's first step is a [goto] that throws,
    and the two steps after it are run and recorded all the same. *)
Lemma steps_run_after_failed_goto :
  exists r,
    fst (runUserFlow Sim.driver Demo.visit_missing (Demo.loaded Demo.plain_home)) = Ok r
    /\ map (fun st => (sr_action st, sr_passed st)) (fr_steps r)
       = [(goto, false); (wait, true); (verify, false)]
    /\ ~ failing_goto_aborts_as_claimed r.
Proof.
  eexists. split; [vm_compute; reflexivity|]. split; [reflexivity|].
  intros H. specialize (H 0 _ eq_refl eq_refl eq_refl). discriminate H.
Qed.

(** The calls the same flow makes: the failed navigation, then the wait
    and the query of the two steps after it. *)
Example calls_after_failed_goto :
  calls (snd (runUserFlow Sim.driver Demo.visit_missing (Demo.loaded Demo.plain_home)))
  = (calls (Demo.loaded Demo.plain_home)
     ++ [CGoto "http://localhost:3000/missing" None;
         CWaitForTimeout 5000%Z;
         CQuery (Some "h1")])%list.
Proof. vm_compute. reflexivity. Qed.


(** C7 fails on the code when the navigation back to the target throws:
    the page has three internal links answering 200, 404 and 200, the site
    stops answering after they have been tested, and the probe leaves the
    page at the last link. *)
Lemma return_navigation_may_fail :
  map nl_href (navLinks Demo.linked_document) = [Demo.about; Demo.team; Demo.jobs]
  /\ map (fun u => option_map Sim.page_status (Sim.lookup u Demo.linked))
         [Demo.about; Demo.team; Demo.jobs]
     = [Some 200; Some 404; Some 200]%Z
  /\ Sim.location (fst (world (snd (runNavigationTests Sim.failing Demo.home
                                                       Demo.going_down))))
     = Demo.jobs
  /\ map (fun r => (testName r, passed r))
         (qaResults (snd (runNavigationTests Sim.failing Demo.home Demo.going_down)))
     = [("Navigation Links Test", Js.VBool false);
        ("Navigation Links Test", Js.VBool false)]
  /\ ~ location_restored_as_claimed
        Demo.home
        (Sim.location (fst (world (snd (runNavigationTests Sim.failing Demo.home
                                                            Demo.going_down)))))
        (issues (snd (runNavigationTests Sim.failing Demo.home Demo.going_down))).
Proof.
  split; [reflexivity|]. split; [reflexivity|].
  split; [vm_compute; reflexivity|]. split; [vm_compute; reflexivity|].
  intros [H _]. vm_compute in H. discriminate H.
Qed.


(** C9 fails on the code: the target answers 203, a 2xx status, and the
    connectivity test fails with a critical connectivity issue. *)
Lemma status_203_fails_connectivity :
  drv_goto Sim.driver Demo.home (Some 10000%Z) (Sim.open Demo.non_authoritative)
  = (Ok (Some {| status := 203; response_url := Demo.home |}),
     Sim.move Demo.home (Sim.open Demo.non_authoritative))
  /\ exists sm r rest fs recs,
      fst (Demo.run basic [] Demo.non_authoritative)
      = Ok (Report sm (r :: rest) fs [] recs)
      /\ passed r = Js.VBool false
      /\ map (fun i => (severity i, issue i)) (filter (in_category Connectivity) fs)
         = [(critical, Some "HTTP 203")]
      /\ ~ connectivity_as_claimed 203 r fs.
Proof.
  split; [reflexivity|].
  do 5 eexists. split; [vm_compute; reflexivity|]. split; [reflexivity|].
  split; [reflexivity|].
  intros H. destruct H as [E _]; [lia | discriminate E].
Qed.

(** *** The theorems at explicit inputs *)

Lemma failed_connectivity_report_witness :
  Demo.is_report (fst (Demo.run auth [] Demo.down))
  /\ hd_error (Demo.results_of (fst (Demo.run auth [] Demo.down))) = Some Demo.refused
  /\ Js.truthy (passed Demo.refused) = false
  /\ exists rest more sn,
      Demo.results_of (fst (Demo.run auth [] Demo.down)) = Demo.refused :: rest
      /\ testName Demo.refused = "Connectivity Test"
      /\ Demo.issues_of (fst (Demo.run auth [] Demo.down))
         = connectivity_issue Demo.refused :: more
      /\ severity (connectivity_issue Demo.refused) = critical
      /\ category (connectivity_issue Demo.refused) = Connectivity
      /\ filter (in_category Connectivity)
                (Demo.issues_of (fst (Demo.run auth [] Demo.down)))
         = [connectivity_issue Demo.refused]
      /\ suite_names auth sn
      /\ names rest = (sn ++ map flow_title []
                          ++ ["UI Quality Assessment"; "Performance Assessment"])%list.
Proof.
  split; [vm_compute; reflexivity|]. split; [vm_compute; reflexivity|].
  split; [reflexivity|].
  refine (failed_connectivity_report Sim.driver (Demo.args auth []) (Sim.open Demo.down)
            (Demo.summary_of (fst (Demo.run auth [] Demo.down)))
            (Demo.results_of (fst (Demo.run auth [] Demo.down)))
            (Demo.issues_of (fst (Demo.run auth [] Demo.down)))
            []
            (Demo.recommendations_of (fst (Demo.run auth [] Demo.down)))
            Demo.refused _ _ eq_refl);
    vm_compute; reflexivity.
Defined.


(** The invocation below ends in the [catch] block: the performance
    assessment throws on a page without a navigation timing entry. *)
Lemma close_once_witness :
  drv_launch Sim.driver (Sim.open Demo.untimed) = (Ok tt, Sim.open Demo.untimed)
  /\ List.length
       (filter is_close
               (calls (snd (functionalQATool Sim.driver (Demo.args basic [])
                                             (Sim.open Demo.untimed))))) = 1.
Proof.
  split; [reflexivity|].
  exact (close_once Sim.driver (Demo.args basic []) (Sim.open Demo.untimed)
                    (Sim.open Demo.untimed) eq_refl).
Defined.

(** A comprehensive run in which the navigation probe and a flow fail. *)
Lemma summary_counts_add_up_witness :
  Demo.is_report (fst (Demo.run comprehensive [Demo.visit_missing] Demo.linked))
  /\ totalTests (Demo.summary_of (fst (Demo.run comprehensive [Demo.visit_missing] Demo.linked)))
     = List.length (Demo.results_of (fst (Demo.run comprehensive [Demo.visit_missing] Demo.linked)))
  /\ sm_passed (Demo.summary_of (fst (Demo.run comprehensive [Demo.visit_missing] Demo.linked)))
     = List.length
         (filter (fun r => Js.truthy (passed r))
                 (Demo.results_of (fst (Demo.run comprehensive [Demo.visit_missing] Demo.linked))))
  /\ failed (Demo.summary_of (fst (Demo.run comprehensive [Demo.visit_missing] Demo.linked)))
     = List.length
         (filter (fun r => negb (Js.truthy (passed r)))
                 (Demo.results_of (fst (Demo.run comprehensive [Demo.visit_missing] Demo.linked))))
  /\ sm_passed (Demo.summary_of (fst (Demo.run comprehensive [Demo.visit_missing] Demo.linked)))
     + failed (Demo.summary_of (fst (Demo.run comprehensive [Demo.visit_missing] Demo.linked)))
     = totalTests (Demo.summary_of (fst (Demo.run comprehensive [Demo.visit_missing] Demo.linked))).
Proof.
  split; [vm_compute; reflexivity|].
  refine (summary_counts_add_up Sim.driver (Demo.args comprehensive [Demo.visit_missing])
            (Sim.open Demo.linked)
            (Demo.summary_of (fst (Demo.run comprehensive [Demo.visit_missing] Demo.linked)))
            (Demo.results_of (fst (Demo.run comprehensive [Demo.visit_missing] Demo.linked)))
            (Demo.issues_of (fst (Demo.run comprehensive [Demo.visit_missing] Demo.linked)))
            []
            (Demo.recommendations_of
               (fst (Demo.run comprehensive [Demo.visit_missing] Demo.linked)))
            _);
    vm_compute; reflexivity.
Defined.

(** The navigation probe on the site with three links, after the target
    has been loaded. *)
Lemma navigation_probe_restores_location_witness :
  (forall u t w r w',
      drv_goto Sim.driver u t w = (Ok r, w') -> Sim.location w' = u)
  /\ drv_evaluate Sim.driver (world (Demo.loaded Demo.linked))
     = (Ok Demo.linked_document, Sim.move Demo.home (Sim.open Demo.linked))
  /\ map nl_href (navLinks Demo.linked_document) = [Demo.about; Demo.team; Demo.jobs]
  /\ Permutation [200; 404; 200]%Z [200; 200; 404]%Z
  /\ drv_goto Sim.driver Demo.home None (Sim.move Demo.jobs (Sim.open Demo.linked))
     = (Ok (Some {| status := 200; response_url := Demo.home |}),
        Sim.move Demo.home (Sim.open Demo.linked))
  /\ world (snd (runNavigationTests Sim.driver Demo.home (Demo.loaded Demo.linked)))
     = Sim.move Demo.home (Sim.open Demo.linked)
  /\ Sim.location (world (snd (runNavigationTests Sim.driver Demo.home
                                                  (Demo.loaded Demo.linked))))
     = Demo.home
  /\ exists i b,
      issues (snd (runNavigationTests Sim.driver Demo.home (Demo.loaded Demo.linked)))
      = (issues (Demo.loaded Demo.linked) ++ [i])%list
      /\ category i = Navigation
      /\ severity i = major
      /\ issue i = Some "1 broken internal link(s) found"
      /\ i_details i = DBrokenLinks [b]
      /\ bl_status b = Some 404%Z
      /\ In (bl_href b) [Demo.about; Demo.team; Demo.jobs]
      /\ qaResults (snd (runNavigationTests Sim.driver Demo.home (Demo.loaded Demo.linked)))
         = (qaResults (Demo.loaded Demo.linked)
            ++ [plain "Navigation Links Test" (Js.VBool false)
                      (DNavigation 3 3 2 1 [b]) None])%list.
Proof.
  split; [exact sim_goto_lands|]. split; [reflexivity|]. split; [reflexivity|].
  split; [apply perm_skip, perm_swap|]. split; [reflexivity|].
  exact (navigation_probe_restores_location Sim.driver Sim.location sim_goto_lands
           Demo.home (Demo.loaded Demo.linked) Demo.linked_document
           (Sim.move Demo.home (Sim.open Demo.linked))
           {| nl_href := Demo.about; nl_text := Demo.about; internal := true |}
           {| nl_href := Demo.team; nl_text := Demo.team; internal := true |}
           {| nl_href := Demo.jobs; nl_text := Demo.jobs; internal := true |}
           {| status := 200; response_url := Demo.about |}
           {| status := 404; response_url := Demo.team |}
           {| status := 200; response_url := Demo.jobs |}
           (Sim.move Demo.about (Sim.open Demo.linked))
           (Sim.move Demo.team (Sim.open Demo.linked))
           (Sim.move Demo.jobs (Sim.open Demo.linked))
           (Ok (Some {| status := 200; response_url := Demo.home |}))
           (Sim.move Demo.home (Sim.open Demo.linked))
           eq_refl eq_refl eq_refl eq_refl eq_refl
           (perm_skip 200%Z (perm_swap 200%Z 404%Z []))
           eq_refl).
Defined.

(** Once the gallery page is loaded the simulated browser stays on it:
    it is the only page of its site. *)
Lemma gallery_settled :
  settled Sim.driver (fun w => w = Demo.at_gallery) two_alts_one_label.
Proof.
  unfold settled.
  split.
  { intros w ->. exists Demo.gallery_document, Demo.at_gallery.
    split; [reflexivity|]. split; [|reflexivity].
    split; [reflexivity|]. split; [|reflexivity].
    constructor; [exists false; reflexivity | constructor]. }
  split; [intros v w ->; reflexivity|].
  split.
  { intros u t w ->. unfold drv_goto, Sim.driver, Sim.goto, Demo.at_gallery. simpl.
    destruct (String.eqb u Demo.home) eqn:E; simpl; [|reflexivity].
    apply String.eqb_eq in E. now subst. }
  split; [intros w ->; reflexivity|].
  split; [intros w ->; reflexivity|].
  split; [intros ms w ->; reflexivity|].
  split; [intros [sel|] ms w ->; reflexivity|].
  split; [intros [sel|] w ->; reflexivity|].
  split; [intros [sel|] v w ->; reflexivity|].
  split; [intros [sel|] w ->; reflexivity|].
  split; [intros h w ->; reflexivity|].
  intros w ->; reflexivity.
Qed.


(** A [forms] run against a target that answers 200. *)
Lemma connectivity_verdict_witness :
  drv_launch Sim.driver (Sim.open Demo.plain_home) = (Ok tt, Sim.open Demo.plain_home)
  /\ drv_goto Sim.driver Demo.home (Some 10000%Z) (Sim.open Demo.plain_home)
     = (Ok (Some {| status := 200; response_url := Demo.home |}),
        Sim.move Demo.home (Sim.open Demo.plain_home))
  /\ exists r rest,
      qaResults (snd (functionalQATool Sim.driver (Demo.args forms [])
                                       (Sim.open Demo.plain_home)))
      = r :: rest
      /\ testName r = "Connectivity Test"
      /\ passed r = Js.VBool true
      /\ filter (in_category Connectivity)
                (issues (snd (functionalQATool Sim.driver (Demo.args forms [])
                                               (Sim.open Demo.plain_home))))
         = []
      /\ severity (connectivity_issue r) = critical.
Proof.
  split; [reflexivity|]. split; [reflexivity|].
  exact (connectivity_verdict Sim.driver (Demo.args forms [])
           (Sim.open Demo.plain_home) (Sim.open Demo.plain_home)
           (Sim.open Demo.plain_home) (Sim.open Demo.plain_home)
           (Ok (Some {| status := 200; response_url := Demo.home |}))
           (Sim.move Demo.home (Sim.open Demo.plain_home))
           eq_refl eq_refl eq_refl eq_refl).
Defined.

(** The same verdict when the navigation throws: the test fails and its
    issue is the only connectivity issue. *)
Example connectivity_refused :
  exists r rest,
    qaResults (snd (Demo.run basic [] Demo.down)) = r :: rest
    /\ passed r = Js.VBool false
    /\ filter (in_category Connectivity) (issues (snd (Demo.run basic [] Demo.down)))
       = [connectivity_issue r].
Proof.
  do 2 eexists. split; [vm_compute; reflexivity|].
  split; vm_compute; reflexivity.
Qed.

(** Both exit paths close the simulated browser once. *)
Example closed_after_report_and_after_failure :
  Sim.closed (world (snd (Demo.run comprehensive [] Demo.plain_home))) = 1
  /\ Demo.is_report (fst (Demo.run comprehensive [] Demo.plain_home))
  /\ Sim.closed (world (snd (Demo.run comprehensive [] Demo.untimed))) = 1
  /\ fst (Demo.run comprehensive [] Demo.untimed)
     = Ok (Failure
             "Cannot read properties of undefined (reading 'domContentLoadedEventEnd')"
             ("Functional QA FAILED: http://localhost:3000/ - "
              ++ "Cannot read properties of undefined (reading 'domContentLoadedEventEnd')")
             8 0).
Proof.
  split; [vm_compute; reflexivity|]. split; [vm_compute; reflexivity|].
  split; vm_compute; reflexivity.
Qed.

(** * The further properties on explicit inputs *)

(** The navigation probe on the site with three links. *)
Lemma navigation_probe_calls_witness :
  drv_evaluate Sim.driver (world (Demo.loaded Demo.linked))
  = (Ok Demo.linked_document, Sim.move Demo.home (Sim.open Demo.linked))
  /\ calls (snd (runNavigationTests Sim.driver Demo.home (Demo.loaded Demo.linked)))
     = (calls (Demo.loaded Demo.linked)
        ++ CEvaluate :: map link_call (firstn 10 (navLinks Demo.linked_document))
        ++ [CGoto Demo.home None])%list.
Proof.
  split; [reflexivity|].
  exact (navigation_probe_calls Sim.driver Demo.home (Demo.loaded Demo.linked)
           Demo.linked_document (Sim.move Demo.home (Sim.open Demo.linked)) eq_refl).
Defined.

Lemma navigation_probe_tally_witness :
  drv_evaluate Sim.driver (world (Demo.loaded Demo.linked))
  = (Ok Demo.linked_document, Sim.move Demo.home (Sim.open Demo.linked))
  /\ exists nworking nbroken details w4,
      nworking + nbroken = Nat.min 10 (List.length (navLinks Demo.linked_document))
      /\ List.length details = nbroken
      /\ issues (snd (runNavigationTests Sim.driver Demo.home (Demo.loaded Demo.linked)))
         = (issues (Demo.loaded Demo.linked)
            ++ (if Nat.eqb nbroken 0 then []
                else [broken_links_issue nbroken details]))%list
      /\ qaResults (snd (runNavigationTests Sim.driver Demo.home
                                            (Demo.loaded Demo.linked)))
         = (qaResults (Demo.loaded Demo.linked)
            ++ plain "Navigation Links Test" (Js.VBool (Nat.eqb nbroken 0))
                     (DNavigation (List.length (navLinks Demo.linked_document))
                                  (Nat.min 10 (List.length (navLinks Demo.linked_document)))
                                  nworking nbroken details)
                     None
            :: match fst (drv_goto Sim.driver Demo.home None w4) with
               | Ok _ => []
               | Throw e => [errored "Navigation Links Test" e]
               end)%list.
Proof.
  split; [reflexivity|].
  exact (navigation_probe_tally Sim.driver Demo.home (Demo.loaded Demo.linked)
           Demo.linked_document (Sim.move Demo.home (Sim.open Demo.linked)) eq_refl).
Defined.

(** Valid arguments and a browser whose [close] throws: the exception
    leaves the function. *)
Lemma only_validation_and_close_escape_witness :
  thrown (functionalQATool_any (Sim.faulty None (Some "Target closed") Sim.blank)
                               (Some Demo.just_url) tt)
  = true
  /\ ((FunctionalQAArgsSchema_parse (Some Demo.just_url) = None
       /\ functionalQATool_any (Sim.faulty None (Some "Target closed") Sim.blank)
                               (Some Demo.just_url) tt
          = Invalid)
      \/ (exists args e,
             FunctionalQAArgsSchema_parse (Some Demo.just_url) = Some args
             /\ fst (functionalQATool (Sim.faulty None (Some "Target closed") Sim.blank)
                                      args tt)
                = Throw e
             /\ (exists w1,
                    drv_launch (Sim.faulty None (Some "Target closed") Sim.blank) tt
                    = (Ok tt, w1))
             /\ exists w2 w3,
                 drv_close (Sim.faulty None (Some "Target closed") Sim.blank) w2
                 = (Throw e, w3))).
Proof.
  split; [vm_compute; reflexivity|].
  refine (only_validation_and_close_escape
            (Sim.faulty None (Some "Target closed") Sim.blank)
            (Some Demo.just_url) tt _).
  vm_compute; reflexivity.
Defined.

(** The schema at work: defaults are filled in, and arguments without a
    [url], with an unknown suite or with a step lacking its action are
    rejected before the browser is touched. *)
Example validation :
  FunctionalQAArgsSchema_parse (Some Demo.just_url) = Some (Demo.args comprehensive [])
  /\ FunctionalQAArgsSchema_parse
       (Some (JObject [("url", JString Demo.home); ("testSuite", JString "forms");
                       ("userFlows",
                        JArray [JObject [("name", JString "wait");
                                         ("steps",
                                          JArray [JObject [("action", JString "wait")]])]]);
                       ("viewport", JObject [("width", JNumber 1280)])]))
     = Some (Demo.args forms [Demo.wait_once])
  /\ functionalQATool_any Sim.driver None (Sim.open Demo.plain_home) = Invalid
  /\ functionalQATool_any Sim.driver (Some (JObject [("testSuite", JString "basic")]))
                          (Sim.open Demo.plain_home)
     = Invalid
  /\ functionalQATool_any Sim.driver
       (Some (JObject [("url", JString Demo.home); ("testSuite", JString "smoke")]))
       (Sim.open Demo.plain_home)
     = Invalid
  /\ functionalQATool_any Sim.driver
       (Some (JObject [("url", JString Demo.home);
                       ("userFlows",
                        JArray [JObject [("name", JString "wait");
                                         ("steps", JArray [JObject []])]])]))
       (Sim.open Demo.plain_home)
     = Invalid.
Proof. repeat split; vm_compute; reflexivity. Qed.

(** A browser that cannot be launched. *)
Lemma launch_failure_envelope_witness :
  drv_launch (Sim.faulty (Some "Failed to launch the browser process") None Sim.blank) tt
  = (Throw "Failed to launch the browser process", tt)
  /\ fst (functionalQATool
            (Sim.faulty (Some "Failed to launch the browser process") None Sim.blank)
            (Demo.args comprehensive [Demo.wait_once]) tt)
     = Ok (Failure "Failed to launch the browser process"
                   ("Functional QA FAILED: "
                    ++ url (Demo.args comprehensive [Demo.wait_once])
                    ++ " - " ++ "Failed to launch the browser process") 0 0)
  /\ calls (snd (functionalQATool
                   (Sim.faulty (Some "Failed to launch the browser process") None
                               Sim.blank)
                   (Demo.args comprehensive [Demo.wait_once]) tt))
     = [CLaunch]
  /\ world (snd (functionalQATool
                   (Sim.faulty (Some "Failed to launch the browser process") None
                               Sim.blank)
                   (Demo.args comprehensive [Demo.wait_once]) tt))
     = tt.
Proof.
  split; [reflexivity|].
  exact (launch_failure_envelope
           (Sim.faulty (Some "Failed to launch the browser process") None Sim.blank)
           (Demo.args comprehensive [Demo.wait_once]) tt
           "Failed to launch the browser process" tt eq_refl).
Defined.

(** A comprehensive run on the page without a navigation timing entry:
    eight results were collected when the performance assessment threw. *)
Lemma failure_envelope_witness :
  fst (functionalQATool Sim.driver (Demo.args comprehensive []) (Sim.open Demo.untimed))
  = Ok (Failure Demo.timing_error Demo.timing_failure 8 0)
  /\ fst (attempt Sim.driver (Demo.args comprehensive [])
                  (start (Sim.open Demo.untimed)))
     = Throw Demo.timing_error
  /\ Demo.timing_failure
     = ("Functional QA FAILED: " ++ url (Demo.args comprehensive []) ++ " - "
        ++ Demo.timing_error)%string
  /\ 8 = List.length (qaResults (snd (functionalQATool Sim.driver
                                        (Demo.args comprehensive [])
                                        (Sim.open Demo.untimed))))
  /\ 0 = List.length (issues (snd (functionalQATool Sim.driver
                                     (Demo.args comprehensive [])
                                     (Sim.open Demo.untimed)))).
Proof.
  split; [vm_compute; reflexivity|].
  refine (failure_envelope Sim.driver (Demo.args comprehensive [])
            (Sim.open Demo.untimed) Demo.timing_error Demo.timing_failure 8 0 _).
  vm_compute; reflexivity.
Defined.

Lemma close_is_last_witness :
  drv_launch Sim.driver (Sim.open Demo.linked) = (Ok tt, Sim.open Demo.linked)
  /\ exists cs,
      calls (snd (functionalQATool Sim.driver
                    (Demo.args comprehensive [Demo.visit_missing])
                    (Sim.open Demo.linked)))
      = (CLaunch :: cs ++ [CClose])%list
      /\ no_close cs = true.
Proof.
  split; [reflexivity|].
  exact (close_is_last Sim.driver (Demo.args comprehensive [Demo.visit_missing])
           (Sim.open Demo.linked) (Sim.open Demo.linked) eq_refl).
Defined.

(** A load event of exactly 3000 ms and one MiB of heap: no issue. *)
Lemma performance_verdict_witness :
  drv_metrics (Sim.still Demo.limit_document) (world (start tt)) = (Ok 1048576%Z, tt)
  /\ drv_evaluate (Sim.still Demo.limit_document) tt = (Ok Demo.limit_document, tt)
  /\ navigation_entry Demo.limit_document = Some Demo.on_the_limit
  /\ exists r fs,
      fst (assessPerformance (Sim.still Demo.limit_document) (start tt)) = Ok r
      /\ issues (snd (assessPerformance (Sim.still Demo.limit_document) (start tt)))
         = (issues (start tt) ++ fs)%list
      /\ qaResults (snd (assessPerformance (Sim.still Demo.limit_document) (start tt)))
         = qaResults (start tt)
      /\ passed r = Js.VBool (Nat.eqb (List.length fs) 0)
      /\ existsb (has_severity major) fs
         = Z.ltb 3000 (loadEventEnd Demo.on_the_limit - loadEventStart Demo.on_the_limit)
      /\ existsb (has_severity minor) fs = Z.ltb 52428800 1048576
      /\ forallb (in_category Performance) fs = true.
Proof.
  split; [reflexivity|]. split; [reflexivity|]. split; [reflexivity|].
  exact (performance_verdict (Sim.still Demo.limit_document) (start tt) 1048576%Z tt
           Demo.limit_document tt Demo.on_the_limit eq_refl eq_refl eq_refl).
Defined.

Lemma still_shows_untimed :
  shows (Sim.still Demo.untimed_document) (fun d => navigation_entry d = None).
Proof. intros w. exists Demo.untimed_document, w. split; reflexivity. Qed.

Lemma no_report_without_navigation_timing_witness :
  shows (Sim.still Demo.untimed_document) (fun d => navigation_entry d = None)
  /\ reported (fst (functionalQATool (Sim.still Demo.untimed_document)
                                     (Demo.args navigation [Demo.wait_once]) tt))
     = false.
Proof.
  split; [exact still_shows_untimed|].
  exact (no_report_without_navigation_timing (Sim.still Demo.untimed_document)
           (Demo.args navigation [Demo.wait_once]) tt still_shows_untimed).
Defined.

(** The gallery page: two images without an alternative text. *)
Lemma ui_assessment_findings_witness :
  drv_evaluate (Sim.still Demo.gallery_document) (world (start tt))
  = (Ok Demo.gallery_document, tt)
  /\ exists r,
      fst (assessUIQuality (Sim.still Demo.gallery_document) (start tt)) = Ok r
      /\ passed r = Js.VBool (Nat.eqb (List.length (uiProblems Demo.gallery_document)) 0)
      /\ List.length (uiProblems Demo.gallery_document)
         = List.length (filter text_too_small (all_elements Demo.gallery_document))
           + List.length (filter lacks_alt (images Demo.gallery_document))
      /\ issues (snd (assessUIQuality (Sim.still Demo.gallery_document) (start tt)))
         = (issues (start tt) ++ map ui_issue (smallText Demo.gallery_document)
                   ++ map ui_issue (missingAlt Demo.gallery_document))%list
      /\ forallb (fun i => (has_severity minor i && in_category UIUX i)%bool)
                 (map ui_issue (uiProblems Demo.gallery_document)) = true
      /\ qaResults (snd (assessUIQuality (Sim.still Demo.gallery_document) (start tt)))
         = qaResults (start tt).
Proof.
  split; [reflexivity|].
  exact (ui_assessment_findings (Sim.still Demo.gallery_document) (start tt)
           Demo.gallery_document tt eq_refl).
Defined.

(** Two forms, one of them without a submit control. *)
Lemma form_check_verdict_witness :
  drv_evaluate (Sim.still Demo.survey_document) (world (start tt))
  = (Ok Demo.survey_document, tt)
  /\ exists r rest fs,
      qaResults (snd (runFormTests (Sim.still Demo.survey_document) Demo.home (start tt)))
      = (qaResults (start tt) ++ r :: rest)%list
      /\ testName r = "Form Structure Check"
      /\ passed r = Js.VBool (forallb form_submit (dom_forms Demo.survey_document))
      /\ details r = DForms (List.length (dom_forms Demo.survey_document))
                            (formInfos Demo.survey_document)
      /\ map fi_index (formInfos Demo.survey_document)
         = seq 0 (List.length (dom_forms Demo.survey_document))
      /\ issues (snd (runFormTests (Sim.still Demo.survey_document) Demo.home (start tt)))
         = (issues (start tt)
            ++ (if forallb form_submit (dom_forms Demo.survey_document) then []
                else [forms_issue (filter (fun form => negb (hasSubmitButton form))
                                          (formInfos Demo.survey_document))])
            ++ fs)%list
      /\ match label_scan (fst (drv_evaluate (Sim.still Demo.survey_document) tt)) with
         | Ok found =>
             rest = []
             /\ fs = (if Nat.ltb 0 (List.length found) then [labels_issue found] else [])
         | Throw e => rest = [errored "Form Structure Check" e] /\ fs = []
         end.
Proof.
  split; [reflexivity|].
  exact (form_check_verdict (Sim.still Demo.survey_document) Demo.home (start tt)
           Demo.survey_document tt eq_refl).
Defined.

(** An input whose [id] holds a double quote: the label lookup throws, the
    probe lands in its [catch] block, and the unlabeled input is not
    reported. *)
Example quoted_id_fails_form_probe :
  map (fun r => (testName r, passed r))
      (qaResults (snd (runFormTests (Sim.still Demo.quoted_document) Demo.home
                                    (start tt))))
  = [("Form Structure Check", Js.VBool true);
     ("Form Structure Check", Js.VBool false)]
  /\ issues (snd (runFormTests (Sim.still Demo.quoted_document) Demo.home (start tt)))
     = [].
Proof. split; vm_compute; reflexivity. Qed.

(** The basic checks on a page on which all three fail. *)
Lemma basic_checks_issues_witness :
  drv_title Sim.driver (world (Demo.loaded Demo.shaky))
  = (Ok "   ", world (Demo.loaded Demo.shaky))
  /\ drv_evaluate Sim.driver (world (Demo.loaded Demo.shaky))
     = (Ok Demo.shaky_document, world (Demo.loaded Demo.shaky))
  /\ drv_waitForTimeout Sim.driver 2000%Z (world (Demo.loaded Demo.shaky))
     = (Ok ["ReferenceError: app is not defined"], world (Demo.loaded Demo.shaky))
  /\ exists t b j fs,
      qaResults (snd (runBasicTests Sim.driver Demo.home (Demo.loaded Demo.shaky)))
      = (qaResults (Demo.loaded Demo.shaky) ++ [t; b; j])%list
      /\ Js.truthy (passed t) = negb (title_blank "   ")
      /\ passed b = Js.VBool (Nat.eqb (brokenImages Demo.shaky_document) 0)
      /\ passed j
         = Js.VBool (Nat.eqb (List.length ["ReferenceError: app is not defined"]) 0)
      /\ issues (snd (runBasicTests Sim.driver Demo.home (Demo.loaded Demo.shaky)))
         = (issues (Demo.loaded Demo.shaky) ++ fs)%list
      /\ map category fs
         = ((if Js.truthy (passed t) then [] else [SEO])
            ++ (if Js.truthy (passed b) then [] else [Content])
            ++ (if Js.truthy (passed j) then [] else [JavaScript]))%list.
Proof.
  split; [reflexivity|]. split; [reflexivity|]. split; [reflexivity|].
  exact (basic_checks_issues Sim.driver Demo.home (Demo.loaded Demo.shaky) "   "
           (world (Demo.loaded Demo.shaky)) Demo.shaky_document
           (world (Demo.loaded Demo.shaky)) ["ReferenceError: app is not defined"]
           (world (Demo.loaded Demo.shaky)) eq_refl eq_refl eq_refl).
Defined.

(** The same page in a whole run: both critical issues, the three basic
    issues in order, and the severities the categories call for. *)
Example shaky_run :
  map (fun i => (severity i, category i))
      (Demo.issues_of (fst (Demo.run basic [] Demo.shaky)))
  = [(minor, SEO); (major, Content); (critical, JavaScript)]
  /\ Demo.recommendations_of (fst (Demo.run basic [] Demo.shaky))
     = [critical_banner; major_banner; minor_banner;
        focus_line (SEO, 1); focus_line (Content, 1); focus_line (JavaScript, 1)].
Proof. split; vm_compute; reflexivity. Qed.

(** White space beyond ASCII: a title or a text that holds only a
    no-break space (U+00A0, bytes 194 160) is blank. *)
Example no_break_space_is_blank :
  Js.trim (String (ascii_of_nat 194) (String (ascii_of_nat 160) "")) = ""
  /\ title_blank (String (ascii_of_nat 194) (String (ascii_of_nat 160) "")) = true
  /\ text_too_small
       {| el_tag := "span"; fontSize := Some 10%Z;
          el_textContent := Some (String (ascii_of_nat 194) (String (ascii_of_nat 160) ""));
          rect_width := 10; rect_height := 10 |}
     = false
  /\ text_too_small
       {| el_tag := "span"; fontSize := Some 10%Z; el_textContent := Some "note";
          rect_width := 10; rect_height := 10 |}
     = true.
Proof. repeat split; vm_compute; reflexivity. Qed.
